(** * Ableton chain tools: resolution and value-application engine

    A shallow embedding of [Gateway_Remote/chain_tools.py] (class
    [ChainTools]) and [Gateway_Remote/parameter_resolver.py], followed by
    the properties of the engine stated in the specification.

    Conventions of the embedding.
    - Python [str] is [string], one [ascii] per character: the model
      covers the text of the code points below 256 (ASCII and Latin-1),
      on which [str.lower], [str.isspace] and [str.isalnum] are Python's.
    - Python [float] is an exact rational [Q]; every arithmetic step is
      followed by [Qred], so a value has one representation.  The
      rounding of an arithmetic step, [nan] and [inf] are outside the
      model ([float("inf")] as the initial best distance is [None]); the
      conversion of an [int] rounds and overflows as Python's does.
    - JSON payloads are the inductive [JSON]; a [dict] is an association
      list read by [dict_get].
    - Conversions of the Python runtime that the engine calls on arbitrary
      payloads ([str] of a non-string, [int]/[float] of a string, [str] of
      a float) are operations of the class [PyRuntime].
    - Host objects (tracks, devices, parameters, browser items) live in a
      [World]; the operations of the host that the engine only calls
      ([Browser.load_item], [Song.move_device], the passage of time in
      [time.sleep]) are operations of the class [Host].
    - A message built with [str.format] is a constructor of [Msg] holding
      the template's arguments.
    - [elapsed_ms] (wall-clock time) is left out of the result payloads. *)

From Stdlib Require Import String Ascii List ZArith QArith Qround Qabs Lia Lqa Bool.
From Stdlib Require Import Permutation Sorted.
Import ListNotations.
Open Scope string_scope.
Open Scope Z_scope.
Set Warnings "-register-all".

(* ================================================================== *)
(** * Part I: definitions                                              *)
(* ================================================================== *)

(** ** Python strings *)

Module PyStr.

Definition in_range (lo hi c : ascii) : bool :=
  (Ascii.leb lo c && Ascii.leb c hi)%bool.

Definition is_upper (c : ascii) : bool := in_range "A" "Z" c.
Definition is_lower (c : ascii) : bool := in_range "a" "z" c.
(** The class [\d] of [re]; below 256 the only decimal digits are the
    ASCII ones. *)
Definition is_digit (c : ascii) : bool := in_range "0" "9" c.


(** The capital letters of Latin-1: codes 192-222 but for the
    multiplication sign 215. *)
Definition is_latin1_upper (c : ascii) : bool :=
  let n := nat_of_ascii c in
  ((192 <=? n) && (n <=? 222) && negb (n =? 215))%nat%bool.


(** The character class [[a-z0-9]] of [_TOKEN_RE]. *)
Definition is_token_char (c : ascii) : bool :=
  (is_lower c || is_digit c)%bool.

Definition lower_char (c : ascii) : ascii :=
  if (is_upper c || is_latin1_upper c)%bool then ascii_of_nat (nat_of_ascii c + 32) else c.

(** [str.lower]. *)
Fixpoint lower (s : string) : string :=
  match s with
  | EmptyString => EmptyString
  | String c s' => String (lower_char c) (lower s')
  end.

(** [str.isspace] on one character: codes 9-13, 28-32, 133 and 160. *)
Definition is_space (c : ascii) : bool :=
  let n := nat_of_ascii c in
  ((9 <=? n) && (n <=? 13) || (28 <=? n) && (n <=? 32) || (n =? 133) || (n =? 160))%nat%bool.

Fixpoint lstrip (s : string) : string :=
  match s with
  | EmptyString => EmptyString
  | String c s' => if is_space c then lstrip s' else s
  end.

Fixpoint rstrip (s : string) : string :=
  match s with
  | EmptyString => EmptyString
  | String c s' =>
      match rstrip s' with
      | EmptyString => if is_space c then EmptyString else String c EmptyString
      | r => String c r
      end
  end.

(** [str.strip] with no argument. *)
Definition strip (s : string) : string := rstrip (lstrip s).

Fixpoint starts_with (p s : string) : bool :=
  match p, s with
  | EmptyString, _ => true
  | String a p', String b s' => (Ascii.eqb a b && starts_with p' s')%bool
  | String _ _, EmptyString => false
  end.

(** [needle in hay] on strings. *)
Fixpoint contains (needle hay : string) : bool :=
  (starts_with needle hay ||
   match hay with
   | EmptyString => false
   | String _ hay' => contains needle hay'
   end)%bool.

Definition is_empty (s : string) : bool :=
  match s with EmptyString => true | _ => false end.

Definition flush (cur : string) : list string :=
  if is_empty cur then [] else [cur].

(** [re.findall] of a pattern [[class]+]: the maximal runs of characters
    of the class, left to right.  [cur] is the run being read. *)
Fixpoint runs_of (cls : ascii -> bool) (cur s : string) : list string :=
  match s with
  | EmptyString => flush cur
  | String c s' =>
      if cls c then runs_of cls (cur ++ String c EmptyString) s'
      else flush cur ++ runs_of cls EmptyString s'
  end.

(** [_TOKEN_RE.findall(s)] with [_TOKEN_RE = re.compile(r"[a-z0-9]+")]. *)
Definition TOKEN_RE_findall (s : string) : list string :=
  runs_of is_token_char EmptyString s.

(** [sep.join(parts)]. *)
Fixpoint join (sep : string) (parts : list string) : string :=
  match parts with
  | [] => EmptyString
  | [p] => p
  | p :: rest => p ++ sep ++ join sep rest
  end.

(** [str.split()] with no argument: the maximal runs of non-space
    characters. *)
Definition split_ws (s : string) : list string :=
  runs_of (fun c => negb (is_space c)) EmptyString s.

Definition mem (x : string) (l : list string) : bool :=
  existsb (String.eqb x) l.

(** [set(l)], as a list without repetition. *)
Fixpoint to_set (l : list string) : list string :=
  match l with
  | [] => []
  | x :: r => if mem x r then to_set r else x :: to_set r
  end.

(** [len(set(a) & set(b))]. *)
Definition overlap_count (a b : list string) : nat :=
  List.length (filter (fun x => mem x b) (to_set a)).

End PyStr.

(** ** Python floats, as reduced rationals *)

Module PyFloat.

Definition fadd (a b : Q) : Q := Qred (a + b).
Definition fsub (a b : Q) : Q := Qred (a - b).
Definition fmul (a b : Q) : Q := Qred (a * b).
Definition fdiv (a b : Q) : Q := Qred (a / b).
Definition fabs (a : Q) : Q := Qred (Qabs a).
Definition feq (a b : Q) : bool := Qeq_bool a b.
Definition fle (a b : Q) : bool := Qle_bool a b.
Definition flt (a b : Q) : bool := negb (Qle_bool b a).
(** [max(a, b)] returns its first argument unless the second is
    greater; [min(a, b)] unless the second is smaller. *)
Definition fmax (a b : Q) : Q := if flt a b then b else a.
Definition fmin (a b : Q) : Q := if flt b a then b else a.
Definition of_Z (z : Z) : Q := inject_Z z.
(** [float(z)] of an [int]: the nearest number with a 53-bit mantissa,
    ties to the even one; [None] when that number is [2 ** 1024] or more
    and Python raises [OverflowError]. *)
Definition of_int (z : Z) : option Q :=
  let a := Z.abs z in
  if a <? 2 ^ 53 then Some (inject_Z z)
  else
    let e := Z.log2 a - 52 in
    let q := Z.shiftr a e in
    let r := a - Z.shiftl q e in
    let half := Z.shiftl 1 (e - 1) in
    let q' := if ((half <? r) || ((half =? r) && Z.odd q))%bool then q + 1 else q in
    let m := Z.shiftl q' e in
    if 2 ^ 1024 <=? m then None else Some (inject_Z (Z.sgn z * m)).
Definition of_nat (n : nat) : Q := inject_Z (Z.of_nat n).
(** [int(x)] of a float: truncation toward zero. *)
Definition to_int (a : Q) : Z :=
  if flt a 0 then Qceiling a else Qfloor a.
(** A value [v or default] where [v] is a float: [0.0] is falsy. *)
Definition or_default (v d : Q) : Q := if feq v 0 then d else v.

End PyFloat.

(** ** JSON payloads and the Python conversions applied to them *)

Inductive JSON : Type :=
| JNull
| JBool (b : bool)
| JInt (z : Z)
| JFloat (q : Q)
| JStr (s : string)
| JArr (items : list JSON)
| JObj (fields : list (string * JSON)).

(** [d.get(key)]: [None] when the key is absent, which the callers do
    not tell from a stored [null]. *)
Fixpoint dict_get (fields : list (string * JSON)) (key : string) : JSON :=
  match fields with
  | [] => JNull
  | (k, v) :: rest => if String.eqb k key then v else dict_get rest key
  end.

(** [key in d]. *)
Definition dict_has (fields : list (string * JSON)) (key : string) : bool :=
  existsb (fun kv => String.eqb (fst kv) key) fields.

Definition is_none (x : JSON) : bool :=
  match x with JNull => true | _ => false end.

(** [bool(x)]. *)
Definition truthy (x : JSON) : bool :=
  match x with
  | JNull => false
  | JBool b => b
  | JInt z => negb (Z.eqb z 0)
  | JFloat q => negb (PyFloat.feq q 0)
  | JStr s => negb (PyStr.is_empty s)
  | JArr l => match l with [] => false | _ => true end
  | JObj l => match l with [] => false | _ => true end
  end.

(** The conversions of the Python runtime that the engine applies to
    payloads of any shape. *)
Class PyRuntime : Type := {
  (** [str(x)] for a payload that is not a string *)
  py_repr : JSON -> string;
  (** [int(s)] for a string; [None] when it raises *)
  py_int_of_str : string -> option Z;
  (** [float(s)] for a string; [None] when it raises *)
  py_float_of_str : string -> option Q;
  (** [str(x)] for a float *)
  py_str_of_float : Q -> string
}.

Section Conversions.
Context {py : PyRuntime}.

(** [str(x)]. *)
Definition py_str (x : JSON) : string :=
  match x with JStr s => s | _ => py_repr x end.

(** [str(x or "")]. *)
Definition str_or_empty (x : JSON) : string :=
  if truthy x then py_str x else EmptyString.

(** [int(x)]; [None] when it raises. *)
Definition py_int (x : JSON) : option Z :=
  match x with
  | JInt z => Some z
  | JBool b => Some (if b then 1 else 0)
  | JFloat q => Some (PyFloat.to_int q)
  | JStr s => py_int_of_str s
  | JNull | JArr _ | JObj _ => None
  end.

(** [float(x)]; [None] when it raises. *)
Definition py_float (x : JSON) : option Q :=
  match x with
  | JInt z => PyFloat.of_int z
  | JBool b => Some (if b then 1 else 0)%Q
  | JFloat q => Some (Qred q)
  | JStr s => py_float_of_str s
  | JNull | JArr _ | JObj _ => None
  end.

End Conversions.

(** ** Messages *)

(** Every message the engine formats, by template. *)
Inductive Msg : Type :=
| MsgStepsMustBeArray                       (* steps must be a non-empty array *)
| MsgTargetMustBeObject                     (* target must be an object *)
| MsgNoSelectedTrack                        (* No selected track *)
| MsgInvalidTrackIndex                      (* Invalid track_index *)
| MsgTrackNotFound                          (* Track not found *)
| MsgStepMustBeObject (idx : nat)           (* step {} must be an object *)
| MsgStepMissingDeviceName (idx : nat)      (* step {} missing device_name *)
| MsgStepFailed (idx : nat) (why : Msg)     (* step {} failed: {} *)
| MsgBrowserUnavailable                     (* Browser API not available *)
| MsgDeviceNotFound (name : string)         (* Device '{}' not found *)
| MsgDeviceLoadTimedOut                     (* Device load timed out *)
| MsgNoDevicesOnTrack                       (* No devices on track *)
| MsgInvalidInsertIndex                     (* invalid insert_index *)
| MsgInsertIndex (raw : JSON)               (* insert_index={} *)
| MsgAnchorNotFound                         (* anchor not found *)
| MsgPlacement (placement : string) (anchor : JSON)   (* {} {} *)
| MsgPositioningFailed (exc : string)       (* positioning failed: {} *)
| MsgUpdatesMustBeArray                     (* parameter_updates must be an array *)
| MsgParameterUpdateFailed                  (* parameter update failed *)
| MsgValueMustBeNumeric                     (* value must be numeric *)
| MsgDisplayTextEmpty                       (* target_display_text must be a non-empty string *)
| MsgDisplayTextQuantizedOnly               (* target_display_text is only supported for quantized parameters *)
| MsgNoDisplayMatch                         (* target_display_text did not match any quantized value *)
| MsgDisplayValueMustBeNumeric              (* target_display_value must be numeric *)
| MsgException (exc : string).              (* str(exc) *)

(** ** The host object graph *)

Definition TrackId := nat.
Definition DeviceId := nat.

(** A device parameter of the host.  [param_str_for_value] is the host's
    [str_for_value]; [None] stands for a host that raises (or has no such
    method).  [param_refuses] gives the text of the exception the host
    raises when [param.value = v] is refused, [None] when it stores [v]. *)
Record Param : Type := mkParam {
  param_name : string;
  param_min : Q;
  param_max : Q;
  param_value : Q;
  param_is_quantized : bool;
  param_str_for_value : Q -> option string;
  param_refuses : Q -> option string
}.

Record Device : Type := mkDevice {
  device_name : string;
  device_class_name : string;
  (** [type(device).__name__] *)
  device_type_name : string;
  device_parameters : list Param
}.

Record Track : Type := mkTrack {
  track_name : string;
  track_devices : list DeviceId
}.

(** A node of the browser's catalog.  [item_handle] is what the host
    reads to know which device the item loads; [marker] is what [id()]
    gives for the Python object through which the search sees the node.
    Two nodes can have one marker: the host may build the objects of a
    node's children when they are asked for, and Python gives the address
    of an object that was freed to a later one. *)
Inductive BrowserItem : Type :=
| Item (name : string) (is_loadable : bool)
       (children items : list BrowserItem) (item_handle : nat) (marker : Z).

(** The five roots [_find_browser_device] reads; [None] for a root whose
    [getattr] raises. *)
Record Browser : Type := mkBrowser {
  audio_effects : option BrowserItem;
  midi_effects : option BrowserItem;
  instruments : option BrowserItem;
  sounds : option BrowserItem;
  max_for_live : option BrowserItem
}.

(** The host's state: the track and device objects by identity, the
    song's track list, the selected track, the browser ([None] when
    [_get_live_browser] finds none) and what the host keeps to itself. *)
Record World (S : Type) : Type := mkWorld {
  track_objects : list Track;
  device_objects : list Device;
  song_tracks : list TrackId;
  selected_track : option TrackId;
  live_browser : option Browser;
  host_private : S
}.

Arguments mkWorld {S}.
Arguments track_objects {S}.
Arguments device_objects {S}.
Arguments song_tracks {S}.
Arguments selected_track {S}.
Arguments live_browser {S}.
Arguments host_private {S}.

(** What the engine asks of the host without seeing how it is done.  A
    call returns the world it leaves and the text of the exception it
    raised, if any. *)
Class Host (S : Type) : Type := {
  (** [browser.load_item(item)] *)
  load_item : BrowserItem -> World S -> World S * option string;
  (** [time.sleep(0.05)]: what the host does meanwhile *)
  sleep : World S -> World S;
  (** [song.move_device(device, track, index)] *)
  move_device : DeviceId -> TrackId -> Z -> World S -> World S * option string
}.

Section ObjectGraph.
Context {S : Type}.

Definition get_track (w : World S) (t : TrackId) : option Track :=
  nth_error (track_objects w) t.

Definition get_device (w : World S) (d : DeviceId) : option Device :=
  nth_error (device_objects w) d.

(** [str(getattr(track, "name", ""))]. *)
Definition name_of_track (w : World S) (t : TrackId) : string :=
  match get_track w t with Some tr => track_name tr | None => EmptyString end.

(** [list(getattr(track, "devices", []) or [])]. *)
Definition devices_of_track (w : World S) (t : TrackId) : list DeviceId :=
  match get_track w t with Some tr => track_devices tr | None => [] end.

Fixpoint list_set {A : Type} (l : list A) (i : nat) (x : A) : list A :=
  match l, i with
  | [], _ => []
  | _ :: r, O => x :: r
  | y :: r, Datatypes.S j => y :: list_set r j x
  end.

(** The world after the device object [d] was mutated into [dev]. *)
Definition put_device (w : World S) (d : DeviceId) (dev : Device) : World S :=
  mkWorld (track_objects w) (list_set (device_objects w) d dev)
          (song_tracks w) (selected_track w) (live_browser w) (host_private w).

(** [self.song.view.selected_track = track]. *)
Definition select_track (w : World S) (t : TrackId) : World S :=
  mkWorld (track_objects w) (device_objects w)
          (song_tracks w) (Some t) (live_browser w) (host_private w).

Fixpoint index_of (x : nat) (l : list nat) (i : nat) : option nat :=
  match l with
  | [] => None
  | y :: r => if Nat.eqb x y then Some i else index_of x r (Datatypes.S i)
  end.

(** [_track_index]: the position of the track in [song.tracks], or -1. *)
Definition _track_index (w : World S) (t : TrackId) : Z :=
  match index_of t (song_tracks w) 0 with
  | Some i => Z.of_nat i
  | None => -1
  end.

End ObjectGraph.

Fixpoint enumerate_from {A : Type} (i : nat) (l : list A) : list (nat * A) :=
  match l with
  | [] => []
  | x :: r => (i, x) :: enumerate_from (Datatypes.S i) r
  end.

(** [enumerate(l)]. *)
Definition enumerate {A : Type} (l : list A) : list (nat * A) :=
  enumerate_from 0 l.

(** ** Track resolution *)

Definition track_stop_words : list string :=
  ["a"; "an"; "the"; "track"; "to"; "on"; "for"; "my"; "this"; "that"].

(** [_normalize_track_tokens]. *)
Definition _normalize_track_tokens (text : string) : list string :=
  let all := PyStr.TOKEN_RE_findall (PyStr.lower text) in
  let tokens := filter (fun t => negb (PyStr.mem t track_stop_words)) all in
  match tokens with
  | [] => all
  | _ :: _ => tokens
  end.

(** [_score_track_name_match]. *)
Definition _score_track_name_match (query_norm candidate_name : string) : Q :=
  let candidate_tokens := _normalize_track_tokens candidate_name in
  let candidate_norm := PyStr.join "" candidate_tokens in
  if PyStr.is_empty candidate_norm then 0
  else if String.eqb query_norm candidate_norm then 5
  else if PyStr.contains query_norm candidate_norm then 5 # 2
  else if PyStr.contains candidate_norm query_norm then 2
  else
    let query_set := PyStr.TOKEN_RE_findall query_norm in
    match query_set, candidate_tokens with
    | [], _ | _, [] => 0
    | _, _ => PyFloat.of_nat (PyStr.overlap_count query_set candidate_tokens)
    end.

(** One entry [(score, idx, tr)] of [scored]. *)
Definition Scored : Type := (Q * nat * TrackId)%type.

(** The order of [key=lambda item: (-item[0], item[1])]. *)
Definition scored_le (a b : Scored) : bool :=
  let '(sa, ia, _) := a in
  let '(sb, ib, _) := b in
  (PyFloat.flt sb sa || (PyFloat.feq sa sb && (ia <=? ib)%nat))%bool.

Fixpoint insert_scored (x : Scored) (l : list Scored) : list Scored :=
  match l with
  | [] => [x]
  | y :: r => if scored_le x y then x :: l else y :: insert_scored x r
  end.

(** [scored.sort(key=...)]. *)
Fixpoint sort_scored (l : list Scored) : list Scored :=
  match l with
  | [] => []
  | x :: r => insert_scored x (sort_scored r)
  end.

Section TrackResolution.
Context {S : Type} {py : PyRuntime}.

(** The list comprehension building [exact]. *)
Definition exact_matches (w : World S) (query : string) : list (nat * TrackId) :=
  filter (fun it => String.eqb (PyStr.lower (PyStr.strip (name_of_track w (snd it)))) query)
         (enumerate (song_tracks w)).

(** The loop building [scored]. *)
Definition scored_candidates (w : World S) (query_norm : string) : list Scored :=
  flat_map (fun it =>
              let score := _score_track_name_match query_norm (name_of_track w (snd it)) in
              if PyFloat.flt 0 score then [(score, fst it, snd it)] else [])
           (enumerate (song_tracks w)).

(** [_resolve_track_by_name]: [Some (track, idx)], or [None] for the
    pair [(None, -1)]. *)
Definition _resolve_track_by_name (w : World S) (query : string) : option (TrackId * nat) :=
  let query := PyStr.lower (PyStr.strip query) in
  if PyStr.is_empty query then None
  else
    match exact_matches w query with
    | [(idx, tr)] => Some (tr, idx)
    | _ :: _ :: _ => None
    | [] =>
        let query_norm := PyStr.join "" (_normalize_track_tokens query) in
        match sort_scored (scored_candidates w query_norm) with
        | [] => None
        | [(_, idx, tr)] => Some (tr, idx)
        | (s0, idx, tr) :: (s1, _, _) :: _ =>
            if PyFloat.flt (PyFloat.fabs (PyFloat.fsub s0 s1)) (1 # 4) then None
            else Some (tr, idx)
        end
    end.

(** The selected-track branch of [_resolve_track_target]. *)
Definition resolve_selected (w : World S) : (TrackId * Z) + Msg :=
  match selected_track w with
  | None => inr MsgNoSelectedTrack
  | Some t => inl (t, _track_index w t)
  end.

(** [_resolve_track_target]: the track and its index, or the error. *)
Definition _resolve_track_target (w : World S) (target : JSON) : (TrackId * Z) + Msg :=
  match (if truthy target then target else JObj []) with
  | JObj fields =>
      let use_selected_track :=
        match dict_get fields "use_selected_track" with
        | JNull => JBool true
        | v => v
        end in
      let track_index := dict_get fields "track_index" in
      let track_name := dict_get fields "track_name" in
      if (truthy use_selected_track && is_none track_index && negb (truthy track_name))%bool
      then resolve_selected w
      else if negb (is_none track_index) then
        match py_int track_index with
        | None => inr MsgInvalidTrackIndex
        | Some idx =>
            if (idx <? 0) || (idx >=? Z.of_nat (List.length (song_tracks w)))
            then inr MsgInvalidTrackIndex
            else
              match nth_error (song_tracks w) (Z.to_nat idx) with
              | Some t => inl (t, idx)
              | None => inr MsgInvalidTrackIndex
              end
        end
      else if truthy track_name then
        match _resolve_track_by_name w (py_str track_name) with
        | None => inr MsgTrackNotFound
        | Some (t, idx) => inl (t, Z.of_nat idx)
        end
      else resolve_selected w
  | _ => inr MsgTargetMustBeObject
  end.

End TrackResolution.

(** ** Reading a parameter's display *)

(** The exception value of a call that raises past its caller. *)
Inductive Exc (A : Type) : Type :=
| Returns (a : A)
| Raises (exc : string).

Arguments Returns {A}.
Arguments Raises {A}.

Definition exc_bind {A B : Type} (m : Exc A) (f : A -> Exc B) : Exc B :=
  match m with
  | Returns a => f a
  | Raises e => Raises e
  end.

Notation "x <- m ;; k" := (exc_bind m (fun x => k))
  (at level 61, m at next level, right associativity).
Notation "' pat <- m ;; k" := (exc_bind m (fun x => match x with pat => k end))
  (at level 61, pat pattern, m at next level, right associativity).

Definition digit_value (c : ascii) : Z := Z.of_nat (nat_of_ascii c - 48).

(** The run [\d*] at the start of [s]: its value after [acc], the number
    of digits read after [n], and what follows. *)
Fixpoint read_digits (acc : Z) (n : nat) (s : string) : Z * nat * string :=
  match s with
  | EmptyString => (acc, n, s)
  | String c s' =>
      if PyStr.is_digit c
      then read_digits (10 * acc + digit_value c) (Datatypes.S n) s'
      else (acc, n, s)
  end.

(** [float] of the match of [\d+\.?\d*] at the start of [s]; there is
    none when [s] starts with no digit. *)
Definition match_unsigned (s : string) : option Q :=
  let '(int_part, n, rest) := read_digits 0 0 s in
  match n with
  | O => None
  | Datatypes.S _ =>
      match rest with
      | String "."%char rest' =>
          let '(frac_part, k, _) := read_digits 0 0 rest' in
          Some (Qred (inject_Z int_part + inject_Z frac_part / inject_Z (10 ^ Z.of_nat k)))
      | _ => Some (inject_Z int_part)
      end
  end.

(** [float] of the match of [[-+]?\d+\.?\d*] at the start of [s]. *)
Definition match_number (s : string) : option Q :=
  match s with
  | String "-"%char s' =>
      match match_unsigned s' with
      | Some q => Some (Qred (- q))
      | None => None
      end
  | String "+"%char s' => match_unsigned s'
  | _ => match_unsigned s
  end.

(** [re.search(r"[-+]?\d+\.?\d*", s)]: the leftmost match. *)
Fixpoint search_number (s : string) : option Q :=
  match match_number s with
  | Some q => Some q
  | None =>
      match s with
      | EmptyString => None
      | String _ s' => search_number s'
      end
  end.

(** [_parse_display_number]. *)
Definition _parse_display_number (display : option string) : option Q :=
  match display with
  | None => None
  | Some s => search_number s
  end.

(** [_convert_display_number_for_unit]. *)
Definition _convert_display_number_for_unit
  (number : option Q) (display_str : option string) (unit_hint : option string) : option Q :=
  match number, unit_hint with
  | None, _ => number
  | _, None => number
  | Some n, Some hint =>
      if PyStr.is_empty hint then number
      else
        let display := PyStr.lower (match display_str with Some s => s | None => EmptyString end) in
        if String.eqb hint "s" then
          if PyStr.contains "ms" display then Some (PyFloat.fdiv n 1000) else Some n
        else if String.eqb hint "ms" then
          if PyStr.contains "ms" display then Some n
          else if (PyStr.contains "sec" display || PyStr.contains "seconds" display)%bool
               then Some (PyFloat.fmul n 1000)
          else Some n
        else if String.eqb hint "%" then
          if PyStr.contains "%" display then Some n
          else if (PyFloat.fle (-1) n && PyFloat.fle n 1)%bool
               then Some (PyFloat.fmul n 100)
          else Some n
        else Some n
  end.

Definition unit_aliases : list (string * string) :=
  [("percent", "%"); ("percentage", "%"); ("pct", "%"); ("%", "%");
   ("ms", "ms"); ("millisecond", "ms"); ("milliseconds", "ms");
   ("s", "s"); ("sec", "s"); ("second", "s"); ("seconds", "s")].

Fixpoint assoc_get {A : Type} (table : list (string * A)) (key : string) : option A :=
  match table with
  | [] => None
  | (k, v) :: rest => if String.eqb k key then Some v else assoc_get rest key
  end.

Section Display.
Context {py : PyRuntime}.

(** [_normalize_unit_hint]. *)
Definition _normalize_unit_hint (unit : JSON) : option string :=
  if truthy unit then
    let value := PyStr.lower (PyStr.strip (py_str unit)) in
    match assoc_get unit_aliases value with
    | Some u => Some u
    | None => Some value
    end
  else None.

(** [_safe_str_for_value] on a backing value that is a float. *)
Definition _safe_str_for_value (param : Param) (backend_value : Q) : string :=
  match param_str_for_value param backend_value with
  | Some s => s
  | None => py_str_of_float backend_value
  end.

(** The local function [read_display] of [_set_parameter_with_verify]. *)
Definition read_display (param : Param) (unit : option string) (backend : Q)
  : string * option Q :=
  let display := _safe_str_for_value param backend in
  let parsed := _parse_display_number (Some display) in
  let converted := _convert_display_number_for_unit parsed (Some display) unit in
  (display, converted).

End Display.

(** ** Applying a value to a parameter *)

Inductive Mode : Type :=
| ModeAbsolute | ModeDisplayText | ModeDisplayTextFallback | ModeDisplayVerify.

(** The result dictionary of the three [_set_parameter_*] functions. *)
Inductive ApplyResult : Type :=
| ApplyOk (mode : Mode) (value : Q) (display : option string) (exact_match : option bool)
| ApplyError (error : Msg).

Definition apply_ok (r : ApplyResult) : bool :=
  match r with ApplyOk _ _ _ _ => true | ApplyError _ => false end.

(** The parameter after [param.value = v] went through. *)
Definition with_value (param : Param) (v : Q) : Param :=
  mkParam (param_name param) (param_min param) (param_max param) v
          (param_is_quantized param) (param_str_for_value param) (param_refuses param).

(** [_normalize_display_text] on a string. *)
Definition normalize_display_string (s : string) : string :=
  PyStr.join " " (PyStr.TOKEN_RE_findall (PyStr.lower s)).

(** [_score_display_text_match]. *)
Definition _score_display_text_match (target_norm candidate_norm : string) : Q * bool :=
  if (PyStr.is_empty target_norm || PyStr.is_empty candidate_norm)%bool then (0%Q, false)
  else if String.eqb target_norm candidate_norm then (100%Q, true)
  else if (PyStr.contains target_norm candidate_norm || PyStr.contains candidate_norm target_norm)%bool
       then (10%Q, false)
  else (PyFloat.of_nat (PyStr.overlap_count (PyStr.split_ws target_norm) (PyStr.split_ws candidate_norm)),
        false).

(** [int(max(1, (p_max - p_min) + 1))], the number of integer steps. *)
Definition step_count (p_min p_max : Q) : nat :=
  Z.to_nat (PyFloat.to_int (PyFloat.fmax 1 (PyFloat.fadd (PyFloat.fsub p_max p_min) 1))).

Section ValueApplication.
Context {py : PyRuntime}.

(** [_normalize_display_text]. *)
Definition _normalize_display_text (value : JSON) : string :=
  normalize_display_string (str_or_empty value).

(** [_set_parameter_absolute]. *)
Definition _set_parameter_absolute (param : Param) (value : JSON) : Param * ApplyResult :=
  match py_float value with
  | None => (param, ApplyError MsgValueMustBeNumeric)
  | Some v =>
      let v := PyFloat.fmax (param_min param) v in
      let v := PyFloat.fmin (param_max param) v in
      match param_refuses param v with
      | Some exc => (param, ApplyError (MsgException exc))
      | None =>
          let param' := with_value param v in
          (param', ApplyOk ModeAbsolute (param_value param')
                           (Some (_safe_str_for_value param' (param_value param'))) None)
      end
  end.

(** The state [(best_val, best_score, best_exact)] of the scan of
    [_set_parameter_by_display_text]. *)
Definition TextScan : Type := (option Q * Q * bool)%type.

(** The loop [for i in range(steps)] of [_set_parameter_by_display_text],
    from step [i] with [n] steps left. *)
Fixpoint text_scan (param : Param) (target_norm : string) (p_min : Q)
  (n i : nat) (st : TextScan) : TextScan :=
  match n with
  | O => st
  | Datatypes.S n' =>
      let '(best_val, best_score, best_exact) := st in
      let candidate := PyFloat.fadd p_min (PyFloat.of_nat i) in
      let display := _safe_str_for_value param candidate in
      let '(score, exact) :=
        _score_display_text_match target_norm (normalize_display_string display) in
      if PyFloat.flt best_score score then
        if exact then (Some candidate, score, exact)
        else text_scan param target_norm p_min n' (Datatypes.S i) (Some candidate, score, exact)
      else text_scan param target_norm p_min n' (Datatypes.S i) st
  end.

(** [_set_parameter_by_display_text]. *)
Definition _set_parameter_by_display_text
  (param : Param) (target_display_text fallback_value : JSON) : Param * ApplyResult :=
  let target_norm := _normalize_display_text target_display_text in
  if PyStr.is_empty target_norm then (param, ApplyError MsgDisplayTextEmpty)
  else if negb (param_is_quantized param) then (param, ApplyError MsgDisplayTextQuantizedOnly)
  else
    let p_min := PyFloat.or_default (param_min param) 0 in
    let p_max := PyFloat.or_default (param_max param) 1 in
    let steps := step_count p_min p_max in
    let '(best_val, best_score, best_exact) :=
      text_scan param target_norm p_min steps 0 (None, 0%Q, false) in
    match best_val, PyFloat.flt 0 best_score with
    | Some v, true =>
        match param_refuses param v with
        | Some exc => (param, ApplyError (MsgException exc))
        | None =>
            let param' := with_value param v in
            let current := param_value param' in
            (param', ApplyOk ModeDisplayText current
                             (Some (_safe_str_for_value param' current)) (Some best_exact))
        end
    | _, _ =>
        if negb (is_none fallback_value) then
          match _set_parameter_absolute param fallback_value with
          | (param', ApplyOk _ value display _) =>
              (param', ApplyOk ModeDisplayTextFallback value display (Some false))
          | (param', ApplyError e) => (param', ApplyError e)
          end
        else (param, ApplyError MsgNoDisplayMatch)
    end.

(** The state [(best_val, best_diff)] of the searches of
    [_set_parameter_with_verify]; [best_diff = None] is [float("inf")]. *)
Definition Best : Type := (Q * option Q)%type.

Definition improves (diff : Q) (best_diff : option Q) : bool :=
  match best_diff with
  | None => true
  | Some b => PyFloat.flt diff b
  end.

(** The loop [for i in range(steps)] of the quantized branch. *)
Fixpoint verify_scan (param : Param) (unit : option string) (target p_min : Q)
  (n i : nat) (st : Best) : Best :=
  match n with
  | O => st
  | Datatypes.S n' =>
      let candidate := PyFloat.fadd p_min (PyFloat.of_nat i) in
      match snd (read_display param unit candidate) with
      | None => verify_scan param unit target p_min n' (Datatypes.S i) st
      | Some num =>
          let diff := PyFloat.fabs (PyFloat.fsub num target) in
          if improves diff (snd st) then
            if PyFloat.flt diff (1 # 1000) then (candidate, Some diff)
            else verify_scan param unit target p_min n' (Datatypes.S i) (candidate, Some diff)
          else verify_scan param unit target p_min n' (Datatypes.S i) st
      end
  end.

(** The state of the bisection: the bracket, the best value with its
    distance, and the number of iterations entered. *)
Record Bisect : Type := mkBisect {
  bis_low : Q;
  bis_high : Q;
  bis_best_val : Q;
  bis_best_diff : option Q;
  bis_iterations : nat
}.

(** The test that ends the bisection on a close enough display. *)
Definition within_tolerance (target tolerance diff : Q) : bool :=
  if negb (PyFloat.feq target 0)
  then PyFloat.flt (PyFloat.fdiv diff (PyFloat.fabs target)) tolerance
  else PyFloat.flt diff (1 # 100).

(** The loop [for _ in range(max(1, int(max_iterations)))] of the
    continuous branch, with [n] iterations left. *)
Fixpoint bisect (param : Param) (unit : option string) (target tolerance : Q)
  (ascending : bool) (n : nat) (st : Bisect) : Bisect :=
  match n with
  | O => st
  | Datatypes.S n' =>
      let low := bis_low st in
      let high := bis_high st in
      let mid := PyFloat.fdiv (PyFloat.fadd low high) 2 in
      let entered := Datatypes.S (bis_iterations st) in
      match snd (read_display param unit mid) with
      | None => mkBisect low high (bis_best_val st) (bis_best_diff st) entered
      | Some mid_num =>
          let diff := PyFloat.fabs (PyFloat.fsub mid_num target) in
          let '(best_val, best_diff) :=
            if improves diff (bis_best_diff st) then (mid, Some diff)
            else (bis_best_val st, bis_best_diff st) in
          if within_tolerance target tolerance diff
          then mkBisect low high best_val best_diff entered
          else
            let '(low', high') :=
              if ascending then
                if PyFloat.flt mid_num target then (mid, high) else (low, mid)
              else
                if PyFloat.flt target mid_num then (mid, high) else (low, mid) in
            let st' := mkBisect low' high' best_val best_diff entered in
            if PyFloat.flt (PyFloat.fabs (PyFloat.fsub high' low')) (1 # 10000)
            then st'
            else bisect param unit target tolerance ascending n' st'
      end
  end.

(** The bisection as [_set_parameter_with_verify] starts it. *)
Definition run_bisect (param : Param) (unit : option string) (target tolerance : Q)
  (max_iterations : Z) (p_min p_max : Q) : Bisect :=
  let low_num := snd (read_display param unit p_min) in
  let high_num := snd (read_display param unit p_max) in
  let ascending :=
    match low_num, high_num with
    | Some l, Some h => PyFloat.flt l h
    | _, _ => true
    end in
  bisect param unit target tolerance ascending
         (Z.to_nat (Z.max 1 max_iterations))
         (mkBisect p_min p_max (PyFloat.fdiv (PyFloat.fadd p_min p_max) 2) None 0).

(** [param.value = v] outside any [try]. *)
Definition assign (param : Param) (v : Q) : Exc Param :=
  match param_refuses param v with
  | Some exc => Raises exc
  | None => Returns (with_value param v)
  end.

(** The fallback block that ends [_set_parameter_with_verify]: the
    parameter, the display and whether the fallback was used. *)
Definition verify_fallback (param : Param) (unit : option string) (p_min p_max : Q)
  (exact : bool) (fallback_value : JSON) (display : string) : Param * string * bool :=
  if (negb exact && negb (is_none fallback_value))%bool then
    match py_float fallback_value with
    | None => (param, display, false)
    | Some f =>
        let fb := PyFloat.fmax p_min (PyFloat.fmin p_max f) in
        match param_refuses param fb with
        | Some _ => (param, display, false)
        | None =>
            let param' := with_value param fb in
            (param', fst (read_display param' unit (param_value param')), true)
        end
    end
  else (param, display, false).

(** [_set_parameter_with_verify]. *)
Definition _set_parameter_with_verify
  (param : Param) (target_display_value target_unit fallback_value : JSON)
  (max_iterations : Z) (tolerance : Q) : Exc (Param * ApplyResult) :=
  match py_float target_display_value with
  | None => Returns (param, ApplyError MsgDisplayValueMustBeNumeric)
  | Some target =>
      let unit := _normalize_unit_hint target_unit in
      let p_min := PyFloat.or_default (param_min param) 0 in
      let p_max := PyFloat.or_default (param_max param) 1 in
      '(param1, display, exact) <-
        (if param_is_quantized param then
           let '(best_val, _) :=
             verify_scan param unit target p_min (step_count p_min p_max) 0 (p_min, None) in
           param1 <- assign param best_val ;;
           let '(display, final_num) := read_display param1 unit (param_value param1) in
           Returns (param1, display,
                    match final_num with
                    | None => false
                    | Some f => PyFloat.flt (PyFloat.fabs (PyFloat.fsub f target)) (1 # 100)
                    end)
         else
           let st := run_bisect param unit target tolerance max_iterations p_min p_max in
           let best_val := PyFloat.fmax p_min (PyFloat.fmin p_max (bis_best_val st)) in
           param1 <- assign param best_val ;;
           let '(display, final_num) := read_display param1 unit (param_value param1) in
           Returns (param1, display,
                    match final_num with
                    | None => false
                    | Some f =>
                        within_tolerance target tolerance (PyFloat.fabs (PyFloat.fsub f target))
                    end)) ;;
      let '(param2, display2, used_fallback) :=
        verify_fallback param1 unit p_min p_max exact fallback_value display in
      Returns (param2,
               ApplyOk ModeDisplayVerify (param_value param2) (Some display2)
                       (Some (exact && negb used_fallback)%bool))
  end.

End ValueApplication.

(** ** Parameter resolution in [ChainTools] *)

Definition _DEVICE_ALIASES : list (string * string) :=
  [("eq8", "EQ Eight"); ("eq eight", "EQ Eight"); ("eq-8", "EQ Eight");
   ("compressor", "Compressor"); ("glue compressor", "Glue Compressor");
   ("limiter", "Limiter"); ("auto filter", "Auto Filter"); ("utility", "Utility");
   ("reverb", "Reverb"); ("delay", "Delay")].

Definition type_names (band : string) : list string :=
  [band ++ " Filter Type A"; band ++ " Filter Type"; band ++ " Mode A"; band ++ " Mode"].

Definition _EQ8_PARAMETER_ALIASES : list (string * list string) :=
  [("1type", type_names "1"); ("1filtertype", type_names "1"); ("band1type", type_names "1");
   ("8type", type_names "8"); ("8filtertype", type_names "8"); ("band8type", type_names "8");
   ("lowshelfgain", ["1 Gain A"; "1 Gain"]);
   ("lowshelffrequency", ["1 Frequency A"; "1 Frequency"]);
   ("lowshelffreq", ["1 Frequency A"; "1 Frequency"]);
   ("bassfrequency", ["1 Frequency A"; "1 Frequency"]);
   ("bassfreq", ["1 Frequency A"; "1 Frequency"]);
   ("lowshelfq", ["1 Q A"; "1 Q"]);
   ("bassq", ["1 Q A"; "1 Q"]);
   ("highshelfgain", ["8 Gain A"; "8 Gain"]);
   ("highshelffrequency", ["8 Frequency A"; "8 Frequency"]);
   ("highshelffreq", ["8 Frequency A"; "8 Frequency"]);
   ("treblefrequency", ["8 Frequency A"; "8 Frequency"]);
   ("treblefreq", ["8 Frequency A"; "8 Frequency"]);
   ("highshelfq", ["8 Q A"; "8 Q"]);
   ("trebleq", ["8 Q A"; "8 Q"])].

(** [_normalize_name] on a string ([normalize_query] of
    [parameter_resolver.py] is the same function). *)
Definition _normalize_name (text : string) : string :=
  PyStr.join "" (PyStr.TOKEN_RE_findall (PyStr.lower text)).

(** [_is_eq8_device] ([_is_eq_like] of [parameter_resolver.py] is the
    same function). *)
Definition _is_eq8_device (device : Device) : bool :=
  let name := _normalize_name (device_name device) in
  let class := _normalize_name (device_class_name device) in
  (String.eqb name "eqeight" || String.eqb class "eq8" || String.eqb class "eqeight")%bool.

(** The loop of [_match_parameter_by_name] over the parameters from
    position [i]: the position of the parameter returned.  [best] is the
    pair [(best, best_score)]. *)
Fixpoint match_loop (query_norm : string) (query_tokens : list string)
  (params : list Param) (i : nat) (best : option nat * Q) : option nat :=
  match params with
  | [] => fst best
  | param :: rest =>
      let pnorm := _normalize_name (param_name param) in
      if PyStr.is_empty pnorm then match_loop query_norm query_tokens rest (Datatypes.S i) best
      else if String.eqb query_norm pnorm then Some i
      else
        let score0 : Q :=
          if (PyStr.contains query_norm pnorm || PyStr.contains pnorm query_norm)%bool
          then 2%Q else 0%Q in
        let score :=
          PyFloat.fadd score0
            (PyFloat.of_nat (PyStr.overlap_count query_tokens (PyStr.TOKEN_RE_findall pnorm))) in
        if PyFloat.flt (snd best) score
        then match_loop query_norm query_tokens rest (Datatypes.S i) (Some i, score)
        else match_loop query_norm query_tokens rest (Datatypes.S i) best
  end.

(** [_match_parameter_by_name] for a query that is a string. *)
Definition _match_parameter_by_name (parameters : list Param) (query : string) : option nat :=
  let query_norm := _normalize_name query in
  if PyStr.is_empty query_norm then None
  else match_loop query_norm (PyStr.TOKEN_RE_findall query_norm) parameters 0 (None, 0%Q).

(** The loop building [deduped] in [_parameter_query_candidates]. *)
Fixpoint dedupe (candidates seen : list string) : list string :=
  match candidates with
  | [] => []
  | item :: rest =>
      let key0 := _normalize_name item in
      let key := if PyStr.is_empty key0 then PyStr.lower (PyStr.strip item) else key0 in
      if PyStr.mem key seen then dedupe rest seen
      else item :: dedupe rest (key :: seen)
  end.

Section ParameterResolution.
Context {py : PyRuntime}.

(** [_parameter_query_candidates]. *)
Definition _parameter_query_candidates (device : Device) (query : JSON) : list string :=
  if is_none query then []
  else
    let query_text := py_str query in
    let query_norm := _normalize_name query_text in
    let aliases :=
      if _is_eq8_device device then
        match assoc_get _EQ8_PARAMETER_ALIASES query_norm with
        | Some l => l
        | None => []
        end
      else [] in
    dedupe (aliases ++ [query_text])%list [].

(** The loop over the candidates in [_resolve_parameter]. *)
Fixpoint first_match (parameters : list Param) (queries : list string) : option nat :=
  match queries with
  | [] => None
  | query :: rest =>
      match _match_parameter_by_name parameters query with
      | Some i => Some i
      | None => first_match parameters rest
      end
  end.

(** [_resolve_parameter]: the position of the parameter in
    [device.parameters], which stands for the object. *)
Definition _resolve_parameter (device : Device) (update : list (string * JSON)) : option nat :=
  let parameters := device_parameters device in
  match parameters with
  | [] => None
  | _ :: _ =>
      let by_name :=
        first_match parameters (_parameter_query_candidates device (dict_get update "param_name")) in
      let param_index := dict_get update "param_index" in
      if negb (is_none param_index) then
        match py_int param_index with
        | None => None
        | Some idx =>
            if (0 <=? idx) && (idx <? Z.of_nat (List.length parameters))
            then Some (Z.to_nat idx)
            else by_name
        end
      else by_name
  end.

End ParameterResolution.

(** ** [parameter_resolver.py] *)

Module Resolver.

Inductive MatchedBy : Type := Exact | Rule | Alias.

Record ResolutionTrace : Type := mkTrace {
  matched_by : option MatchedBy;
  query : string;
  normalized_query : string;
  candidate_chain : list string;
  resolved_param_name : option string
}.

(** [normalize_query] on a string. *)
Definition normalize_string (text : string) : string :=
  PyStr.join "" (PyStr.TOKEN_RE_findall (PyStr.lower text)).

(** [build_parameter_index]: the dictionary as the list of its entries in
    insertion order; a parameter is its position in [parameters]. *)
Fixpoint index_loop (parameters : list Param) (i : nat) (index : list (string * nat))
  : list (string * nat) :=
  match parameters with
  | [] => index
  | param :: rest =>
      let key := normalize_string (param_name param) in
      if (negb (PyStr.is_empty key) && negb (PyStr.mem key (map fst index)))%bool
      then index_loop rest (Datatypes.S i) (index ++ [(key, i)])%list
      else index_loop rest (Datatypes.S i) index
  end.

Definition build_parameter_index (parameters : list Param) : list (string * nat) :=
  index_loop parameters 0 [].

Definition fields_of_band : list string := ["type"; "frequency"; "freq"; "gain"; "q"].

(** The match of [_EQ_BAND_RE =
    ^(?:band)?([1-8])(?:filter)?(type|frequency|freq|gain|q)$]: the groups
    [(band, field)]. *)
Definition eq_band_match (s : string) : option (string * string) :=
  let s1 := if PyStr.starts_with "band" s then substring 4 (String.length s - 4) s else s in
  match s1 with
  | EmptyString => None
  | String c rest =>
      if PyStr.in_range "1" "8" c then
        let band := String c EmptyString in
        let after_filter :=
          if PyStr.starts_with "filter" rest
          then substring 6 (String.length rest - 6) rest else rest in
        if PyStr.mem after_filter fields_of_band then Some (band, after_filter)
        else if PyStr.mem rest fields_of_band then Some (band, rest)
        else None
      else None
  end.

(** [eq_band_rule_candidates]. *)
Definition eq_band_rule_candidates (normalized_query : string) : list string :=
  if PyStr.is_empty normalized_query then []
  else
    match eq_band_match normalized_query with
    | None => []
    | Some (band, field) =>
        if String.eqb field "type" then
          [band ++ " Filter Type A"; band ++ " Filter Type"; band ++ " Mode A"; band ++ " Mode"]
        else if (String.eqb field "frequency" || String.eqb field "freq")%bool then
          [band ++ " Frequency A"; band ++ " Frequency"]
        else if String.eqb field "gain" then [band ++ " Gain A"; band ++ " Gain"]
        else if String.eqb field "q" then [band ++ " Q A"; band ++ " Q"]
        else []
    end.

(** One of the two loops of [resolve_parameter] over candidate names:
    the first candidate found in the index, with the chain as extended
    until then. *)
Fixpoint try_candidates (index : list (string * nat)) (candidates chain : list string)
  : option nat * list string :=
  match candidates with
  | [] => (None, chain)
  | candidate :: rest =>
      let chain' := (chain ++ [candidate])%list in
      match assoc_get index (normalize_string candidate) with
      | Some i => (Some i, chain')
      | None => try_candidates index rest chain'
      end
  end.

Definition name_at (parameters : list Param) (i : nat) : option string :=
  match nth_error parameters i with
  | Some p => Some (param_name p)
  | None => None
  end.

Section Resolve.
Context {py : PyRuntime}.

(** [resolve_parameter]. *)
Definition resolve_parameter (parameters : list Param) (device : Device) (query : JSON)
  (curated_aliases : list (string * list string)) : option nat * ResolutionTrace :=
  let query_text := str_or_empty query in
  let normalized_query := normalize_string query_text in
  if PyStr.is_empty normalized_query then
    (None, mkTrace None query_text normalized_query [] None)
  else
    let index := build_parameter_index parameters in
    let chain0 := [query_text] in
    match assoc_get index normalized_query with
    | Some i => (Some i, mkTrace (Some Exact) query_text normalized_query chain0
                                 (name_at parameters i))
    | None =>
        let '(by_rule, chain1) :=
          if _is_eq8_device device
          then try_candidates index (eq_band_rule_candidates normalized_query) chain0
          else (None, chain0) in
        match by_rule with
        | Some i => (Some i, mkTrace (Some Rule) query_text normalized_query chain1
                                     (name_at parameters i))
        | None =>
            let aliases :=
              match assoc_get curated_aliases normalized_query with
              | Some l => l
              | None => []
              end in
            match try_candidates index aliases chain1 with
            | (Some i, chain2) =>
                (Some i, mkTrace (Some Alias) query_text normalized_query chain2
                                 (name_at parameters i))
            | (None, chain2) =>
                (None, mkTrace None query_text normalized_query chain2 None)
            end
        end
    end.

End Resolve.

End Resolver.

(** ** Applying the parameter updates of one step *)

(** One entry of [parameters_applied]. *)
Record Applied : Type := mkApplied {
  ap_param_name : string;
  ap_param_value : Q;
  ap_display_value : option string;
  ap_mode : Mode;
  ap_exact_match : option bool
}.

(** The result dictionary of [_apply_parameter_updates]. *)
Inductive UpdatesResult : Type :=
| UpdatesOk (parameters_applied : list Applied) (unmatched_parameters : list string)
            (warnings : list Msg)
| UpdatesError (error : Msg).

(** Whether the text of a message is the empty string, which only the
    text of a host exception can be. *)
Definition msg_is_empty (m : Msg) : bool :=
  match m with
  | MsgException exc => PyStr.is_empty exc
  | _ => false
  end.

(** [str(error or "parameter update failed")]. *)
Definition error_or_default (m : Msg) : Msg :=
  if msg_is_empty m then MsgParameterUpdateFailed else m.

(** What one update adds to the lists of [_apply_parameter_updates]. *)
Inductive UpdateOutcome : Type :=
| OutApplied (entry : Applied)
| OutUnmatched (name : string) (warning : option Msg).

Definition replace_param (device : Device) (i : nat) (param : Param) : Device :=
  mkDevice (device_name device) (device_class_name device) (device_type_name device)
           (list_set (device_parameters device) i param).

Section ParameterUpdates.
Context {py : PyRuntime}.

(** [str(hint or "unknown")]. *)
Definition hint_text (hint : JSON) : string :=
  if truthy hint then py_str hint else "unknown".

(** The hint recorded for an update that resolves to no parameter. *)
Definition unmatched_hint (update : list (string * JSON)) : string :=
  let hint := dict_get update "param_name" in
  let param_index := dict_get update "param_index" in
  if (is_none hint && negb (is_none param_index))%bool
  then hint_text (JStr ("index:" ++ py_str param_index))
  else hint_text hint.

(** The branch on the keys of the update that picks the mode; [None]
    when the update names no value. *)
Definition apply_mode (param : Param) (update : list (string * JSON))
  : option (Exc (Param * ApplyResult)) :=
  if dict_has update "target_display_text" then
    Some (Returns (_set_parameter_by_display_text param
                     (dict_get update "target_display_text")
                     (dict_get update "fallback_value")))
  else if dict_has update "target_display_value" then
    Some (_set_parameter_with_verify param
            (dict_get update "target_display_value")
            (dict_get update "target_unit")
            (dict_get update "fallback_value") 15 (1 # 1000))
  else if dict_has update "value" then
    Some (Returns (_set_parameter_absolute param (dict_get update "value")))
  else None.

(** The body of the loop of [_apply_parameter_updates]. *)
Definition apply_one (device : Device) (update : JSON) : Exc (Device * UpdateOutcome) :=
  match update with
  | JObj fields =>
      match _resolve_parameter device fields with
      | None => Returns (device, OutUnmatched (unmatched_hint fields) None)
      | Some i =>
          match nth_error (device_parameters device) i with
          | None => Returns (device, OutUnmatched (unmatched_hint fields) None)
          | Some target_param =>
              match apply_mode target_param fields with
              | None =>
                  Returns (device, OutUnmatched (hint_text (dict_get fields "param_name")) None)
              | Some run =>
                  '(param', apply_res) <- run ;;
                  let device' := replace_param device i param' in
                  match apply_res with
                  | ApplyError e =>
                      Returns (device',
                               OutUnmatched (param_name param') (Some (error_or_default e)))
                  | ApplyOk mode value display exact =>
                      Returns (device',
                               OutApplied (mkApplied (param_name param') value display mode exact))
                  end
              end
          end
      end
  | _ => Returns (device, OutUnmatched "invalid update payload" None)
  end.

(** The loop of [_apply_parameter_updates]. *)
Fixpoint apply_loop (device : Device) (updates : list JSON)
  (applied : list Applied) (unmatched : list string) (warnings : list Msg)
  : Exc (Device * UpdatesResult) :=
  match updates with
  | [] => Returns (device, UpdatesOk applied unmatched warnings)
  | update :: rest =>
      '(device', outcome) <- apply_one device update ;;
      match outcome with
      | OutApplied entry =>
          apply_loop device' rest (applied ++ [entry])%list unmatched warnings
      | OutUnmatched name warning =>
          apply_loop device' rest applied (unmatched ++ [name])%list
                     (match warning with
                      | Some m => (warnings ++ [m])%list
                      | None => warnings
                      end)
      end
  end.

(** [_apply_parameter_updates]. *)
Definition _apply_parameter_updates (device : Device) (parameter_updates : JSON)
  : Exc (Device * UpdatesResult) :=
  match parameter_updates with
  | JNull => apply_loop device [] [] [] []
  | JArr updates => apply_loop device updates [] [] []
  | _ => Returns (device, UpdatesError MsgUpdatesMustBeArray)
  end.

End ParameterUpdates.

(** ** The device catalog *)

Definition item_name (it : BrowserItem) : string :=
  match it with Item name _ _ _ _ _ => name end.

Definition item_is_loadable (it : BrowserItem) : bool :=
  match it with Item _ loadable _ _ _ _ => loadable end.

(** [id(current)]. *)
Definition item_id (it : BrowserItem) : Z :=
  match it with Item _ _ _ _ _ marker => marker end.

(** The list [children] that [_search_browser_node] gathers from the
    attributes [children] and [items]. *)
Definition item_successors (it : BrowserItem) : list BrowserItem :=
  match it with Item _ _ children items _ _ => (children ++ items)%list end.

Fixpoint item_size (it : BrowserItem) : nat :=
  match it with
  | Item _ _ children items _ _ =>
      Datatypes.S (list_sum (map item_size children) + list_sum (map item_size items))
  end.

(** [marker in visited]. *)
Definition is_visited (m : Z) (visited : list Z) : bool := existsb (Z.eqb m) visited.

(** The loop [while stack] of [_search_browser_node].  The top of the
    stack is the head of the list, [visited] holds the markers of the
    nodes looked at, and a node whose marker is there is skipped with
    what stands below it.  [fuel] bounds the number of nodes popped: a
    node is pushed once, when its parent is looked at, so the size of the
    catalog below the first node is enough. *)
Fixpoint search_stack (fuel : nat) (stack : list BrowserItem) (visited : list Z)
  (normalized_target : string) : option BrowserItem :=
  match fuel with
  | O => None
  | Datatypes.S fuel' =>
      match stack with
      | [] => None
      | current :: rest =>
          let m := item_id current in
          if is_visited m visited then search_stack fuel' rest visited normalized_target
          else
            let name := _normalize_name (item_name current) in
            if (negb (PyStr.is_empty normalized_target)
                && (String.eqb normalized_target name || PyStr.contains normalized_target name)
                && item_is_loadable current)%bool
            then Some current
            else search_stack fuel' (rev (item_successors current) ++ rest)%list
                              (m :: visited) normalized_target
      end
  end.

(** [_search_browser_node]. *)
Definition _search_browser_node (node : BrowserItem) (normalized_target : string)
  : option BrowserItem :=
  search_stack (item_size node) [node] [] normalized_target.

Fixpoint search_roots (roots : list (option BrowserItem)) (normalized_target : string)
  : option BrowserItem :=
  match roots with
  | [] => None
  | None :: rest => search_roots rest normalized_target
  | Some root :: rest =>
      match _search_browser_node root normalized_target with
      | Some found => Some found
      | None => search_roots rest normalized_target
      end
  end.

(** [_find_browser_device]. *)
Definition _find_browser_device (browser : Browser) (device_name : string) : option BrowserItem :=
  search_roots [audio_effects browser; midi_effects browser; instruments browser;
                sounds browser; max_for_live browser]
               (_normalize_name device_name).

(** [_resolve_device_alias]. *)
Definition _resolve_device_alias (device_name : string) : string :=
  let raw := PyStr.strip device_name in
  match assoc_get _DEVICE_ALIASES (PyStr.lower raw) with
  | Some canonical => canonical
  | None => raw
  end.

(** ** Inserting and positioning a device *)

(** A device object the host lists but does not hold: every [getattr]
    gives its default. *)
Definition blank_device : Device := mkDevice "" "" "" [].

(** The dictionary [_insert_device] returns on success. *)
Record Inserted : Type := mkInserted {
  ins_device : DeviceId;
  ins_device_index : Z;
  ins_position_applied : bool;
  ins_position_message : option Msg
}.

Section Insertion.
Context {S : Type} {host : Host S} {py : PyRuntime}.

Definition device_of (w : World S) (d : DeviceId) : Device :=
  match get_device w d with Some dev => dev | None => blank_device end.

(** The list [matches] of [_find_anchor_device_index]. *)
Definition anchor_matches (w : World S) (devices : list DeviceId) (target : string) : list nat :=
  flat_map (fun it =>
              let candidate := _normalize_name (device_name (device_of w (snd it))) in
              if (negb (PyStr.is_empty target)
                  && (String.eqb target candidate || PyStr.contains target candidate
                      || PyStr.contains candidate target))%bool
              then [fst it] else [])
           (enumerate devices).

(** [_find_anchor_device_index]. *)
Definition _find_anchor_device_index (w : World S) (devices : list DeviceId)
  (anchor_name occurrence : JSON) : option nat :=
  if negb (truthy anchor_name) then None
  else
    let target := _normalize_name (str_or_empty anchor_name) in
    match anchor_matches w devices target with
    | [] => None
    | (first :: _) as matches =>
        if negb (is_none occurrence) then
          match py_int occurrence with
          | Some pick =>
              if (0 <=? pick) && (pick <? Z.of_nat (List.length matches))
              then Some (nth (Z.to_nat pick) matches first)
              else Some first
          | None => Some first
          end
        else Some first
    end.

(** [max(0, min(desired, len(devices) - 1))]. *)
Definition clamp_slot (desired : Z) (count : nat) : Z :=
  Z.max 0 (Z.min desired (Z.of_nat count - 1)).

(** The end of [_apply_device_position], once the desired slot is
    known. *)
Definition move_to (w : World S) (track : TrackId) (device : DeviceId)
  (current_index desired : Z) (msg : option Msg) : World S * (Z * bool * option Msg) :=
  if desired =? current_index then (w, (current_index, false, msg))
  else
    match move_device device track desired w with
    | (w', None) => (w', (desired, true, msg))
    | (w', Some exc) => (w', (current_index, false, Some (MsgPositioningFailed exc)))
    end.

(** [_apply_device_position]: the world it leaves and the triple
    [(final_index, applied, message)]. *)
Definition _apply_device_position (w : World S) (track : TrackId) (device : DeviceId)
  (current_index : Z) (position insert_index : JSON) : World S * (Z * bool * option Msg) :=
  let devices := devices_of_track w track in
  match devices with
  | [] => (w, (current_index, false, Some MsgNoDevicesOnTrack))
  | _ :: _ =>
      if negb (is_none insert_index) then
        match py_int insert_index with
        | None => (w, (current_index, false, Some MsgInvalidInsertIndex))
        | Some desired =>
            move_to w track device current_index
                    (clamp_slot desired (List.length devices))
                    (Some (MsgInsertIndex insert_index))
        end
      else
        match position with
        | JObj fields =>
            let placement := PyStr.lower (str_or_empty (dict_get fields "placement")) in
            let anchor_name := dict_get fields "relative_device_name" in
            let anchor_occurrence := dict_get fields "relative_device_index" in
            match _find_anchor_device_index w devices anchor_name anchor_occurrence with
            | None => (w, (current_index, false, Some MsgAnchorNotFound))
            | Some anchor =>
                let desired :=
                  if String.eqb placement "before" then Z.of_nat anchor
                  else Z.of_nat anchor + 1 in
                move_to w track device current_index
                        (clamp_slot desired (List.length devices))
                        (Some (MsgPlacement placement anchor_name))
            end
        | _ => move_to w track device current_index current_index None
        end
  end.

(** The loop [for _ in range(20)] of [_insert_device], with [n] polls
    left. *)
Fixpoint poll (n : nat) (track : TrackId) (previous_count : nat) (w : World S) : World S :=
  match n with
  | O => w
  | Datatypes.S n' =>
      if (previous_count <? List.length (devices_of_track w track))%nat then w
      else poll n' track previous_count (sleep w)
  end.

(** [_insert_device]: the world it leaves, and the dictionary or the
    error of the pair it returns. *)
Definition _insert_device (w : World S) (track : TrackId) (step : list (string * JSON))
  : World S * (Inserted + Msg) :=
  match live_browser w with
  | None => (w, inr MsgBrowserUnavailable)
  | Some browser =>
      let requested_name := str_or_empty (dict_get step "device_name") in
      let canonical_name := _resolve_device_alias requested_name in
      match _find_browser_device browser canonical_name with
      | None => (w, inr (MsgDeviceNotFound canonical_name))
      | Some browser_item =>
          let previous_count := List.length (devices_of_track w track) in
          match load_item browser_item (select_track w track) with
          | (w1, Some exc) => (w1, inr (MsgException exc))
          | (w1, None) =>
              let w2 := poll 20 track previous_count w1 in
              let devices := devices_of_track w2 track in
              if (List.length devices <=? previous_count)%nat
              then (w2, inr MsgDeviceLoadTimedOut)
              else
                let device := last devices 0%nat in
                let current_index := Z.of_nat (List.length devices) - 1 in
                if (truthy (dict_get step "position")
                    || negb (is_none (dict_get step "insert_index")))%bool
                then
                  let '(w3, (final_index, applied, message)) :=
                    _apply_device_position w2 track device current_index
                      (dict_get step "position") (dict_get step "insert_index") in
                  (w3, inl (mkInserted device final_index applied message))
                else (w2, inl (mkInserted device current_index false None))
          end
      end
  end.

End Insertion.

(** ** The chain orchestrator *)

(** [_track_payload]. *)
Record TrackPayload : Type := mkTrackPayload {
  tp_track_index : Z;
  tp_track_name : string
}.

(** One entry of [steps_executed]. *)
Record DeviceResult : Type := mkDeviceResult {
  dr_step_index : nat;
  dr_device_name : string;
  dr_device_class : string;
  dr_device_index : Z;
  dr_position_applied : bool;
  dr_position_message : option Msg;
  dr_parameters_applied : list Applied;
  dr_unmatched_parameters : list string
}.

(** The payload of [build_device_chain].  An error raised inside the
    loop carries [target_track] and [steps_executed]. *)
Inductive BuildResult : Type :=
| BuildOk (target_track : TrackPayload) (steps_executed : list DeviceResult)
          (warnings : list Msg)
| BuildError (error : Msg) (partial : option (TrackPayload * list DeviceResult)).

Definition build_ok (r : BuildResult) : bool :=
  match r with BuildOk _ _ _ => true | BuildError _ _ => false end.

(** [_device_class_name]. *)
Definition _device_class_name (device : Device) : string :=
  if PyStr.is_empty (device_class_name device) then device_type_name device
  else device_class_name device.

Section Orchestrator.
Context {S : Type} {host : Host S} {py : PyRuntime}.

Definition _track_payload (w : World S) (track : TrackId) (track_index : Z) : TrackPayload :=
  mkTrackPayload track_index (name_of_track w track).

(** The body of the loop of [build_device_chain] for the step at
    [idx]: the world it leaves, and either the entry it appends to
    [results] with the warnings it adds, or the message of the error the
    call returns. *)
Definition run_step (w : World S) (track : TrackId) (idx : nat) (step : JSON)
  : Exc (World S * (DeviceResult * list Msg + Msg)) :=
  match step with
  | JObj fields =>
      let requested := PyStr.strip (str_or_empty (dict_get fields "device_name")) in
      if PyStr.is_empty requested then Returns (w, inr (MsgStepMissingDeviceName idx))
      else
        match _insert_device w track fields with
        | (w1, inr insert_error) =>
            if msg_is_empty insert_error
            then Raises "KeyError: 'device'"
            else Returns (w1, inr (MsgStepFailed idx insert_error))
        | (w1, inl inserted) =>
            let device := device_of w1 (ins_device inserted) in
            '(device', apply_result) <-
              _apply_parameter_updates device (dict_get fields "parameter_updates") ;;
            let w2 := put_device w1 (ins_device inserted) device' in
            match apply_result with
            | UpdatesError e => Returns (w2, inr (MsgStepFailed idx (error_or_default e)))
            | UpdatesOk applied unmatched warnings =>
                Returns (w2,
                         inl (mkDeviceResult idx (device_name device)
                                (_device_class_name device)
                                (ins_device_index inserted)
                                (ins_position_applied inserted)
                                (ins_position_message inserted)
                                applied unmatched,
                              warnings))
            end
        end
  | _ => Returns (w, inr (MsgStepMustBeObject idx))
  end.

(** The loop [for idx, step in enumerate(steps)] of
    [build_device_chain], from the step at [idx]. *)
Fixpoint run_steps (w : World S) (track : TrackId) (track_index : Z)
  (steps : list JSON) (idx : nat) (results : list DeviceResult) (warnings : list Msg)
  : Exc (World S * BuildResult) :=
  match steps with
  | [] => Returns (w, BuildOk (_track_payload w track track_index) results warnings)
  | step :: rest =>
      '(w', outcome) <- run_step w track idx step ;;
      match outcome with
      | inr error =>
          Returns (w', BuildError error (Some (_track_payload w' track track_index, results)))
      | inl (device_result, step_warnings) =>
          run_steps w' track track_index rest (Datatypes.S idx)
                    (results ++ [device_result])%list (warnings ++ step_warnings)%list
      end
  end.

(** [build_device_chain]. *)
Definition build_device_chain (w : World S) (steps target : JSON) : Exc (World S * BuildResult) :=
  match steps with
  | JArr ((_ :: _) as items) =>
      match _resolve_track_target w target with
      | inr resolve_error => Returns (w, BuildError resolve_error None)
      | inl (track, track_index) => run_steps w track track_index items 0 [] []
      end
  | _ => Returns (w, BuildError MsgStepsMustBeArray None)
  end.

End Orchestrator.

(** ** Test doubles

    An in-memory host in the manner of the repository's tests
    ([tests/test_chain_tools.py]): a browser of three loadable devices,
    [load_item] appending the device to the selected track at once, and
    [move_device] reordering the track's list. *)

Module Fixture.

Definition digit_char (d : Z) : ascii := ascii_of_nat (48 + Z.to_nat d).

(** The last [k] decimal digits of [n], zero-padded. *)
Fixpoint fixed_digits (k : nat) (n : Z) : string :=
  match k with
  | O => EmptyString
  | Datatypes.S k' => fixed_digits k' (n / 10) ++ String (digit_char (n mod 10)) EmptyString
  end.

Fixpoint decimal_digits (fuel : nat) (n : Z) (acc : string) : string :=
  match fuel with
  | O => acc
  | Datatypes.S fuel' =>
      let acc' := String (digit_char (n mod 10)) acc in
      if n / 10 =? 0 then acc' else decimal_digits fuel' (n / 10) acc'
  end.

(** [str(z)] of an [int]. *)
Definition str_of_int (z : Z) : string :=
  let a := Z.abs z in
  ((if (z <? 0)%Z then "-" else "")
   ++ decimal_digits (Datatypes.S (Z.to_nat (Z.log2 a))) a "")%string.

(** The decimal digits of [num / den] after the point, at most [k] of
    them, without trailing zeros. *)
Fixpoint fraction_digits (k : nat) (num den : Z) : string :=
  match k with
  | O => EmptyString
  | Datatypes.S k' =>
      let d := (num * 10) / den in
      let r := (num * 10) mod den in
      String (digit_char d) (if r =? 0 then EmptyString else fraction_digits k' r den)
  end.

(** [str(x)] of a float, as Python prints one between [1e-4] and [1e16]
    that has at most 15 significant digits: the integer part, the point
    and the digits after it (["8000.0"], ["0.25"]).  Digits after the
    17th are cut. *)
Definition str_of_float (q : Q) : string :=
  let n := Qnum (Qred q) in
  let d := Zpos (Qden (Qred q)) in
  let a := Z.abs n in
  ((if (n <? 0)%Z then "-" else "")
   ++ str_of_int (a / d)%Z ++ "."
   ++ (if (a mod d =? 0)%Z then "0" else fraction_digits 17 (a mod d)%Z d))%string.

(** [repr(x)] of a payload; a string is quoted without escapes. *)
Fixpoint repr (x : JSON) : string :=
  match x with
  | JNull => "None"
  | JBool true => "True"
  | JBool false => "False"
  | JInt z => str_of_int z
  | JFloat q => str_of_float q
  | JStr s => "'" ++ s ++ "'"
  | JArr items => "[" ++ PyStr.join ", " (map repr items) ++ "]"
  | JObj fields =>
      "{" ++ PyStr.join ", " (map (fun kv => let '(k, v) := kv in "'" ++ k ++ "': " ++ repr v)
                                 fields) ++ "}"
  end.

(** A runtime whose conversions read and print plain decimal numbers. *)
Definition runtime : PyRuntime := {|
  py_repr := fun x => match x with JStr s => s | _ => repr x end;
  py_int_of_str := fun s =>
    match read_digits 0 0 s with
    | (v, Datatypes.S _, EmptyString) => Some v
    | _ => None
    end;
  py_float_of_str := fun s => match_number s;
  py_str_of_float := str_of_float
|}.

Definition accepts_all : Q -> option string := fun _ => None.

(** A quantized parameter whose steps show the labels of [labels]. *)
Definition label_param (name : string) (labels : list string) : Param :=
  mkParam name 0 (inject_Z (Z.of_nat (List.length labels) - 1)) 0 true
          (fun v => Some (nth (Z.to_nat (Qfloor (v + (1 # 2)))) labels "Unknown"))
          accepts_all.

(** A continuous parameter on [[0, 1]] showing [floor(scale * v)] with
    the unit after it. *)
Definition linear_param (name : string) (scale : Z) (unit : string) : Param :=
  mkParam name 0 1 0 false
          (fun v => Some (fixed_digits 8 (Qfloor (inject_Z scale * v)) ++ " " ++ unit))
          accepts_all.

Definition eq_eight : Device :=
  mkDevice "EQ Eight" "AudioEffectGroupDevice" "_Device"
    [linear_param "1 Frequency A" 20000 "Hz";
     linear_param "1 Gain A" 60 "dB";
     label_param "1 Filter Type A" ["Notch"; "Bell"; "Low Shelf"; "High Shelf"];
     linear_param "8 Frequency A" 20000 "Hz";
     linear_param "8 Gain A" 60 "dB"].

Definition limiter : Device :=
  mkDevice "Limiter" "AudioEffectGroupDevice" "_Device"
    [linear_param "Ceiling" 60 "dB"; linear_param "Gain" 60 "dB"].

Definition auto_filter : Device :=
  mkDevice "Auto Filter" "AudioEffectGroupDevice" "_Device"
    [label_param "Filter Type" ["Low Pass"; "High Pass"; "Band Pass"];
     linear_param "Frequency" 20000 "Hz"].

(** The device a browser item loads, by its handle; the item with
    handle 3 never materialises. *)
Definition template (handle : nat) : option Device :=
  match handle with
  | 0%nat => Some eq_eight
  | 1%nat => Some limiter
  | 2%nat => Some auto_filter
  | _ => None
  end.

Definition catalog : Browser :=
  mkBrowser
    (Some (Item "" true
             [Item "EQ Eight" true [] [] 0 101; Item "Limiter" true [] [] 1 102;
              Item "Auto Filter" true [] [] 2 103; Item "Ghost Device" true [] [] 3 104]
             [] 99 100))
    (Some (Item "" true [] [] 99 200)) (Some (Item "" true [] [] 99 300))
    (Some (Item "" true [] [] 99 400)) (Some (Item "" true [] [] 99 500)).

Definition add_to_track (w : World unit) (t : TrackId) (dev : Device) : World unit :=
  match get_track w t with
  | None => w
  | Some tr =>
      let d := List.length (device_objects w) in
      mkWorld (list_set (track_objects w) t
                 (mkTrack (track_name tr) (track_devices tr ++ [d])%list))
              (device_objects w ++ [dev])%list
              (song_tracks w) (selected_track w) (live_browser w) tt
  end.

Definition fake_load_item (item : BrowserItem) (w : World unit) : World unit * option string :=
  match item with
  | Item _ _ _ _ handle _ =>
      match template handle, selected_track w with
      | Some dev, Some t => (add_to_track w t dev, None)
      | _, _ => (w, None)
      end
  end.

Fixpoint insert_at (l : list nat) (i : nat) (x : nat) : list nat :=
  match i, l with
  | O, _ => x :: l
  | Datatypes.S j, [] => [x]
  | Datatypes.S j, y :: r => y :: insert_at r j x
  end.

Definition fake_move_device (device : DeviceId) (track : TrackId) (index : Z) (w : World unit)
  : World unit * option string :=
  match get_track w track with
  | None => (w, Some "no such track")
  | Some tr =>
      if existsb (Nat.eqb device) (track_devices tr) then
        let others := filter (fun d => negb (Nat.eqb d device)) (track_devices tr) in
        (mkWorld (list_set (track_objects w) track
                    (mkTrack (track_name tr) (insert_at others (Z.to_nat index) device)))
                 (device_objects w) (song_tracks w) (selected_track w) (live_browser w) tt,
         None)
      else (w, Some "list.remove(x): x not in list")
  end.

Definition fake_host : Host unit := {|
  load_item := fake_load_item;
  sleep := fun w => w;
  move_device := fake_move_device
|}.

(** A song of one empty track, "Bass", which is selected. *)
Definition one_track : World unit :=
  mkWorld [mkTrack "Bass" []] [] [0%nat] (Some 0%nat) (Some catalog) tt.

(** A song with two tracks named "Bass" and one named "Drums". *)
Definition three_tracks : World unit :=
  mkWorld [mkTrack "Bass" []; mkTrack "Bass" []; mkTrack "Drums" []] []
          [0%nat; 1%nat; 2%nat] (Some 0%nat) (Some catalog) tt.

End Fixture.

(** ** Vocabulary of the properties *)


(** A parameter of which only the name matters. *)
Definition named (name : string) : Param :=
  mkParam name 0 1 0 false (fun _ => None) Fixture.accepts_all.

(** The key under which [_resolve_track_by_name] compares names exactly:
    stripped of surrounding whitespace and lower-cased. *)
Definition name_key (name : string) : string := PyStr.lower (PyStr.strip name).

(** The fuzzy score of a track for a query. *)
Definition track_score {S : Type} (w : World S) (query : string) (t : TrackId) : Q :=
  _score_track_name_match (PyStr.join "" (_normalize_track_tokens (name_key query)))
                          (name_of_track w t).






(** A song whose two track names differ by a space inside the name. *)
Definition spaced_bass_tracks : World unit :=
  mkWorld [mkTrack "Bass Line" []; mkTrack "Bass  Line" []] []
          [0%nat; 1%nat] (Some 0%nat) (Some Fixture.catalog) tt.

(** A song whose tracks "Bass Line" and "Bass Drum" both contain
    "bass". *)
Definition two_bass_tracks : World unit :=
  mkWorld [mkTrack "Bass Line" []; mkTrack "Bass Drum" []; mkTrack "Keys" []] []
          [0%nat; 1%nat; 2%nat] (Some 0%nat) (Some Fixture.catalog) tt.


(** A song whose only track holds an EQ Eight and a Limiter. *)
Definition two_devices : World unit :=
  mkWorld [mkTrack "Bass" [0%nat; 1%nat]] [Fixture.eq_eight; Fixture.limiter]
          [0%nat] (Some 0%nat) (Some Fixture.catalog) tt.

(** The field read off a returned payload, when the call returned one. *)
Definition steps_of {S : Type} (r : Exc (World S * BuildResult)) : list DeviceResult :=
  match r with
  | Returns (_, BuildOk _ steps _) => steps
  | Returns (_, BuildError _ (Some (_, steps))) => steps
  | _ => []
  end.

(** The structural failures of a step that the specification lists, for a
    step run on [track] in the world [w]. *)
Inductive structural_failure {S : Type} {host : Host S} {py : PyRuntime}
  (w : World S) (track : TrackId) : JSON -> Prop :=
| step_not_an_object (step : JSON) :
    (forall fields, step <> JObj fields) ->
    structural_failure w track step
| step_missing_device_name (fields : list (string * JSON)) :
    PyStr.strip (str_or_empty (dict_get fields "device_name")) = EmptyString ->
    structural_failure w track (JObj fields)
| step_device_not_found (fields : list (string * JSON)) (browser : Browser) :
    PyStr.strip (str_or_empty (dict_get fields "device_name")) <> EmptyString ->
    live_browser w = Some browser ->
    _find_browser_device browser
      (_resolve_device_alias (str_or_empty (dict_get fields "device_name"))) = None ->
    structural_failure w track (JObj fields)
| step_device_load_timeout (fields : list (string * JSON)) (browser : Browser)
    (item : BrowserItem) (w1 : World S) :
    PyStr.strip (str_or_empty (dict_get fields "device_name")) <> EmptyString ->
    live_browser w = Some browser ->
    _find_browser_device browser
      (_resolve_device_alias (str_or_empty (dict_get fields "device_name"))) = Some item ->
    load_item item (select_track w track) = (w1, None) ->
    (List.length (devices_of_track
                    (poll 20 track (List.length (devices_of_track w track)) w1) track)
     <= List.length (devices_of_track w track))%nat ->
    structural_failure w track (JObj fields)
| step_updates_not_an_array (fields : list (string * JSON)) (w1 : World S)
    (inserted : Inserted) :
    PyStr.strip (str_or_empty (dict_get fields "device_name")) <> EmptyString ->
    _insert_device w track fields = (w1, inl inserted) ->
    dict_get fields "parameter_updates" <> JNull ->
    (forall updates, dict_get fields "parameter_updates" <> JArr updates) ->
    structural_failure w track (JObj fields).

(** What a returned payload holds; a default stands where the call
    raised or the payload has no such field. *)
Definition world_of {S : Type} (w : World S) (r : Exc (World S * BuildResult)) : World S :=
  match r with
  | Returns (w', _) => w'
  | Raises _ => w
  end.

Definition warnings_of {S : Type} (r : Exc (World S * BuildResult)) : list Msg :=
  match r with
  | Returns (_, BuildOk _ _ warnings) => warnings
  | _ => []
  end.

Definition payload_of {S : Type} (r : Exc (World S * BuildResult)) : TrackPayload :=
  match r with
  | Returns (_, BuildOk tp _ _) => tp
  | Returns (_, BuildError _ (Some (tp, _))) => tp
  | _ => mkTrackPayload (-1) ""
  end.

Definition error_of {S : Type} (r : Exc (World S * BuildResult)) : option Msg :=
  match r with
  | Returns (_, BuildError error _) => Some error
  | _ => None
  end.

Definition returned_ok {S : Type} (r : Exc (World S * BuildResult)) : bool :=
  match r with
  | Returns (_, BuildOk _ _ _) => true
  | _ => false
  end.

Definition step_error_of {S : Type}
  (r : Exc (World S * (DeviceResult * list Msg + Msg))) : option Msg :=
  match r with
  | Returns (_, inr error) => Some error
  | _ => None
  end.

(** Three steps: an EQ Eight with one parameter update, a device that
    never materialises, and a Limiter. *)
Definition failing_chain : list JSON :=
  [JObj [("device_name", JStr "eq8");
         ("parameter_updates",
          JArr [JObj [("param_name", JStr "1 Gain A"); ("value", JFloat (1 # 4))]])];
   JObj [("device_name", JStr "Ghost Device")];
   JObj [("device_name", JStr "Limiter")]].

(** The run of the first step of [failing_chain] on the one-track song. *)
Definition first_step_run : Exc (World unit * BuildResult) :=
  @run_steps unit Fixture.fake_host Fixture.runtime Fixture.one_track 0%nat 0
     [nth 0 failing_chain JNull] 0 [] [].

(** A Limiter step with one update that applies and one that names no
    parameter. *)
Definition limiter_step : list (string * JSON) :=
  [("device_name", JStr "Limiter");
   ("parameter_updates",
    JArr [JObj [("param_name", JStr "Gain"); ("value", JFloat (2 # 5))];
          JObj [("param_name", JStr "DoesNotExist"); ("value", JFloat (1 # 5))]])].

(** The bounds between which the scans and the bisection move:
    [float(param.min or 0.0)] and [float(param.max or 1.0)]. *)
Definition scan_low (param : Param) : Q := PyFloat.or_default (param_min param) 0.
Definition scan_high (param : Param) : Q := PyFloat.or_default (param_max param) 1.

(** The score of the step [i] of a quantized parameter against a
    normalized target text. *)
Definition step_score {py : PyRuntime} (param : Param) (target_norm : string) (i : nat) : Q :=
  fst (_score_display_text_match target_norm
         (normalize_display_string
            (_safe_str_for_value param (PyFloat.fadd (scan_low param) (PyFloat.of_nat i))))).

(** A value clamped as [_set_parameter_absolute] clamps it. *)
Definition clamp_to_range (param : Param) (v : Q) : Q :=
  PyFloat.fmin (param_max param) (PyFloat.fmax (param_min param) v).

(** The filter-type parameter of the Auto Filter double. *)
Definition filter_type : Param :=
  Fixture.label_param "Filter Type" ["Low Pass"; "High Pass"; "Band Pass"].

(** The backing value that [_set_parameter_with_verify] writes after its
    search: the best step of the scan of a quantized parameter, the best
    midpoint of the bisection, clamped, of a continuous one. *)
Definition best_found {py : PyRuntime} (param : Param) (unit_hint : option string)
  (target tolerance : Q) (max_iterations : Z) : Q :=
  if param_is_quantized param then
    fst (verify_scan param unit_hint target (scan_low param)
           (step_count (scan_low param) (scan_high param)) 0 (scan_low param, None))
  else
    PyFloat.fmax (scan_low param)
      (PyFloat.fmin (scan_high param)
         (bis_best_val (run_bisect param unit_hint target tolerance max_iterations
                          (scan_low param) (scan_high param)))).

(** A frequency parameter whose host refuses every assignment. *)
Definition locked_param : Param :=
  mkParam "Frequency" 0 1 0 false
          (fun v => Some (Fixture.fixed_digits 8 (Qfloor (20000 * v)) ++ " Hz"))
          (fun _ => Some "Parameter is disabled").

(** A device whose one parameter is the locked one. *)
Definition locked_device : Device :=
  mkDevice "Auto Filter" "AutoFilter" "_Device" [locked_param].

(** The text of the exception that left a call, if one did. *)
Definition raised {A : Type} (r : Exc A) : option string :=
  match r with
  | Returns _ => None
  | Raises exc => Some exc
  end.

(** What a call of a [_set_parameter_*] function returned. *)
Definition result_of (r : Exc (Param * ApplyResult)) : option ApplyResult :=
  match r with
  | Returns (_, result) => Some result
  | Raises _ => None
  end.

(** The number that [read_display] reads off the display of [param] at
    the backing value [v], converted for the unit hint. *)
Definition display_number {py : PyRuntime} (param : Param) (unit_hint : option string)
  (v : Q) : option Q :=
  snd (read_display param unit_hint v).

(** What [_set_parameter_with_verify] computes as [exact] once it wrote
    [v]: the number displayed at [v] is closer to the target than 0.01
    for a quantized parameter; for a continuous one it is within the
    relative tolerance, or closer than 0.01 to a target of zero. *)
Definition found_exact {py : PyRuntime} (param : Param) (unit_hint : option string)
  (target tolerance v : Q) : bool :=
  match display_number param unit_hint v with
  | None => false
  | Some f =>
      if param_is_quantized param
      then PyFloat.flt (PyFloat.fabs (PyFloat.fsub f target)) (1 # 100)
      else within_tolerance target tolerance (PyFloat.fabs (PyFloat.fsub f target))
  end.

(** The target lies between the numbers displayed at the two ends of the
    interval, on the side the direction of the bisection expects. *)
Definition brackets (f : Q -> Q) (target : Q) (ascending : bool) (low high : Q) : Prop :=
  if ascending then (f low <= target /\ target <= f high)%Q
  else (f high <= target /\ target <= f low)%Q.

(** The numbers displayed at [x] and [y] lie on either side of the
    target. *)
Definition separates (f : Q -> Q) (target x y : Q) : Prop :=
  ((f x <= target)%Q /\ (target <= f y)%Q) \/ ((f y <= target)%Q /\ (target <= f x)%Q).

(** The best midpoint lies strictly inside the range, and the best
    distance is the distance of its display from the target. *)
Definition best_is_consistent (f : Q -> Q) (target lo hi : Q) (st : Bisect) : Prop :=
  (lo < bis_best_val st /\ bis_best_val st < hi)%Q
  /\ match bis_best_diff st with
     | None => True
     | Some d => (d == Qabs (f (bis_best_val st) - target))%Q
     end.

(** A backing value that a binary float can hold: its denominator is a
    power of two. *)
Definition dyadic (v : Q) : Prop := Zpos (Qden v) = 2 ^ Z.log2 (Zpos (Qden v)).

(** A steep frequency display: [16777216 * v], printed exactly, with as
    many decimals as the denominator of [v] has factors two. *)
Definition steep_display (v : Q) : string :=
  let n := 16777216 * Qnum v in
  let d := Zpos (Qden v) in
  let j := Z.to_nat (Z.log2 d) in
  Fixture.fixed_digits 8 (n / d) ++ "." ++ Fixture.fixed_digits j ((n mod d) * 5 ^ Z.of_nat j).

Definition steep_param : Param :=
  mkParam "Frequency" 0 1 0 false (fun v => Some (steep_display v)) Fixture.accepts_all.

(** The characters of [s] that are in the class, in order. *)
Fixpoint keep (cls : ascii -> bool) (s : string) : string :=
  match s with
  | EmptyString => EmptyString
  | String c s' => if cls c then String c (keep cls s') else keep cls s'
  end.

(** Every character of the text is in the class. *)
Definition all_chars (cls : ascii -> bool) (s : string) : Prop :=
  forall c, In c (list_ascii_of_string s) -> cls c = true.

(** The test under which [_match_parameter_by_name] gives a parameter a
    positive score: its normalized name equals the normalized query,
    one contains the other, or they share a token. *)
Definition shares_text (query_norm pnorm : string) : bool :=
  (String.eqb query_norm pnorm
   || PyStr.contains query_norm pnorm || PyStr.contains pnorm query_norm
   || (0 <? PyStr.overlap_count (PyStr.TOKEN_RE_findall query_norm)
                                (PyStr.TOKEN_RE_findall pnorm))%nat)%bool.

(** The value a parameter holds after a call of a [_set_parameter_*]
    function that returned. *)
Definition value_after (r : Exc (Param * ApplyResult)) : option Q :=
  match r with
  | Returns (param, _) => Some (param_value param)
  | Raises _ => None
  end.

(** The test [_search_browser_node] makes on a node: the target is not
    empty, it is, or is contained in, the node's normalized name, and the
    node is loadable. *)
Definition answers_to (normalized_target : string) (it : BrowserItem) : bool :=
  (negb (PyStr.is_empty normalized_target)
   && (String.eqb normalized_target (_normalize_name (item_name it))
       || PyStr.contains normalized_target (_normalize_name (item_name it)))
   && item_is_loadable it)%bool.

(** [x] is [node] or stands below it in the catalog. *)
Inductive occurs (x : BrowserItem) : BrowserItem -> Prop :=
| occurs_here : occurs x x
| occurs_below (node child : BrowserItem) :
    In child (item_successors node) -> occurs x child -> occurs x node.

(** The nodes of the catalog from [it] down, [it] first. *)
Fixpoint nodes_of (it : BrowserItem) : list BrowserItem :=
  match it with
  | Item _ _ children items _ _ =>
      it :: (flat_map nodes_of children ++ flat_map nodes_of items)%list
  end.

Fixpoint all_distinct (l : list Z) : bool :=
  match l with
  | [] => true
  | x :: r => (negb (is_visited x r) && all_distinct r)%bool
  end.

(** No two nodes from [root] down have the same marker: [id()] tells
    them apart, as it does when the host keeps the objects of the nodes
    alive during the search. *)
Definition distinct_markers (root : BrowserItem) : bool :=
  all_distinct (map item_id (nodes_of root)).

(** A catalog in which the object of the second child got the address of
    another one. *)
Definition reused_marker_catalog : BrowserItem :=
  Item "" false
       [Item "Compressor" true [] [] 1 7; Item "Limiter" true [] [] 2 7] [] 0 5.

(** The five roots of a browser, in the order they are searched. *)
Definition browser_roots (browser : Browser) : list (option BrowserItem) :=
  [audio_effects browser; midi_effects browser; instruments browser;
   sounds browser; max_for_live browser].

(** [p'] is [p] but for the value it holds. *)
Definition same_but_value (p p' : Param) : Prop := p' = with_value p (param_value p').

(** [d'] is [d] with, at most, other values in its parameters. *)
Definition same_but_values (d d' : Device) : Prop :=
  device_name d' = device_name d
  /\ device_class_name d' = device_class_name d
  /\ device_type_name d' = device_type_name d
  /\ Forall2 same_but_value (device_parameters d) (device_parameters d').

(** ** Updating the devices of a track *)

(** The errors of [_resolve_existing_device]. *)
Inductive SelectorMsg : Type :=
| SelNoDevicesOnTrack              (* No devices on track *)
| SelBothSelectors                 (* device_name and device_index cannot be used together *)
| SelMissingSelector               (* missing device selector *)
| SelInvalidDeviceIndex            (* invalid device_index *)
| SelInvalidDeviceName             (* invalid device_name *)
| SelDeviceNotFound (name : JSON)  (* device '{}' not found *)
| SelInvalidDeviceOccurrence.      (* invalid device_occurrence *)

Section ExistingDevices.
Context {S : Type} {py : PyRuntime}.

(** The list [matches] of [_resolve_existing_device]. *)
Definition existing_matches (w : World S) (devices : list DeviceId) (query : string)
  : list (nat * DeviceId) :=
  filter (fun it =>
            let candidate := _normalize_name (device_name (device_of w (snd it))) in
            (String.eqb query candidate || PyStr.contains query candidate
             || PyStr.contains candidate query)%bool)
         (enumerate devices).

(** [_resolve_existing_device]: the device and its index, or the
    error. *)
Definition _resolve_existing_device (w : World S) (track : TrackId)
  (item : list (string * JSON)) : (DeviceId * nat) + SelectorMsg :=
  let devices := devices_of_track w track in
  match devices with
  | [] => inr SelNoDevicesOnTrack
  | _ :: _ =>
      let has_name := negb (is_none (dict_get item "device_name")) in
      let has_index := negb (is_none (dict_get item "device_index")) in
      if (has_name && has_index)%bool then inr SelBothSelectors
      else if (negb has_name && negb has_index)%bool then inr SelMissingSelector
      else if has_index then
        match py_int (dict_get item "device_index") with
        | None => inr SelInvalidDeviceIndex
        | Some idx =>
            if (idx <? 0) || (idx >=? Z.of_nat (List.length devices))
            then inr SelInvalidDeviceIndex
            else
              match nth_error devices (Z.to_nat idx) with
              | Some d => inl (d, Z.to_nat idx)
              | None => inr SelInvalidDeviceIndex
              end
        end
      else
        let query := _normalize_name (str_or_empty (dict_get item "device_name")) in
        if PyStr.is_empty query then inr SelInvalidDeviceName
        else
          match existing_matches w devices query with
          | [] => inr (SelDeviceNotFound (dict_get item "device_name"))
          | (first :: _) as matches =>
              let occurrence_raw :=
                if dict_has item "device_occurrence"
                then dict_get item "device_occurrence" else JInt 0 in
              match py_int occurrence_raw with
              | None => inr SelInvalidDeviceOccurrence
              | Some occurrence =>
                  if (occurrence <? 0) || (occurrence >=? Z.of_nat (List.length matches))
                  then inr SelInvalidDeviceOccurrence
                  else
                    let '(index, device) := nth (Z.to_nat occurrence) matches first in
                    inl (device, index)
              end
          end
  end.

End ExistingDevices.

(** One entry of [updates_executed]. *)
Record UpdateResult : Type := mkUpdateResult {
  ur_update_index : nat;
  ur_device_name : string;
  ur_device_class : string;
  ur_device_index : Z;
  ur_parameters_applied : list Applied;
  ur_unmatched_parameters : list string
}.

(** The errors of [update_device_parameters]. *)
Inductive UpdateError : Type :=
| UpdUpdatesMustBeArray                            (* updates must be a non-empty array *)
| UpdTarget (why : Msg)                            (* the error of the target resolver *)
| UpdMustBeObject (idx : nat)                      (* update {} must be an object *)
| UpdSelectorFailed (idx : nat) (why : SelectorMsg)  (* update {} failed: {} *)
| UpdApplyFailed (idx : nat) (why : Msg).          (* update {} failed: {} *)

(** The payload of [update_device_parameters].  An error raised inside
    the loop carries [target_track] and [updates_executed]. *)
Inductive UpdatePayload : Type :=
| UpdateDone (target_track : TrackPayload) (updates_executed : list UpdateResult)
             (warnings : list Msg)
| UpdateFailed (error : UpdateError) (partial : option (TrackPayload * list UpdateResult)).

Section DeviceUpdates.
Context {S : Type} {py : PyRuntime}.

(** The body of the loop of [update_device_parameters] for the update at
    [idx]. *)
Definition run_update (w : World S) (track : TrackId) (idx : nat) (item : JSON)
  : Exc (World S * (UpdateResult * list Msg + UpdateError)) :=
  match item with
  | JObj fields =>
      match _resolve_existing_device w track fields with
      | inr device_error => Returns (w, inr (UpdSelectorFailed idx device_error))
      | inl (d, device_index) =>
          let device := device_of w d in
          '(device', apply_result) <-
            _apply_parameter_updates device (dict_get fields "parameter_updates") ;;
          let w1 := put_device w d device' in
          match apply_result with
          | UpdatesError e => Returns (w1, inr (UpdApplyFailed idx (error_or_default e)))
          | UpdatesOk applied unmatched warnings =>
              Returns (w1,
                       inl (mkUpdateResult idx (device_name device)
                              (_device_class_name device) (Z.of_nat device_index)
                              applied unmatched,
                            warnings))
          end
      end
  | _ => Returns (w, inr (UpdMustBeObject idx))
  end.

(** The loop [for idx, item in enumerate(updates)] of
    [update_device_parameters], from the update at [idx]. *)
Fixpoint run_updates (w : World S) (track : TrackId) (track_index : Z)
  (updates : list JSON) (idx : nat) (results : list UpdateResult) (warnings : list Msg)
  : Exc (World S * UpdatePayload) :=
  match updates with
  | [] => Returns (w, UpdateDone (mkTrackPayload track_index (name_of_track w track))
                                 results warnings)
  | item :: rest =>
      '(w', outcome) <- run_update w track idx item ;;
      match outcome with
      | inr error =>
          Returns (w', UpdateFailed error
                         (Some (mkTrackPayload track_index (name_of_track w' track), results)))
      | inl (item_result, item_warnings) =>
          run_updates w' track track_index rest (Datatypes.S idx)
                      (results ++ [item_result])%list (warnings ++ item_warnings)%list
      end
  end.

(** [update_device_parameters]. *)
Definition update_device_parameters (w : World S) (updates target : JSON)
  : Exc (World S * UpdatePayload) :=
  match updates with
  | JArr ((_ :: _) as items) =>
      match _resolve_track_target w target with
      | inr resolve_error => Returns (w, UpdateFailed (UpdTarget resolve_error) None)
      | inl (track, track_index) => run_updates w track track_index items 0 [] []
      end
  | _ => Returns (w, UpdateFailed UpdUpdatesMustBeArray None)
  end.

End DeviceUpdates.

(** ** Inspecting a chain *)

(** [_parameter_payload]; [pp_value] holds the fields [value] and
    [display], which are there with [include_value]. *)
Record ParameterPayload : Type := mkParameterPayload {
  pp_index : nat;
  pp_name : string;
  pp_min : option Q;
  pp_max : option Q;
  pp_default : option Q;
  pp_is_quantized : bool;
  pp_value : option (Q * string)
}.

(** One entry of [devices] in the payload of [inspect_track_chain];
    [id_parameters] is there with [include_parameters]. *)
Record InspectedDevice : Type := mkInspectedDevice {
  id_device_index : nat;
  id_device_name : string;
  id_device_class : string;
  id_parameters : option (list ParameterPayload)
}.

Section Inspection.
Context {S : Type} {py : PyRuntime}.
(** [getattr(param, "default_value", None)] through [_safe_float]: an
    attribute of the host's parameter that the engine reads nowhere
    else. *)
Variable default_value : Param -> option Q.

Definition _parameter_payload (param : Param) (index : nat) (include_value : bool)
  : ParameterPayload :=
  mkParameterPayload index (param_name param)
    (Some (param_min param)) (Some (param_max param)) (default_value param)
    (param_is_quantized param)
    (if include_value
     then Some (param_value param, _safe_str_for_value param (param_value param))
     else None).

(** [inspect_track_chain]: the fields [target_track] and [devices] of
    the payload, or the error. *)
Definition inspect_track_chain (w : World S) (target include_parameters : JSON)
  : (TrackPayload * list InspectedDevice) + Msg :=
  match _resolve_track_target w target with
  | inr resolve_error => inr resolve_error
  | inl (track, track_index) =>
      inl (mkTrackPayload track_index (name_of_track w track),
           map (fun it =>
                  let device := device_of w (snd it) in
                  mkInspectedDevice (fst it) (device_name device) (_device_class_name device)
                    (if truthy include_parameters
                     then Some (map (fun pit => _parameter_payload (snd pit) (fst pit) true)
                                    (enumerate (device_parameters device)))
                     else None))
               (enumerate (devices_of_track w track)))
  end.

End Inspection.

(** [w'] is [w] with, at most, other values in the parameters of its
    devices: the same tracks with the same device lists, the same
    selection and browser. *)
Definition same_chain {S : Type} (w w' : World S) : Prop :=
  track_objects w' = track_objects w
  /\ song_tracks w' = song_tracks w
  /\ selected_track w' = selected_track w
  /\ live_browser w' = live_browser w
  /\ host_private w' = host_private w
  /\ Forall2 same_but_values (device_objects w) (device_objects w').

(** The results executed that a returned payload of
    [update_device_parameters] holds. *)
Definition updates_of {S : Type} (r : Exc (World S * UpdatePayload)) : list UpdateResult :=
  match r with
  | Returns (_, UpdateDone _ results _) => results
  | Returns (_, UpdateFailed _ (Some (_, results))) => results
  | _ => []
  end.

(** The update at which a payload of [update_device_parameters] says it
    failed. *)
Definition failed_update (e : UpdateError) : option nat :=
  match e with
  | UpdMustBeObject idx | UpdSelectorFailed idx _ | UpdApplyFailed idx _ => Some idx
  | UpdUpdatesMustBeArray | UpdTarget _ => None
  end.

(** One update of the Limiter of [two_devices], selected by name, with a
    parameter that applies and one that names nothing. *)
Definition limiter_update : list JSON :=
  [JObj [("device_name", JStr "limiter");
         ("parameter_updates",
          JArr [JObj [("param_name", JStr "Gain"); ("value", JFloat (2 # 5))];
                JObj [("param_name", JStr "DoesNotExist"); ("value", JFloat (1 # 5))]])]].

(** The call of [update_device_parameters] with [limiter_update] on the
    selected track of [two_devices], the world it leaves and the payload
    it returns. *)
Definition limiter_update_run : Exc (World unit * UpdatePayload) :=
  @update_device_parameters unit Fixture.runtime two_devices (JArr limiter_update) JNull.

Definition world_after_update : World unit :=
  match limiter_update_run with
  | Returns (w', _) => w'
  | Raises _ => two_devices
  end.

Definition payload_after_update : UpdatePayload :=
  match limiter_update_run with
  | Returns (_, payload) => payload
  | Raises _ => UpdateFailed UpdUpdatesMustBeArray None
  end.

(** The step at which a message of [build_device_chain] says it
    failed. *)
Definition failed_step (e : Msg) : option nat :=
  match e with
  | MsgStepMustBeObject idx | MsgStepMissingDeviceName idx | MsgStepFailed idx _ => Some idx
  | _ => None
  end.

(** ** Validating and normalizing at the gateway

    [validate_payload] of [Gateway_Remote/action_validation.py] and
    [GatewayRemote._normalize_action_response] of
    [Gateway_Remote/__init__.py], through which every call of an action
    of [ChainTools] passes. *)

(** The fields of an [ActionSpec] that describe the contract ([handler]
    is the action itself). *)
Record ActionSpec : Type := mkActionSpec {
  spec_name : string;
  spec_required : list string;
  spec_optional : list string;
  spec_route : string;
  spec_destructive : bool;
  spec_allow_extra : bool
}.

(** The errors of [validate_payload], all with the code
    [ERR_INVALID_PARAMS]. *)
Inductive ValidationError : Type :=
| PayloadNotObject                         (* Action payload must be a JSON object *)
| MissingRequired (missing : list string)  (* Missing required fields: {} *)
| UnexpectedFields (extras : list string). (* Unexpected fields: {} *)

Fixpoint insert_sorted (x : string) (l : list string) : list string :=
  match l with
  | [] => [x]
  | y :: r => if String.leb x y then x :: l else y :: insert_sorted x r
  end.

(** [sorted(l)] on strings. *)
Fixpoint sorted (l : list string) : list string :=
  match l with
  | [] => []
  | x :: r => insert_sorted x (sorted r)
  end.

(** The keys of a dictionary, each once. *)
Definition dict_keys (fields : list (string * JSON)) : list string :=
  nodup string_dec (map fst fields).

(** [validate_payload]: [None], or the error. *)
Definition validate_payload (spec : ActionSpec) (payload : JSON) : option ValidationError :=
  match payload with
  | JObj fields =>
      match sorted (filter (fun k => negb (dict_has fields k)) (spec_required spec)) with
      | (_ :: _) as missing => Some (MissingRequired missing)
      | [] =>
          if negb (spec_allow_extra spec) then
            let allowed := (spec_required spec ++ spec_optional spec ++ ["action"])%list in
            match sorted (filter (fun k => negb (PyStr.mem k allowed)) (dict_keys fields)) with
            | (_ :: _) as extras => Some (UnexpectedFields extras)
            | [] => None
            end
          else None
      end
  | _ => Some PayloadNotObject
  end.

(** [d[key] = v]: the entry is replaced where it stands, or added at the
    end. *)
Fixpoint dict_set (fields : list (string * JSON)) (key : string) (v : JSON)
  : list (string * JSON) :=
  match fields with
  | [] => [(key, v)]
  | (k, x) :: rest =>
      if String.eqb k key then (k, v) :: rest else (k, x) :: dict_set rest key v
  end.

Definition ERROR_EXECUTION_FAILED : string := "ERR_EXECUTION_FAILED".

(** [_normalize_action_response]: the dictionary returned. *)
Definition _normalize_action_response (action : string) (response : JSON)
  : list (string * JSON) :=
  let normalized :=
    match response with
    | JObj fields => fields
    | _ => [("ok", JBool true); ("result", response)]
    end in
  let normalized :=
    if dict_has normalized "ok" then normalized else dict_set normalized "ok" (JBool true) in
  match dict_get normalized "ok" with
  | JBool false =>
      let normalized :=
        if negb (truthy (dict_get normalized "error")) then
          dict_set normalized "error"
            (if dict_has normalized "message" then dict_get normalized "message"
             else JStr ("Action '" ++ action ++ "' failed"))
        else normalized in
      if dict_has normalized "error_code" then normalized
      else dict_set normalized "error_code" (JStr ERROR_EXECUTION_FAILED)
  | _ => normalized
  end.

(** A quantized compressor ratio with four steps. *)
Definition ratio_param : Param :=
  Fixture.label_param "Ratio" ["1 : 1"; "2 : 1"; "4 : 1"; "8 : 1"].

(* ================================================================== *)
(** * Part II: properties                                              *)
(* ================================================================== *)

(** ** Tokens *)









Lemma normalize_track_tokens_cases (text : string) :
  (filter (fun t => negb (PyStr.mem t track_stop_words)) (PyStr.TOKEN_RE_findall (PyStr.lower text)) = []
   /\ _normalize_track_tokens text = PyStr.TOKEN_RE_findall (PyStr.lower text))
  \/ (filter (fun t => negb (PyStr.mem t track_stop_words)) (PyStr.TOKEN_RE_findall (PyStr.lower text)) <> []
      /\ _normalize_track_tokens text =
         filter (fun t => negb (PyStr.mem t track_stop_words)) (PyStr.TOKEN_RE_findall (PyStr.lower text))).
Proof.
  unfold _normalize_track_tokens.
  destruct (filter _ _) eqn:E; [left | right]; split; auto; discriminate.
Qed.





(** ** Display numbers and units *)

(** C1.  With the unit hint "hz" the conversion returns the parsed
    number as it is, whatever the display says: for the display
    "8.00 kHz" it yields 8.0, which is not the 8000.0 that the claim and
    the test [test_convert_display_number_for_unit_khz_to_hz] expect. *)
Theorem convert_hz_hint_never_scales :
  (forall (n : Q) (display : option string),
     _convert_display_number_for_unit (Some n) display (Some "hz") = Some n)
  /\ _parse_display_number (Some "8.00 kHz") = Some 8%Q
  /\ (forall py : PyRuntime, @_normalize_unit_hint py (JStr "hz") = Some "hz")
  /\ _convert_display_number_for_unit (Some 8%Q) (Some "8.00 kHz") (Some "hz") = Some 8%Q
  /\ ~ (8 == 8000)%Q.
Proof.
  repeat split; try reflexivity. discriminate.
Qed.


(** ** Parameter resolution *)

Section ExactFirst.
Context {py : PyRuntime}.

Lemma assoc_get_app_l {A} (l1 l2 : list (string * A)) k v :
  assoc_get l1 k = Some v -> assoc_get (l1 ++ l2) k = Some v.
Proof.
  induction l1 as [|[k' v'] l1 IH]; simpl; [discriminate|].
  destruct (String.eqb k' k); auto.
Qed.

Lemma assoc_get_app_r {A} (l1 l2 : list (string * A)) k :
  PyStr.mem k (map fst l1) = false -> assoc_get (l1 ++ l2) k = assoc_get l2 k.
Proof.
  induction l1 as [|[k' v'] l1 IH]; simpl; [reflexivity|].
  intros H. apply orb_false_iff in H. destruct H as [H1 H2].
  rewrite String.eqb_sym in H1. rewrite H1. auto.
Qed.

Lemma mem_assoc_get {A} (l : list (string * A)) k :
  PyStr.mem k (map fst l) = true -> exists v, assoc_get l k = Some v.
Proof.
  induction l as [|[k' v'] l IH]; simpl; [discriminate|].
  intros H. apply orb_true_iff in H. rewrite (String.eqb_sym k k') in H.
  destruct (String.eqb k' k); [eauto|]. destruct H; [discriminate | auto].
Qed.

(** The entry of the built index at a non-empty key is the first
    parameter, from position [i] on, whose normalized name is the key,
    unless the index held the key before. *)
Lemma index_loop_first (key : string) (params : list Param) :
  key <> EmptyString ->
  forall (i : nat) (index : list (string * nat)) (k : nat) (p : Param),
    PyStr.mem key (map fst index) = false ->
    nth_error params k = Some p ->
    Resolver.normalize_string (param_name p) = key ->
    (forall j q, (j < k)%nat -> nth_error params j = Some q ->
                 Resolver.normalize_string (param_name q) <> key) ->
    assoc_get (Resolver.index_loop params i index) key = Some (i + k)%nat.
Proof.
  intros Hkey. induction params as [|a params IH]; intros i index k p Hfresh Hk Hp Hfirst.
  - destruct k; discriminate.
  - simpl. destruct k as [|k].
    + simpl in Hk. injection Hk as ->. rewrite Hp.
      assert (E : PyStr.is_empty key = false) by (destruct key; [congruence | reflexivity]).
      rewrite E, Hfresh. simpl.
      assert (Hin : assoc_get (index ++ [(key, i)]) key = Some i).
      { rewrite assoc_get_app_r by assumption. simpl. now rewrite String.eqb_refl. }
      clear - Hin. rewrite Nat.add_0_r.
      generalize dependent (index ++ [(key, i)])%list. generalize (Datatypes.S i).
      induction params as [|b params IH]; intros n idx Hin; simpl; [assumption|].
      destruct (_ && _)%bool; [|now apply IH]. apply IH. now apply assoc_get_app_l.
    + simpl in Hk.
      assert (Hne : Resolver.normalize_string (param_name a) <> key).
      { apply (Hfirst 0%nat a); [lia | reflexivity]. }
      replace (i + Datatypes.S k)%nat with (Datatypes.S i + k)%nat by lia.
      destruct (_ && _)%bool eqn:E.
      * apply IH with (p := p); auto.
        -- rewrite map_app. unfold PyStr.mem in *. rewrite existsb_app, Hfresh. simpl.
           rewrite orb_false_r. apply String.eqb_neq. congruence.
        -- intros j q Hj Hq. apply (Hfirst (Datatypes.S j) q); [lia | exact Hq].
      * apply IH with (p := p); auto.
        intros j q Hj Hq. apply (Hfirst (Datatypes.S j) q); [lia | exact Hq].
Qed.

Lemma first_occurrence (key : string) (params : list Param) :
  (exists p, In p params /\ Resolver.normalize_string (param_name p) = key) ->
  exists k p, nth_error params k = Some p
    /\ Resolver.normalize_string (param_name p) = key
    /\ (forall j q, (j < k)%nat -> nth_error params j = Some q ->
                    Resolver.normalize_string (param_name q) <> key).
Proof.
  induction params as [|a params IH]; intros [p [Hin Hp]]; [destruct Hin|].
  destruct (string_dec (Resolver.normalize_string (param_name a)) key) as [E | E].
  - exists 0%nat, a. repeat split; auto. intros j q Hj. lia.
  - destruct IH as [k [p' [Hk [Hp' Hfirst]]]].
    { destruct Hin as [-> | Hin]; [congruence | eauto]. }
    exists (Datatypes.S k), p'. repeat split; auto.
    intros [|j] q Hj Hq; simpl in Hq.
    + injection Hq as <-. exact E.
    + apply (Hfirst j q); [lia | exact Hq].
Qed.

(** C2, as amended.  In [resolve_parameter], when the normalized query
    is not empty and some parameter has it as its normalized name, the
    first such parameter is returned, matched by [exact], whatever the
    device and the alias table are. *)
Theorem exact_beats_alias (parameters : list Param) (device : Device) (query : JSON)
  (curated_aliases : list (string * list string)) :
  Resolver.normalize_string (str_or_empty query) <> EmptyString ->
  (exists p, In p parameters
     /\ Resolver.normalize_string (param_name p) = Resolver.normalize_string (str_or_empty query)) ->
  exists i p,
    fst (Resolver.resolve_parameter parameters device query curated_aliases) = Some i
    /\ nth_error parameters i = Some p
    /\ Resolver.normalize_string (param_name p) = Resolver.normalize_string (str_or_empty query)
    /\ (forall j q, (j < i)%nat -> nth_error parameters j = Some q ->
          Resolver.normalize_string (param_name q) <> Resolver.normalize_string (str_or_empty query))
    /\ Resolver.matched_by (snd (Resolver.resolve_parameter parameters device query curated_aliases))
       = Some Resolver.Exact
    /\ Resolver.resolved_param_name
         (snd (Resolver.resolve_parameter parameters device query curated_aliases))
       = Some (param_name p).
Proof.
  intros Hne Hex.
  destruct (first_occurrence _ _ Hex) as [k [p [Hk [Hp Hfirst]]]].
  exists k, p.
  pose proof (index_loop_first _ parameters Hne 0%nat [] k p eq_refl Hk Hp Hfirst) as Hidx.
  simpl in Hidx. unfold Resolver.resolve_parameter.
  destruct (Resolver.normalize_string (str_or_empty query)) eqn:E; [congruence|].
  cbn [PyStr.is_empty]. unfold Resolver.build_parameter_index. rewrite Hidx. cbn [fst snd
    Resolver.matched_by Resolver.resolved_param_name]. unfold Resolver.name_at. rewrite Hk.
  repeat split; auto.
Qed.
End ExactFirst.

Lemma exact_beats_alias_witness :
  fst (@Resolver.resolve_parameter Fixture.runtime [named "1 Gain A"; named "8 Gain A"]
         Fixture.eq_eight (JStr "1 Gain A")
         [("1 gain a", ["8 Gain A"]); ("1gaina", ["8 Gain A"])]) = Some 0%nat.
Proof.
  destruct (@exact_beats_alias Fixture.runtime [named "1 Gain A"; named "8 Gain A"]
              Fixture.eq_eight (JStr "1 Gain A")
              [("1 gain a", ["8 Gain A"]); ("1gaina", ["8 Gain A"])])
    as [i [p [H _]]].
  - vm_compute. discriminate.
  - exists (named "1 Gain A"). split; [left; reflexivity | reflexivity].
  - rewrite H. vm_compute in H. symmetry. exact H.
Defined.

(** C2, as stated, fails twice.  [resolve_parameter] returns nothing for
    a query whose normalized form is empty, although a parameter has the
    same (empty) normalized name.  And [ChainTools._resolve_parameter]
    tries the aliases of an EQ Eight before the query itself: asked for
    "Low Shelf Gain", which is the name of the first parameter, it
    returns the alias target "1 Gain A". *)
Lemma alias_or_nothing_beats_exact :
  (Resolver.normalize_string (param_name (named "--")) = Resolver.normalize_string "--"
   /\ fst (@Resolver.resolve_parameter Fixture.runtime [named "--"] Fixture.limiter (JStr "--") [])
      = None)
  /\ (_normalize_name (param_name (named "Low Shelf Gain")) = _normalize_name "Low Shelf Gain"
      /\ @_resolve_parameter Fixture.runtime
           (mkDevice "EQ Eight" "Eq8" "_Device" [named "Low Shelf Gain"; named "1 Gain A"])
           [("param_name", JStr "Low Shelf Gain")] = Some 1%nat).
Proof. repeat split. Qed.

(** ** Floats *)

Lemma flt_true (a b : Q) : PyFloat.flt a b = true <-> (a < b)%Q.
Proof.
  unfold PyFloat.flt. rewrite negb_true_iff. split.
  - intros H. apply Qnot_le_lt. intros Hle. apply Qle_bool_iff in Hle. congruence.
  - intros H. destruct (Qle_bool b a) eqn:E; [|reflexivity].
    apply Qle_bool_iff in E. exfalso. now apply (Qlt_not_le a b).
Qed.

Lemma flt_false (a b : Q) : PyFloat.flt a b = false <-> (b <= a)%Q.
Proof.
  unfold PyFloat.flt. rewrite negb_false_iff. apply Qle_bool_iff.
Qed.

Lemma feq_true (a b : Q) : PyFloat.feq a b = true <-> (a == b)%Q.
Proof. apply Qeq_bool_iff. Qed.

Lemma fsub_eq (a b : Q) : (PyFloat.fsub a b == a - b)%Q.
Proof. apply Qred_correct. Qed.

Lemma fadd_eq (a b : Q) : (PyFloat.fadd a b == a + b)%Q.
Proof. apply Qred_correct. Qed.

Lemma fdiv_eq (a b : Q) : (PyFloat.fdiv a b == a / b)%Q.
Proof. apply Qred_correct. Qed.

Lemma fmul_eq (a b : Q) : (PyFloat.fmul a b == a * b)%Q.
Proof. apply Qred_correct. Qed.

Lemma fabs_eq (a : Q) : (PyFloat.fabs a == Qabs a)%Q.
Proof. apply Qred_correct. Qed.

(** ** Sorting the scored candidates *)

Definition score_of (x : Scored) : Q := fst (fst x).
Definition index_in (x : Scored) : nat := snd (fst x).

Lemma scored_le_score (a b : Scored) : scored_le a b = true -> (score_of b <= score_of a)%Q.
Proof.
  destruct a as [[sa ia] ta], b as [[sb ib] tb]. unfold scored_le, score_of. simpl.
  intros H. apply orb_true_iff in H. destruct H as [H | H].
  - apply flt_true in H. now apply Qlt_le_weak.
  - apply andb_true_iff in H. destruct H as [H _]. apply feq_true in H. rewrite H. apply Qle_refl.
Qed.

Lemma scored_le_total (a b : Scored) : scored_le a b = false -> scored_le b a = true.
Proof.
  destruct a as [[sa ia] ta], b as [[sb ib] tb]. unfold scored_le.
  intros H. apply orb_false_iff in H. destruct H as [H1 H2]. apply flt_false in H1.
  apply orb_true_iff. destruct (PyFloat.flt sa sb) eqn:E; [now left | right].
  apply flt_false in E. assert (Heq : (sa == sb)%Q) by now apply Qle_antisym.
  apply andb_false_iff in H2. destruct H2 as [H2 | H2].
  - apply feq_true in Heq. congruence.
  - apply andb_true_iff. split.
    + apply feq_true. now symmetry.
    + apply Nat.leb_gt in H2. apply Nat.leb_le. lia.
Qed.

Lemma insert_scored_perm (x : Scored) (l : list Scored) : Permutation (insert_scored x l) (x :: l).
Proof.
  induction l as [|y l IH]; simpl; [reflexivity|].
  destruct (scored_le x y); [reflexivity|].
  rewrite IH. apply perm_swap.
Qed.

Lemma sort_scored_perm (l : list Scored) : Permutation (sort_scored l) l.
Proof.
  induction l as [|x l IH]; simpl; [reflexivity|].
  rewrite insert_scored_perm. now constructor.
Qed.

(** A list whose scores do not increase. *)
Inductive descending : list Scored -> Prop :=
| desc_nil : descending []
| desc_cons x l :
    Forall (fun y => (score_of y <= score_of x)%Q) l -> descending l -> descending (x :: l).

Lemma insert_scored_descending (x : Scored) (l : list Scored) :
  descending l -> descending (insert_scored x l).
Proof.
  induction 1 as [|y l Hy Hl IH]; simpl.
  - constructor; constructor.
  - destruct (scored_le x y) eqn:E.
    + apply scored_le_score in E. constructor; [|now constructor].
      constructor; [exact E|]. eapply Forall_impl; [|exact Hy].
      intros z Hz. simpl in Hz. now apply Qle_trans with (score_of y).
    + apply scored_le_total, scored_le_score in E. constructor; [|exact IH].
      eapply Permutation_Forall; [symmetry; apply insert_scored_perm|].
      constructor; assumption.
Qed.

Lemma sort_scored_descending (l : list Scored) : descending (sort_scored l).
Proof.
  induction l as [|x l IH]; simpl; [constructor | now apply insert_scored_descending].
Qed.

(** ** Track resolution *)

Lemma in_enumerate_from {A : Type} (l : list A) (i k : nat) (x : A) :
  In (k, x) (enumerate_from i l) <-> (i <= k)%nat /\ nth_error l (k - i) = Some x.
Proof.
  revert i. induction l as [|a l IH]; intros i; simpl.
  - split; [easy|]. intros [_ H]. destruct (k - i)%nat; discriminate.
  - rewrite IH. split.
    + intros [H | [H1 H2]].
      * injection H as <- <-. rewrite Nat.sub_diag. split; [lia | reflexivity].
      * split; [lia|]. replace (k - i)%nat with (Datatypes.S (k - Datatypes.S i)) by lia. exact H2.
    + intros [H1 H2]. destruct (k - i)%nat as [|n] eqn:E.
      * left. injection H2 as <-. f_equal. lia.
      * right. split; [lia|]. replace (k - Datatypes.S i)%nat with n by lia. exact H2.
Qed.

Lemma in_enumerate {A : Type} (l : list A) (k : nat) (x : A) :
  In (k, x) (enumerate l) <-> nth_error l k = Some x.
Proof.
  unfold enumerate. rewrite in_enumerate_from, Nat.sub_0_r. split; [now intros [_ H] | split; [lia | assumption]].
Qed.

Section TrackProperties.
Context {S : Type} {py : PyRuntime}.

Lemma in_scored_candidates (w : World S) (qn : string) (s : Q) (k : nat) (t : TrackId) :
  In (s, k, t) (scored_candidates w qn) <->
  nth_error (song_tracks w) k = Some t
  /\ s = _score_track_name_match qn (name_of_track w t)
  /\ PyFloat.flt 0 s = true.
Proof.
  unfold scored_candidates. rewrite in_flat_map. split.
  - intros [[k' t'] [Hin H]]. simpl in H. apply in_enumerate in Hin.
    destruct (PyFloat.flt 0 _) eqn:E; [|destruct H].
    destruct H as [H | []]. injection H as <- <- <-. auto.
  - intros [Hk [-> Hpos]]. exists (k, t). split; [now apply in_enumerate|].
    simpl. rewrite Hpos. now left.
Qed.

(** When the best score and the score of another candidate differ by
    less than 0.25, so do the first two scores of the sorted list. *)
Lemma close_scores_are_ambiguous (w : World S) (qn : string) (i j : nat) (ti tj : TrackId) :
  i <> j ->
  nth_error (song_tracks w) i = Some ti ->
  nth_error (song_tracks w) j = Some tj ->
  (0 < _score_track_name_match qn (name_of_track w tj))%Q ->
  (forall k tk, nth_error (song_tracks w) k = Some tk ->
     (_score_track_name_match qn (name_of_track w tk)
      <= _score_track_name_match qn (name_of_track w ti))%Q) ->
  (_score_track_name_match qn (name_of_track w ti)
   - _score_track_name_match qn (name_of_track w tj) < 1 # 4)%Q ->
  exists x0 x1 rest,
    sort_scored (scored_candidates w qn) = x0 :: x1 :: rest
    /\ PyFloat.flt (PyFloat.fabs (PyFloat.fsub (score_of x0) (score_of x1))) (1 # 4) = true.
Proof.
  intros Hij Hi Hj Hpos Hmax Hclose.
  set (sc := fun t => _score_track_name_match qn (name_of_track w t)) in *.
  assert (HposI : (0 < sc ti)%Q) by (eapply Qlt_le_trans; [exact Hpos | now apply (Hmax j)]).
  assert (HA : In (sc ti, i, ti) (sort_scored (scored_candidates w qn))).
  { apply (Permutation_in _ (Permutation_sym (sort_scored_perm _))).
    apply in_scored_candidates. repeat split; auto. now apply flt_true. }
  assert (HB : In (sc tj, j, tj) (sort_scored (scored_candidates w qn))).
  { apply (Permutation_in _ (Permutation_sym (sort_scored_perm _))).
    apply in_scored_candidates. repeat split; auto. now apply flt_true. }
  assert (Hall : forall x, In x (sort_scored (scored_candidates w qn)) -> (score_of x <= sc ti)%Q).
  { intros [[s k] t] Hx. apply (Permutation_in _ (sort_scored_perm _)) in Hx.
    apply in_scored_candidates in Hx. destruct Hx as [Hk [-> _]]. now apply (Hmax k). }
  pose proof (sort_scored_descending (scored_candidates w qn)) as Hd.
  destruct (sort_scored (scored_candidates w qn)) as [|x0 [|x1 rest]].
  - destruct HA.
  - destruct HA as [HA | []]. destruct HB as [HB | []]. congruence.
  - exists x0, x1, rest. split; [reflexivity|].
    inversion Hd as [|? ? H0 Hd']; subst. inversion Hd' as [|? ? H1 _]; subst.
    inversion H0 as [|? ? H01 H0r]; subst.
    assert (Hs0 : (score_of x0 <= sc ti)%Q) by (apply Hall; now left).
    assert (Hs1 : (sc tj <= score_of x1)%Q).
    { destruct HB as [HB | [HB | HB]].
      - destruct HA as [HA | [HA | HA]].
        + congruence.
        + subst x1. unfold score_of at 1. simpl. now apply (Hmax j).
        + apply Qle_trans with (sc ti); [now apply (Hmax j)|].
          rewrite Forall_forall in H1. now apply (H1 _ HA).
      - subst x1. apply Qle_refl.
      - rewrite Forall_forall in H1. now apply (H1 _ HB). }
    apply flt_true. rewrite fabs_eq, fsub_eq.
    rewrite Qabs_pos.
    + apply Qle_lt_trans with (sc ti - sc tj)%Q; [|exact Hclose].
      unfold Qminus. apply Qplus_le_compat; [exact Hs0|]. now apply Qopp_le_compat.
    + unfold Qminus. rewrite <- (Qplus_opp_r (score_of x1)).
      apply Qplus_le_compat; [exact H01 | apply Qle_refl].
Qed.

End TrackProperties.

Section AmbiguityGuards.
Context {S : Type} {py : PyRuntime}.

(** C5, as amended.  Resolution by name fails when two or more tracks
    have the query's key (stripped of the whitespace around it and
    lower-cased) as theirs; with no such track, it fails when the best
    fuzzy score and the positive score of another track differ by less
    than 0.25.  Whenever resolution by name fails, for these reasons or
    because no track matches, the target resolver reports "Track not
    found".  Resolution by an in-bounds [track_index] succeeds on every
    track list. *)
Theorem ambiguous_track_names_fail (w : World S) (q : string) :
  ((2 <= List.length (exact_matches w (name_key q)))%nat -> _resolve_track_by_name w q = None)
  /\ (exact_matches w (name_key q) = [] ->
      forall (i j : nat) (ti tj : TrackId),
        i <> j ->
        nth_error (song_tracks w) i = Some ti ->
        nth_error (song_tracks w) j = Some tj ->
        (0 < track_score w q tj)%Q ->
        (forall k tk, nth_error (song_tracks w) k = Some tk ->
                      (track_score w q tk <= track_score w q ti)%Q) ->
        (track_score w q ti - track_score w q tj < 1 # 4)%Q ->
        _resolve_track_by_name w q = None)
  /\ (forall fields : list (string * JSON),
        dict_get fields "track_index" = JNull ->
        dict_get fields "track_name" = JStr q ->
        q <> EmptyString ->
        _resolve_track_by_name w q = None ->
        _resolve_track_target w (JObj fields) = inr MsgTrackNotFound)
  /\ (forall (fields : list (string * JSON)) (idx : Z) (t : TrackId),
        is_none (dict_get fields "track_index") = false ->
        py_int (dict_get fields "track_index") = Some idx ->
        (0 <= idx)%Z ->
        nth_error (song_tracks w) (Z.to_nat idx) = Some t ->
        _resolve_track_target w (JObj fields) = inl (t, idx)).
Proof.
  split; [|split; [|split]].
  - intros H. unfold _resolve_track_by_name. fold (name_key q).
    destruct (PyStr.is_empty (name_key q)); [reflexivity|].
    destruct (exact_matches w (name_key q)) as [|[i1 t1] [|x2 l]]; simpl in H; try lia.
    reflexivity.
  - intros Hex i j ti tj Hij Hi Hj Hpos Hmax Hclose.
    unfold _resolve_track_by_name. fold (name_key q).
    destruct (PyStr.is_empty (name_key q)); [reflexivity|]. rewrite Hex.
    destruct (close_scores_are_ambiguous w _ i j ti tj Hij Hi Hj Hpos Hmax Hclose)
      as [[[s0 i0] t0] [[[s1 i1] t1] [rest [-> Hflt]]]].
    unfold score_of in Hflt. simpl in Hflt. now rewrite Hflt.
  - intros fields Hidx Hname Hq Hnone. unfold _resolve_track_target.
    assert (Hf : truthy (JObj fields) = true).
    { destruct fields; [discriminate Hname | reflexivity]. }
    rewrite Hf, Hidx, Hname.
    assert (Ht : truthy (JStr q) = true) by (destruct q; [congruence | reflexivity]).
    rewrite Ht. cbn [is_none negb andb]. rewrite andb_false_r. cbn [py_str].
    now rewrite Hnone.
  - intros fields idx t Hnn Hint Hpos Hnth. unfold _resolve_track_target.
    assert (Hf : truthy (JObj fields) = true).
    { destruct fields; [discriminate Hnn | reflexivity]. }
    rewrite Hf, Hnn, Hint. cbn [negb]. rewrite andb_false_r. cbn [andb].
    assert (Hlt : (Z.to_nat idx < List.length (song_tracks w))%nat).
    { apply nth_error_Some. congruence. }
    assert (E1 : (idx <? 0)%Z = false) by (apply Z.ltb_ge; lia).
    assert (E2 : (idx >=? Z.of_nat (List.length (song_tracks w)))%Z = false).
    { rewrite Z.geb_leb. apply Z.leb_gt. lia. }
    now rewrite E1, E2, Hnth.
Qed.

End AmbiguityGuards.

Lemma ambiguous_track_names_witness :
  @_resolve_track_by_name unit Fixture.three_tracks "Bass" = None
  /\ @_resolve_track_by_name unit two_bass_tracks "bass" = None
  /\ @_resolve_track_target unit Fixture.runtime Fixture.three_tracks
       (JObj [("track_name", JStr "Bass")]) = inr MsgTrackNotFound
  /\ @_resolve_track_target unit Fixture.runtime Fixture.three_tracks
       (JObj [("track_name", JStr "Bass"); ("track_index", JInt 1)]) = inl (1%nat, 1%Z).
Proof.
  destruct (@ambiguous_track_names_fail unit Fixture.runtime Fixture.three_tracks "Bass")
    as [H1 [_ [H3 H4]]].
  destruct (@ambiguous_track_names_fail unit Fixture.runtime two_bass_tracks "bass")
    as [_ [H2 _]].
  assert (E1 : @_resolve_track_by_name unit Fixture.three_tracks "Bass" = None).
  { apply H1. vm_compute. lia. }
  split; [exact E1|]. split; [|split].
  - apply (H2 eq_refl 0%nat 1%nat 0%nat 1%nat).
    + discriminate.
    + reflexivity.
    + reflexivity.
    + vm_compute. reflexivity.
    + intros [|[|[|k]]] tk Hk; try (destruct k; discriminate Hk);
        injection Hk as <-; vm_compute; discriminate.
    + vm_compute. reflexivity.
  - apply H3; [reflexivity | reflexivity | discriminate | exact E1].
  - apply (H4 _ 1%Z 1%nat); [reflexivity | reflexivity | lia | reflexivity].
Defined.

(** C5, as stated, fails twice.  An ambiguous name is not reported as
    such: the engine has one answer, "Track not found", for a name that
    two tracks have and for a name that no track has.  And names are
    compared stripped and lower-cased, not without regard to the
    whitespace inside them: of "Bass Line" and "Bass  Line", which hold
    the same words, only the first is the query "bass line", and it is
    resolved. *)
Lemma ambiguity_is_reported_as_not_found :
  @_resolve_track_target unit Fixture.runtime Fixture.three_tracks
    (JObj [("track_name", JStr "Bass")]) = inr MsgTrackNotFound
  /\ @_resolve_track_target unit Fixture.runtime Fixture.three_tracks
       (JObj [("track_name", JStr "Zzz")]) = inr MsgTrackNotFound
  /\ PyStr.split_ws (PyStr.lower "Bass Line") = PyStr.split_ws "bass line"
  /\ PyStr.split_ws (PyStr.lower "Bass  Line") = PyStr.split_ws "bass line"
  /\ @_resolve_track_by_name unit spaced_bass_tracks "bass line" = Some (0%nat, 0%nat)
  /\ @_resolve_track_target unit Fixture.runtime spaced_bass_tracks
       (JObj [("track_name", JStr "bass line")]) = inl (0%nat, 0%Z).
Proof. vm_compute. repeat split. Qed.


(** ** Positioning *)

Section PositionPlanner.
Context {S : Type} {host : Host S} {py : PyRuntime}.




End PositionPlanner.



(** ** The chain orchestrator *)

Section FailFast.
Context {S : Type} {host : Host S} {py : PyRuntime}.

Lemma is_empty_false (s : string) : s <> EmptyString -> PyStr.is_empty s = false.
Proof. destruct s; [congruence | reflexivity]. Qed.

(** Each structural failure makes the body of the loop return an error. *)
Lemma structural_failure_is_an_error (w : World S) (track : TrackId) (idx : nat) (step : JSON) :
  structural_failure w track step ->
  exists w' error, run_step w track idx step = Returns (w', inr error).
Proof.
  intros H. destruct H as [step Hobj | fields Hname | fields browser Hname Hb Hfind
                           | fields browser item w1 Hname Hb Hfind Hload Hcount
                           | fields w1 inserted Hname Hins Hnull Harr]; unfold run_step.
  - destruct step; try (eexists; eexists; reflexivity). now destruct (Hobj fields).
  - rewrite Hname. cbn [PyStr.is_empty]. eexists; eexists; reflexivity.
  - rewrite (is_empty_false _ Hname). unfold _insert_device. rewrite Hb, Hfind.
    cbn [msg_is_empty]. eexists; eexists; reflexivity.
  - rewrite (is_empty_false _ Hname). unfold _insert_device. rewrite Hb, Hfind, Hload.
    apply Nat.leb_le in Hcount. rewrite Hcount. cbn [msg_is_empty].
    eexists; eexists; reflexivity.
  - rewrite (is_empty_false _ Hname), Hins. unfold _apply_parameter_updates.
    destruct (dict_get fields "parameter_updates") as [| | | | |updates|]; try congruence;
      try (cbn [exc_bind]; eexists; eexists; reflexivity).
Qed.

(** The loop over a list of steps that starts with steps that all
    succeed goes on, after them, from the state they left. *)
Lemma run_steps_after_prefix (track : TrackId) (track_index : Z) (before rest : list JSON) :
  forall (w w1 : World S) (idx : nat) (results results1 : list DeviceResult)
         (warnings warnings1 : list Msg) (tp : TrackPayload),
    run_steps w track track_index before idx results warnings
    = Returns (w1, BuildOk tp results1 warnings1) ->
    run_steps w track track_index (before ++ rest) idx results warnings
    = run_steps w1 track track_index rest (idx + List.length before) results1 warnings1
    /\ List.length results1 = (List.length results + List.length before)%nat.
Proof.
  induction before as [|step before IH]; intros w w1 idx results results1 warnings warnings1 tp H.
  - simpl in H. injection H as <- _ <- <-. simpl. rewrite !Nat.add_0_r. auto.
  - simpl in H. simpl.
    destruct (run_step w track idx step) as [[w' [[dr sw] | err]] | exc]; simpl in *;
      try discriminate.
    destruct (IH _ _ _ _ _ _ _ _ H) as [-> Hlen]. split.
    + f_equal. lia.
    + rewrite Hlen, length_app. simpl. lia.
Qed.

(** C3.  When the steps before step [i] all succeed and step [i] fails
    structurally (it is no object, it has no device name, its device is
    not in the catalog, the load times out, or its [parameter_updates]
    is no array), the call returns an error whose [steps_executed] is
    the list of results the earlier steps produced, one per step, and
    the world returned is the one the failing step left when run on the
    world the earlier steps left: nothing is rolled back. *)
Theorem fail_fast_keeps_partial_results (w : World S) (target : JSON)
  (steps_before : list JSON) (step : JSON) (steps_after : list JSON)
  (track : TrackId) (track_index : Z) (w1 : World S)
  (tp : TrackPayload) (results : list DeviceResult) (warnings : list Msg) :
  _resolve_track_target w target = inl (track, track_index) ->
  run_steps w track track_index steps_before 0 [] [] = Returns (w1, BuildOk tp results warnings) ->
  structural_failure w1 track step ->
  exists (w2 : World S) (error : Msg),
    run_step w1 track (List.length steps_before) step = Returns (w2, inr error)
    /\ build_device_chain w (JArr (steps_before ++ step :: steps_after)) target
       = Returns (w2, BuildError error (Some (_track_payload w2 track track_index, results)))
    /\ List.length results = List.length steps_before.
Proof.
  intros Htarget Hprefix Hfail.
  destruct (structural_failure_is_an_error w1 track (List.length steps_before) step Hfail)
    as [w2 [error Hstep]].
  exists w2, error. split; [exact Hstep|].
  destruct (run_steps_after_prefix track track_index steps_before (step :: steps_after)
              _ _ _ _ _ _ _ _ Hprefix) as [Hrun Hlen].
  split; [|exact Hlen].
  unfold build_device_chain. rewrite Htarget.
  destruct (steps_before ++ step :: steps_after)%list eqn:E.
  - destruct steps_before; discriminate.
  - rewrite Hrun. simpl. now rewrite Hstep.
Qed.

End FailFast.

Lemma returned_ok_eta {S : Type} (w : World S) (r : Exc (World S * BuildResult)) :
  returned_ok r = true ->
  r = Returns (world_of w r, BuildOk (payload_of r) (steps_of r) (warnings_of r)).
Proof. destruct r as [[w' [tp steps warns | e p]] | exc]; simpl; congruence. Qed.

Lemma fail_fast_witness :
  error_of (@build_device_chain unit Fixture.fake_host Fixture.runtime Fixture.one_track
              (JArr failing_chain) JNull)
  = Some (MsgStepFailed 1 MsgDeviceLoadTimedOut)
  /\ map dr_device_name
       (steps_of (@build_device_chain unit Fixture.fake_host Fixture.runtime Fixture.one_track
                    (JArr failing_chain) JNull))
     = ["EQ Eight"]
  /\ map param_value
       (device_parameters
          (@device_of unit
             (world_of Fixture.one_track
                (@build_device_chain unit Fixture.fake_host Fixture.runtime Fixture.one_track
                   (JArr failing_chain) JNull)) 0%nat))
     = [0; 1 # 4; 0; 0; 0]%Q.
Proof.
  destruct (@fail_fast_keeps_partial_results unit Fixture.fake_host Fixture.runtime
              Fixture.one_track JNull
              [nth 0 failing_chain JNull] (nth 1 failing_chain JNull)
              [nth 2 failing_chain JNull] 0%nat 0
              (world_of Fixture.one_track first_step_run)
              (payload_of first_step_run) (steps_of first_step_run)
              (warnings_of first_step_run))
    as [w2 [error [Hstep [Hbuild Hlen]]]].
  - vm_compute. reflexivity.
  - apply returned_ok_eta. vm_compute. reflexivity.
  - eapply step_device_load_timeout with (browser := Fixture.catalog).
    + discriminate.
    + vm_compute. reflexivity.
    + vm_compute. reflexivity.
    + apply injective_projections; [reflexivity | vm_compute; reflexivity].
    + vm_compute. lia.
  - change (JArr ([nth 0 failing_chain JNull]
                  ++ [nth 1 failing_chain JNull; nth 2 failing_chain JNull]))
      with (JArr failing_chain) in Hbuild.
    rewrite Hbuild. cbn [error_of steps_of world_of].
    apply (f_equal step_error_of) in Hstep. cbn [step_error_of] in Hstep.
    apply (f_equal (fun r => map param_value (device_parameters
             (@device_of unit (world_of Fixture.one_track r) 0%nat)))) in Hbuild.
    cbn [world_of] in Hbuild.
    split; [rewrite <- Hstep; vm_compute; reflexivity|].
    split; [vm_compute; reflexivity|].
    rewrite <- Hbuild. vm_compute. reflexivity.
Defined.


(** ** Parameter updates *)

Section ParameterUpdatesProperties.
Context {py : PyRuntime}.

Lemma absolute_keeps_name (param : Param) (value : JSON) :
  param_name (fst (_set_parameter_absolute param value)) = param_name param.
Proof.
  unfold _set_parameter_absolute. destruct (py_float value); [|reflexivity].
  destruct (param_refuses _ _); reflexivity.
Qed.

Lemma display_text_keeps_name (param : Param) (text fallback : JSON) :
  param_name (fst (_set_parameter_by_display_text param text fallback)) = param_name param.
Proof.
  unfold _set_parameter_by_display_text.
  destruct (PyStr.is_empty _); [reflexivity|].
  destruct (negb _); [reflexivity|].
  destruct (text_scan _ _ _ _ _ _) as [[best_val best_score] best_exact].
  assert (Hfb : param_name
            (fst (if negb (is_none fallback)
                  then match _set_parameter_absolute param fallback with
                       | (param', ApplyOk _ value display _) =>
                           (param', ApplyOk ModeDisplayTextFallback value display (Some false))
                       | (param', ApplyError e) => (param', ApplyError e)
                       end
                  else (param, ApplyError MsgNoDisplayMatch))) = param_name param).
  { destruct (negb _); [|reflexivity].
    pose proof (absolute_keeps_name param fallback) as H.
    destruct (_set_parameter_absolute param fallback) as [p' [m v d e | e]]; exact H. }
  destruct best_val as [v|]; [|exact Hfb].
  destruct (PyFloat.flt 0 best_score); [|exact Hfb].
  destruct (param_refuses param v); reflexivity.
Qed.

Lemma assign_keeps_name (param param' : Param) (v : Q) :
  assign param v = Returns param' -> param_name param' = param_name param.
Proof.
  unfold assign. destruct (param_refuses param v); [discriminate|].
  intros H. injection H as <-. reflexivity.
Qed.

Lemma verify_fallback_keeps_name (param : Param) unit p_min p_max exact fallback display :
  param_name (fst (fst (verify_fallback param unit p_min p_max exact fallback display)))
  = param_name param.
Proof.
  unfold verify_fallback. destruct (_ && _)%bool; [|reflexivity].
  destruct (py_float fallback); [|reflexivity].
  destruct (param_refuses _ _); reflexivity.
Qed.

Lemma verify_keeps_name (param param' : Param) (tdv unit fallback : JSON)
  (max_iterations : Z) (tolerance : Q) (result : ApplyResult) :
  _set_parameter_with_verify param tdv unit fallback max_iterations tolerance
  = Returns (param', result) ->
  param_name param' = param_name param.
Proof.
  unfold _set_parameter_with_verify. destruct (py_float tdv) as [target|].
  2:{ intros H. injection H as <- _. reflexivity. }
  set (u := _normalize_unit_hint unit).
  set (lo := PyFloat.or_default (param_min param) 0).
  set (hi := PyFloat.or_default (param_max param) 1).
  assert (Hend : forall param1 display exact,
            param_name param1 = param_name param ->
            (let '(param2, display2, used_fallback) :=
               verify_fallback param1 u lo hi exact fallback display in
             Returns (param2,
                      ApplyOk ModeDisplayVerify (param_value param2) (Some display2)
                              (Some (exact && negb used_fallback)%bool)))
            = Returns (param', result) ->
            param_name param' = param_name param).
  { intros param1 display exact Hn H.
    pose proof (verify_fallback_keeps_name param1 u lo hi exact fallback display) as Hk.
    destruct (verify_fallback param1 u lo hi exact fallback display) as [[p2 d2] used].
    injection H as <- _. simpl in Hk. congruence. }
  destruct (param_is_quantized param).
  - destruct (verify_scan _ _ _ _ _ _ _) as [best_val ?].
    destruct (assign param best_val) as [param1|exc] eqn:Ea; [|discriminate].
    cbn [exc_bind]. destruct (read_display param1 u (param_value param1)) as [display final_num].
    cbn [exc_bind]. apply Hend. now apply assign_keeps_name in Ea.
  - destruct (assign param _) as [param1|exc] eqn:Ea; [|discriminate].
    cbn [exc_bind]. destruct (read_display param1 u (param_value param1)) as [display final_num].
    cbn [exc_bind]. apply Hend. now apply assign_keeps_name in Ea.
Qed.

(** Applying a value never renames the parameter. *)
Lemma apply_mode_keeps_name (param param' : Param) (update : list (string * JSON))
  (result : ApplyResult) :
  apply_mode param update = Some (Returns (param', result)) ->
  param_name param' = param_name param.
Proof.
  unfold apply_mode. destruct (dict_has update "target_display_text").
  { intros H. injection H as H. rewrite <- (display_text_keeps_name param
      (dict_get update "target_display_text") (dict_get update "fallback_value")).
    now rewrite H. }
  destruct (dict_has update "target_display_value").
  { intros H. injection H as H. now apply verify_keeps_name in H. }
  destruct (dict_has update "value"); [|discriminate].
  intros H. injection H as H.
  rewrite <- (absolute_keeps_name param (dict_get update "value")). now rewrite H.
Qed.

Lemma match_loop_names (query_norm : string) (tokens : list string) (ps qs : list Param) :
  map param_name ps = map param_name qs ->
  forall i best, match_loop query_norm tokens ps i best = match_loop query_norm tokens qs i best.
Proof.
  revert qs. induction ps as [|p ps IH]; intros [|q qs] H; try discriminate; [reflexivity|].
  simpl in H. injection H as Hp Hrest. intros i best. simpl. rewrite Hp.
  rewrite !(IH qs Hrest). reflexivity.
Qed.

Lemma first_match_names (ps qs : list Param) (queries : list string) :
  map param_name ps = map param_name qs ->
  first_match ps queries = first_match qs queries.
Proof.
  intros H. induction queries as [|query rest IH]; [reflexivity|]. simpl.
  unfold _match_parameter_by_name. destruct (PyStr.is_empty _); [exact IH|].
  rewrite (match_loop_names _ _ ps qs H). now rewrite IH.
Qed.

(** Resolution reads nothing of a device but its names. *)
Lemma resolve_parameter_names (d1 d2 : Device) (update : list (string * JSON)) :
  device_name d1 = device_name d2 ->
  device_class_name d1 = device_class_name d2 ->
  map param_name (device_parameters d1) = map param_name (device_parameters d2) ->
  _resolve_parameter d1 update = _resolve_parameter d2 update.
Proof.
  intros Hn Hc Hp. unfold _resolve_parameter.
  assert (Hlen : List.length (device_parameters d1) = List.length (device_parameters d2)).
  { rewrite <- (length_map param_name (device_parameters d1)), Hp. apply length_map. }
  assert (Hq : forall q, _parameter_query_candidates d1 q = _parameter_query_candidates d2 q).
  { intros q. unfold _parameter_query_candidates, _is_eq8_device. now rewrite Hn, Hc. }
  rewrite Hq, (first_match_names _ _ _ Hp), Hlen.
  destruct (device_parameters d1), (device_parameters d2); try discriminate; reflexivity.
Qed.

Lemma list_set_names (ps : list Param) (i : nat) (p p' : Param) :
  nth_error ps i = Some p -> param_name p' = param_name p ->
  map param_name (list_set ps i p') = map param_name ps.
Proof.
  revert i. induction ps as [|a ps IH]; intros [|i] Hi Hn; simpl in *; try discriminate.
  - injection Hi as ->. now rewrite Hn.
  - now rewrite (IH i Hi Hn).
Qed.

End ParameterUpdatesProperties.

Section UnmatchedUpdates.
Context {py : PyRuntime}.

Lemma resolve_after_replace (device : Device) (i : nat) (param param' : Param)
  (update : list (string * JSON)) :
  nth_error (device_parameters device) i = Some param ->
  param_name param' = param_name param ->
  _resolve_parameter (replace_param device i param') update = _resolve_parameter device update.
Proof.
  intros Hi Hn. apply resolve_parameter_names; try reflexivity.
  simpl. now apply list_set_names with (p := param).
Qed.

(** The two orders of a step's updates, one that applies and one that
    matches no parameter. *)
Lemma one_applied_one_unmatched (device : Device) (good bad : list (string * JSON))
  (i : nat) (param param' : Param) (mode : Mode) (value : Q) (display : option string)
  (exact : option bool) (updates : list JSON) :
  _resolve_parameter device bad = None ->
  _resolve_parameter device good = Some i ->
  nth_error (device_parameters device) i = Some param ->
  apply_mode param good = Some (Returns (param', ApplyOk mode value display exact)) ->
  updates = [JObj good; JObj bad] \/ updates = [JObj bad; JObj good] ->
  _apply_parameter_updates device (JArr updates)
  = Returns (replace_param device i param',
             UpdatesOk [mkApplied (param_name param') value display mode exact]
                       [unmatched_hint bad] []).
Proof.
  intros Hbad Hgood Hi Hmode [-> | ->]; unfold _apply_parameter_updates, apply_loop, apply_one.
  - rewrite Hgood, Hi, Hmode. cbn [exc_bind app].
    rewrite (resolve_after_replace device i param param' bad Hi
               (apply_mode_keeps_name _ _ _ _ Hmode)), Hbad.
    reflexivity.
  - rewrite Hbad. cbn [exc_bind app]. rewrite Hgood, Hi, Hmode. reflexivity.
Qed.

End UnmatchedUpdates.

Section StepWithUnmatched.
Context {S : Type} {host : Host S} {py : PyRuntime}.

(** C4.  A step whose updates are one that resolves and applies and one
    whose selector resolves to no parameter, in either order, is
    reported successful, and so is the call made of that step alone: the
    applied update is the entry of [parameters_applied] and the hint of
    the other update, which is its [param_name] when that is a non-empty
    string, is the entry of [unmatched_parameters]; no warning is
    added. *)
Theorem unmatched_update_is_no_failure (w w1 : World S) (target : JSON) (track : TrackId)
  (track_index : Z) (fields good bad : list (string * JSON)) (inserted : Inserted)
  (i : nat) (param param' : Param) (mode : Mode) (value : Q) (display : option string)
  (exact : option bool) (updates : list JSON) :
  _resolve_track_target w target = inl (track, track_index) ->
  PyStr.strip (str_or_empty (dict_get fields "device_name")) <> EmptyString ->
  _insert_device w track fields = (w1, inl inserted) ->
  dict_get fields "parameter_updates" = JArr updates ->
  updates = [JObj good; JObj bad] \/ updates = [JObj bad; JObj good] ->
  _resolve_parameter (device_of w1 (ins_device inserted)) bad = None ->
  _resolve_parameter (device_of w1 (ins_device inserted)) good = Some i ->
  nth_error (device_parameters (device_of w1 (ins_device inserted))) i = Some param ->
  apply_mode param good = Some (Returns (param', ApplyOk mode value display exact)) ->
  (forall name, dict_get bad "param_name" = JStr name -> name <> EmptyString ->
                unmatched_hint bad = name)
  /\ _apply_parameter_updates (device_of w1 (ins_device inserted)) (JArr updates)
     = Returns (replace_param (device_of w1 (ins_device inserted)) i param',
                UpdatesOk [mkApplied (param_name param') value display mode exact]
                          [unmatched_hint bad] [])
  /\ exists step_result : DeviceResult,
       dr_parameters_applied step_result
       = [mkApplied (param_name param') value display mode exact]
       /\ dr_unmatched_parameters step_result = [unmatched_hint bad]
       /\ run_step w track 0 (JObj fields)
          = Returns (put_device w1 (ins_device inserted)
                       (replace_param (device_of w1 (ins_device inserted)) i param'),
                     inl (step_result, []))
       /\ build_device_chain w (JArr [JObj fields]) target
          = Returns (put_device w1 (ins_device inserted)
                       (replace_param (device_of w1 (ins_device inserted)) i param'),
                     BuildOk (_track_payload
                                (put_device w1 (ins_device inserted)
                                   (replace_param (device_of w1 (ins_device inserted)) i param'))
                                track track_index)
                             [step_result] []).
Proof.
  intros Htarget Hname Hins Hupd Horder Hbad Hgood Hi Hmode.
  pose proof (one_applied_one_unmatched _ good bad i param param' mode value display exact
                updates Hbad Hgood Hi Hmode Horder) as Happly.
  split; [|split; [exact Happly|]].
  - intros name Hn Hne. unfold unmatched_hint, hint_text. rewrite Hn. cbn [is_none andb].
    destruct name; [congruence | reflexivity].
  - eexists. split; [|split; [|split]].
    3:{ unfold run_step. rewrite (is_empty_false _ Hname), Hins, Hupd, Happly.
        cbn [exc_bind]. reflexivity. }
    + reflexivity.
    + reflexivity.
    + unfold build_device_chain. rewrite Htarget. unfold run_steps, run_step.
      rewrite (is_empty_false _ Hname), Hins, Hupd, Happly. cbn [exc_bind app]. reflexivity.
Qed.

End StepWithUnmatched.

Lemma unmatched_update_witness :
  returned_ok (@build_device_chain unit Fixture.fake_host Fixture.runtime Fixture.one_track
                 (JArr [JObj limiter_step]) JNull) = true
  /\ map dr_unmatched_parameters
       (steps_of (@build_device_chain unit Fixture.fake_host Fixture.runtime Fixture.one_track
                    (JArr [JObj limiter_step]) JNull))
     = [["DoesNotExist"]]
  /\ map (fun r => map ap_param_name (dr_parameters_applied r))
       (steps_of (@build_device_chain unit Fixture.fake_host Fixture.runtime Fixture.one_track
                    (JArr [JObj limiter_step]) JNull))
     = [["Gain"]].
Proof.
  destruct (@unmatched_update_is_no_failure unit Fixture.fake_host Fixture.runtime
              Fixture.one_track
              (fst (@_insert_device unit Fixture.fake_host Fixture.runtime
                      Fixture.one_track 0%nat limiter_step))
              JNull 0%nat 0 limiter_step
              [("param_name", JStr "Gain"); ("value", JFloat (2 # 5))]
              [("param_name", JStr "DoesNotExist"); ("value", JFloat (1 # 5))]
              (mkInserted 0%nat 0 false None) 1%nat
              (Fixture.linear_param "Gain" 60 "dB")
              (with_value (Fixture.linear_param "Gain" 60 "dB") (2 # 5))
              ModeAbsolute (2 # 5) (Some "00000024 dB") None
              [JObj [("param_name", JStr "Gain"); ("value", JFloat (2 # 5))];
               JObj [("param_name", JStr "DoesNotExist"); ("value", JFloat (1 # 5))]])
    as [Hhint [_ [step_result [Happlied [Hunmatched [_ Hbuild]]]]]].
  - vm_compute. reflexivity.
  - discriminate.
  - apply injective_projections; [reflexivity | vm_compute; reflexivity].
  - reflexivity.
  - left. reflexivity.
  - vm_compute. reflexivity.
  - vm_compute. reflexivity.
  - reflexivity.
  - reflexivity.
  - rewrite Hbuild. cbn [returned_ok steps_of map]. rewrite Happlied, Hunmatched.
    rewrite (Hhint "DoesNotExist" eq_refl); [|discriminate].
    repeat split.
Defined.


(** ** Display-text mode *)

Section DisplayText.
Context {py : PyRuntime}.

Lemma text_scan_no_match (param : Param) (target_norm : string) (n : nat) :
  forall i : nat,
    (forall k, (i <= k < i + n)%nat -> PyFloat.flt 0 (step_score param target_norm k) = false) ->
    text_scan param target_norm (scan_low param) n i (None, 0%Q, false) = (None, 0%Q, false).
Proof.
  induction n as [|n IH]; intros i H; [reflexivity|].
  cbn [text_scan]. pose proof (H i ltac:(lia)) as Hi. unfold step_score in Hi.
  destruct (_score_display_text_match _ _) as [score exact]. cbn [fst] in Hi. rewrite Hi.
  apply IH. intros k Hk. apply H. lia.
Qed.

(** C6, as amended.  A target text whose normalized form is empty is
    rejected with "must be a non-empty string" whatever the parameter
    and the fallback, and the parameter is returned as it was.  For a
    target text whose normalized form is not empty: on a parameter that
    is not quantized the mode fails with "only supported for quantized
    parameters" and returns the parameter as it was; on a quantized
    parameter none of whose steps scores above 0, it fails with "did not
    match any quantized value" when no fallback is given, with "value
    must be numeric" when the fallback given is one that [float]
    rejects, and when a numeric fallback is given that the host accepts
    it applies the fallback, clamped, as absolute mode does and reports
    the mode [display_text_fallback] with [exact_match = false]. *)
Theorem display_text_mode_contract (param : Param) (text fallback : JSON) :
  (_normalize_display_text text = EmptyString ->
   _set_parameter_by_display_text param text fallback = (param, ApplyError MsgDisplayTextEmpty))
  /\ (_normalize_display_text text <> EmptyString ->
      (param_is_quantized param = false ->
       _set_parameter_by_display_text param text fallback
       = (param, ApplyError MsgDisplayTextQuantizedOnly))
      /\ (param_is_quantized param = true ->
          (forall i, (i < step_count (scan_low param) (scan_high param))%nat ->
                     PyFloat.flt 0 (step_score param (_normalize_display_text text) i) = false) ->
          (fallback = JNull ->
           _set_parameter_by_display_text param text fallback
           = (param, ApplyError MsgNoDisplayMatch))
          /\ (is_none fallback = false ->
              py_float fallback = None ->
              _set_parameter_by_display_text param text fallback
              = (param, ApplyError MsgValueMustBeNumeric))
          /\ (forall f : Q,
                is_none fallback = false ->
                py_float fallback = Some f ->
                param_refuses param (clamp_to_range param f) = None ->
                _set_parameter_by_display_text param text fallback
                = (with_value param (clamp_to_range param f),
                   ApplyOk ModeDisplayTextFallback (clamp_to_range param f)
                           (Some (_safe_str_for_value (with_value param (clamp_to_range param f))
                                                      (clamp_to_range param f)))
                           (Some false))))).
Proof.
  split.
  { intros He. unfold _set_parameter_by_display_text. now rewrite He. }
  intros Hne. unfold _set_parameter_by_display_text.
  rewrite (is_empty_false _ Hne). split.
  - intros Hq. now rewrite Hq.
  - intros Hq Hscores. rewrite Hq. cbn [negb].
    fold (scan_low param) (scan_high param).
    rewrite text_scan_no_match by (intros k Hk; apply Hscores; lia).
    split; [|split].
    + intros ->. reflexivity.
    + intros Hnn Hf. rewrite Hnn. cbn [negb].
      unfold _set_parameter_absolute. now rewrite Hf.
    + intros f Hnn Hf Hacc. rewrite Hnn. cbn [negb].
      unfold _set_parameter_absolute. rewrite Hf.
      fold (clamp_to_range param f). rewrite Hacc. reflexivity.
Qed.

End DisplayText.

Lemma display_text_mode_witness :
  snd (@_set_parameter_by_display_text Fixture.runtime filter_type
         (JStr "not-a-real-filter-mode") (JFloat 2))
  = ApplyOk ModeDisplayTextFallback 2 (Some "Band Pass") (Some false)
  /\ param_value (fst (@_set_parameter_by_display_text Fixture.runtime filter_type
                         (JStr "not-a-real-filter-mode") (JFloat 2))) = 2%Q
  /\ snd (@_set_parameter_by_display_text Fixture.runtime filter_type
            (JStr "not-a-real-filter-mode") JNull)
     = ApplyError MsgNoDisplayMatch
  /\ snd (@_set_parameter_by_display_text Fixture.runtime filter_type
            (JStr "not-a-real-filter-mode") (JInt (10 ^ 400)))
     = ApplyError MsgValueMustBeNumeric
  /\ snd (@_set_parameter_by_display_text Fixture.runtime filter_type (JStr "???") (JFloat 2))
     = ApplyError MsgDisplayTextEmpty.
Proof.
  destruct (@display_text_mode_contract Fixture.runtime filter_type
              (JStr "not-a-real-filter-mode") (JFloat 2)) as [_ H2].
  destruct (@display_text_mode_contract Fixture.runtime filter_type
              (JStr "not-a-real-filter-mode") JNull) as [_ H3].
  destruct (@display_text_mode_contract Fixture.runtime filter_type
              (JStr "not-a-real-filter-mode") (JInt (10 ^ 400))) as [_ H4].
  destruct (@display_text_mode_contract Fixture.runtime filter_type
              (JStr "???") (JFloat 2)) as [H5 _].
  assert (Hscores : forall i, (i < step_count (scan_low filter_type) (scan_high filter_type))%nat ->
            PyFloat.flt 0 (@step_score Fixture.runtime filter_type
                             (@_normalize_display_text Fixture.runtime
                                (JStr "not-a-real-filter-mode")) i) = false).
  { intros i Hi. change (i < 3)%nat in Hi.
    destruct i as [|[|[|i]]]; [vm_compute; reflexivity .. | lia]. }
  destruct H2 as [_ H2]; [discriminate|]. destruct H3 as [_ H3]; [discriminate|].
  destruct H4 as [_ H4]; [discriminate|].
  destruct (H2 eq_refl Hscores) as [_ [_ Hfb]]. destruct (H3 eq_refl Hscores) as [Hno _].
  destruct (H4 eq_refl Hscores) as [_ [Hbad _]].
  rewrite (Hfb 2%Q eq_refl eq_refl eq_refl), (Hno eq_refl), (H5 eq_refl).
  rewrite Hbad; [|reflexivity | vm_compute; reflexivity].
  repeat split.
Defined.

(** C6, as stated, fails on a target text that normalizes to nothing: it
    is rejected before anything else.  On the quantized filter type every
    step scores 0 against "???" and a fallback is supplied, yet the
    fallback is not applied; on a continuous parameter the error is the
    one for an empty text, not the one for an unsupported mode. *)
Lemma empty_display_text_is_rejected_first :
  forallb (fun i => PyFloat.feq 0 (@step_score Fixture.runtime filter_type
                                     (@_normalize_display_text Fixture.runtime (JStr "???")) i))
          (seq 0 (step_count (scan_low filter_type) (scan_high filter_type))) = true
  /\ snd (@_set_parameter_by_display_text Fixture.runtime filter_type (JStr "???") (JFloat 2))
     = ApplyError MsgDisplayTextEmpty
  /\ param_value (fst (@_set_parameter_by_display_text Fixture.runtime filter_type
                         (JStr "???") (JFloat 2)))
     = param_value filter_type
  /\ param_is_quantized (Fixture.linear_param "Frequency" 20000 "Hz") = false
  /\ snd (@_set_parameter_by_display_text Fixture.runtime
            (Fixture.linear_param "Frequency" 20000 "Hz") (JStr "") JNull)
     = ApplyError MsgDisplayTextEmpty.
Proof. vm_compute. repeat split. Qed.


(** ** Display-value mode *)

Section VerifyMode.
Context {py : PyRuntime}.

(** The call once the host accepted the value found by the search: what
    is left is the fallback block. *)
Lemma verify_after_an_accepted_write (param : Param) (tdv unit fallback : JSON)
  (max_iterations : Z) (tolerance target : Q) :
  py_float tdv = Some target ->
  param_refuses param
    (best_found param (_normalize_unit_hint unit) target tolerance max_iterations) = None ->
  _set_parameter_with_verify param tdv unit fallback max_iterations tolerance
  = (let u := _normalize_unit_hint unit in
     let best := best_found param u target tolerance max_iterations in
     let exact := found_exact param u target tolerance best in
     let '(param2, display2, used_fallback) :=
       verify_fallback (with_value param best) u (scan_low param) (scan_high param) exact
                       fallback (fst (read_display param u best)) in
     Returns (param2, ApplyOk ModeDisplayVerify (param_value param2) (Some display2)
                              (Some (exact && negb used_fallback)%bool))).
Proof.
  intros Htarget Hacc. unfold _set_parameter_with_verify. rewrite Htarget.
  unfold best_found, found_exact, display_number in *.
  fold (scan_low param) (scan_high param).
  set (u := _normalize_unit_hint unit) in *. cbv zeta.
  destruct (param_is_quantized param).
  - destruct (verify_scan _ _ _ _ _ _ _) as [best_val best_diff]. cbn [fst] in *.
    unfold assign. rewrite Hacc. cbn [exc_bind with_value param_value].
    change (read_display (with_value param best_val) u best_val)
      with (read_display param u best_val).
    destruct (read_display param u best_val) as [display final_num]. cbn [exc_bind fst snd].
    reflexivity.
  - unfold assign. rewrite Hacc. cbn [exc_bind with_value param_value].
    set (best := PyFloat.fmax _ _).
    change (read_display (with_value param best) u best) with (read_display param u best).
    destruct (read_display param u best) as [display final_num]. cbn [exc_bind fst snd].
    reflexivity.
Qed.

(** With no fallback the fallback block does nothing. *)
Lemma verify_without_fallback (param : Param) (tdv unit : JSON)
  (max_iterations : Z) (tolerance target : Q) :
  py_float tdv = Some target ->
  param_refuses param
    (best_found param (_normalize_unit_hint unit) target tolerance max_iterations) = None ->
  _set_parameter_with_verify param tdv unit JNull max_iterations tolerance
  = Returns (with_value param
               (best_found param (_normalize_unit_hint unit) target tolerance max_iterations),
             ApplyOk ModeDisplayVerify
               (best_found param (_normalize_unit_hint unit) target tolerance max_iterations)
               (Some (fst (read_display param (_normalize_unit_hint unit)
                             (best_found param (_normalize_unit_hint unit) target tolerance
                                         max_iterations))))
               (Some (found_exact param (_normalize_unit_hint unit) target tolerance
                        (best_found param (_normalize_unit_hint unit) target tolerance
                                    max_iterations)))).
Proof.
  intros Htarget Hacc.
  rewrite (verify_after_an_accepted_write _ _ _ _ _ _ _ Htarget Hacc). cbv zeta.
  unfold verify_fallback. cbn [is_none negb]. rewrite !andb_false_r.
  cbn [with_value param_value]. now rewrite andb_true_r.
Qed.

(** C10, where the code departs from the claim.  When the target parses
    as a number and the host refuses the assignment of the value found by
    the search, the call neither returns [ok] nor an error entry: the
    exception of the host leaves the function, whatever the fallback.
    The same refusal met by [_set_parameter_absolute] is caught and
    returned as an error entry. *)
Theorem verify_lets_the_refusal_escape (param : Param) (tdv unit fallback : JSON)
  (max_iterations : Z) (tolerance target : Q) (exc : string) :
  py_float tdv = Some target ->
  param_refuses param
    (best_found param (_normalize_unit_hint unit) target tolerance max_iterations) = Some exc ->
  _set_parameter_with_verify param tdv unit fallback max_iterations tolerance = Raises exc
  /\ (forall (value : JSON) (v : Q),
        py_float value = Some v ->
        param_refuses param (clamp_to_range param v) = Some exc ->
        _set_parameter_absolute param value = (param, ApplyError (MsgException exc))).
Proof.
  intros Htarget Hrefuse. split.
  - unfold _set_parameter_with_verify. rewrite Htarget.
    unfold best_found in Hrefuse. fold (scan_low param) (scan_high param).
    set (u := _normalize_unit_hint unit) in *.
    destruct (param_is_quantized param).
    + destruct (verify_scan _ _ _ _ _ _ _) as [best_val best_diff]. cbn [fst] in Hrefuse.
      unfold assign. now rewrite Hrefuse.
    + unfold assign. now rewrite Hrefuse.
  - intros value v Hv Hr. unfold _set_parameter_absolute. rewrite Hv.
    fold (clamp_to_range param v). now rewrite Hr.
Qed.

End VerifyMode.

Lemma verify_lets_the_refusal_escape_witness :
  @_set_parameter_with_verify Fixture.runtime locked_param
    (JInt 8000) (JStr "hz") JNull 15 (1 # 1000)
  = Raises "Parameter is disabled"
  /\ @_set_parameter_absolute Fixture.runtime locked_param (JInt 1)
     = (locked_param, ApplyError (MsgException "Parameter is disabled")).
Proof.
  destruct (@verify_lets_the_refusal_escape Fixture.runtime locked_param
              (JInt 8000) (JStr "hz") JNull 15 (1 # 1000) 8000 "Parameter is disabled"
              eq_refl eq_refl) as [H1 H2].
  split; [exact H1|]. apply (H2 (JInt 1) 1%Q); reflexivity.
Defined.

(** The exception goes through [_apply_parameter_updates], which calls
    the three modes outside any [try]: an update list whose one update
    asks the locked parameter for a display value raises, where the same
    list asking for an absolute value returns with the refusal among its
    warnings. *)
Example refused_write_aborts_the_updates :
  raised
    (@_apply_parameter_updates Fixture.runtime locked_device
       (JArr [JObj [("param_name", JStr "Frequency"); ("target_display_value", JInt 8000);
                    ("target_unit", JStr "hz")]]))
  = Some "Parameter is disabled"
  /\ raised
       (@_apply_parameter_updates Fixture.runtime locked_device
          (JArr [JObj [("param_name", JStr "Frequency"); ("value", JInt 1)]]))
     = None.
Proof. vm_compute. repeat split. Qed.


(** ** Bisection on the display of a continuous parameter *)

Lemma two_to_the_pos (n : nat) : (0 < inject_Z (2 ^ Z.of_nat n))%Q.
Proof.
  change 0%Q with (inject_Z 0). rewrite <- Zlt_Qlt. apply Z.pow_pos_nonneg; lia.
Qed.

Lemma two_to_the_succ (n : nat) :
  (inject_Z (2 ^ Z.of_nat (Datatypes.S n)) == 2 * inject_Z (2 ^ Z.of_nat n))%Q.
Proof.
  rewrite Nat2Z.inj_succ, Z.pow_succ_r by lia. rewrite inject_Z_mult. reflexivity.
Qed.

Lemma halved_width (w : Q) (n : nat) :
  (w * (1 # 2) / inject_Z (2 ^ Z.of_nat n) == w / inject_Z (2 ^ Z.of_nat (Datatypes.S n)))%Q.
Proof.
  rewrite two_to_the_succ. pose proof (two_to_the_pos n) as Hpos.
  field. intros H. rewrite H in Hpos. now apply (Qlt_irrefl 0).
Qed.

Lemma midpoint_eq (low high : Q) :
  (PyFloat.fdiv (PyFloat.fadd low high) 2 == (low + high) * (1 # 2))%Q.
Proof. rewrite fdiv_eq, fadd_eq. reflexivity. Qed.

Lemma Qabs_pos_of_nonzero (x : Q) : ~ (x == 0)%Q -> (0 < Qabs x)%Q.
Proof.
  intros Hx. apply Qabs_case; intros H.
  - destruct (Qlt_le_dec 0 x) as [H0 | H0]; [exact H0|].
    exfalso. apply Hx. now apply Qle_antisym.
  - destruct (Qlt_le_dec x 0) as [H0 | H0]; [lra|].
    exfalso. apply Hx. now apply Qle_antisym.
Qed.

Lemma within_tolerance_iff (target tolerance d : Q) :
  ~ (target == 0)%Q ->
  within_tolerance target tolerance d = true <-> (d < tolerance * Qabs target)%Q.
Proof.
  intros Ht. unfold within_tolerance.
  destruct (PyFloat.feq target 0) eqn:E.
  { apply feq_true in E. contradiction. }
  cbn [negb]. rewrite flt_true, fdiv_eq, fabs_eq.
  pose proof (Qabs_pos_of_nonzero target Ht) as Hpos.
  split; intros H.
  - apply (Qmult_lt_r _ _ (Qabs target) Hpos) in H.
    setoid_replace d with (d / Qabs target * Qabs target)%Q; [exact H|].
    field. intros H0. rewrite H0 in Hpos. now apply (Qlt_irrefl 0).
  - apply Qlt_shift_div_r; assumption.
Qed.

Section BisectionInvariant.
Context {py : PyRuntime}.
Variables (param : Param) (unit : option string) (target tolerance lo hi : Q).
Variables (f : Q -> Q) (delta : Q).
Hypothesis Hnumeric :
  forall v, (lo <= v)%Q -> (v <= hi)%Q -> display_number param unit v = Some (f v).
Hypothesis Hclose :
  forall x y, (lo <= x)%Q -> (x < y)%Q -> (y <= hi)%Q ->
              (y - x < 1 # 10000)%Q \/ (y - x <= delta)%Q ->
              separates f target x y ->
              (Qabs (f y - f x) < tolerance * Qabs target)%Q.
Hypothesis Htarget : ~ (target == 0)%Q.

(** The display at the midpoint of a bracketing interval whose half is
    short enough is within the tolerated distance of the target. *)
Lemma midpoint_distance (ascending : bool) (low high mid : Q) :
  (lo <= low)%Q -> (low < high)%Q -> (high <= hi)%Q ->
  (mid == (low + high) * (1 # 2))%Q ->
  brackets f target ascending low high ->
  ((high - low) * (1 # 2) < 1 # 10000)%Q \/ ((high - low) * (1 # 2) <= delta)%Q ->
  (Qabs (f mid - target) < tolerance * Qabs target)%Q.
Proof.
  intros Hlo Hlh Hhi Hmid Hbr Hshort.
  assert (H1 : (low < mid)%Q) by lra.
  assert (H2 : (mid < high)%Q) by lra.
  assert (Ha : separates f target low mid ->
               (Qabs (f mid - f low) < tolerance * Qabs target)%Q).
  { apply Hclose; lra. }
  assert (Hb : separates f target mid high ->
               (Qabs (f high - f mid) < tolerance * Qabs target)%Q).
  { apply Hclose; lra. }
  unfold separates in Ha, Hb.
  destruct ascending; cbn [brackets] in Hbr; destruct Hbr as [Hl Hh];
    destruct (Qlt_le_dec (f mid) target) as [Hlt | Hge].
  - assert (Hb' := Hb ltac:(left; split; lra)). clear Ha Hb.
    apply Qabs_Qlt_condition in Hb'. apply Qabs_Qlt_condition. split; lra.
  - assert (Ha' := Ha ltac:(left; split; lra)). clear Ha Hb.
    apply Qabs_Qlt_condition in Ha'. apply Qabs_Qlt_condition. split; lra.
  - assert (Ha' := Ha ltac:(right; split; lra)). clear Ha Hb.
    apply Qabs_Qlt_condition in Ha'. apply Qabs_Qlt_condition. split; lra.
  - assert (Hb' := Hb ltac:(right; split; lra)). clear Ha Hb.
    apply Qabs_Qlt_condition in Hb'. apply Qabs_Qlt_condition. split; lra.
Qed.

Lemma bisect_reaches_tolerance (ascending : bool) (n : nat) :
  forall st : Bisect,
    (1 <= n)%nat ->
    (lo <= bis_low st)%Q -> (bis_low st < bis_high st)%Q -> (bis_high st <= hi)%Q ->
    brackets f target ascending (bis_low st) (bis_high st) ->
    best_is_consistent f target lo hi st ->
    ((bis_high st - bis_low st) / inject_Z (2 ^ Z.of_nat n) <= delta)%Q ->
    exists d : Q,
      bis_best_diff (bisect param unit target tolerance ascending n st) = Some d
      /\ (d < tolerance * Qabs target)%Q
      /\ best_is_consistent f target lo hi (bisect param unit target tolerance ascending n st).
Proof.
  induction n as [|n IH]; intros st Hn Hlo Hlh Hhi Hbr Hbest Hwide; [lia|].
  destruct st as [low high best_val best_diff iterations]. cbn [bis_low bis_high] in *.
  cbn [bisect bis_low bis_high bis_best_val bis_best_diff bis_iterations].
  set (mid := PyFloat.fdiv (PyFloat.fadd low high) 2).
  pose proof (midpoint_eq low high) as Hmid. fold mid in Hmid.
  assert (Hlm : (low < mid)%Q) by lra.
  assert (Hmh : (mid < high)%Q) by lra.
  change (snd (read_display param unit mid)) with (display_number param unit mid).
  rewrite (Hnumeric mid) by lra.
  set (diff := PyFloat.fabs (PyFloat.fsub (f mid) target)).
  assert (Hdiff : (diff == Qabs (f mid - target))%Q).
  { unfold diff. rewrite fabs_eq, fsub_eq. reflexivity. }
  pose proof (midpoint_distance ascending low high mid Hlo Hlh Hhi Hmid Hbr) as Hdist.
  rewrite <- Hdiff in Hdist.
  (* the best midpoint after this iteration *)
  assert (Hnew : exists bv bd,
             (if improves diff best_diff then (mid, Some diff) else (best_val, best_diff))
             = (bv, Some bd)
             /\ (bd <= diff)%Q
             /\ best_is_consistent f target lo hi (mkBisect low high bv (Some bd) iterations)).
  { destruct Hbest as [[Hb1 Hb2] Hb3]. cbn [bis_best_val bis_best_diff] in *.
    destruct (improves diff best_diff) eqn:Eimp.
    - exists mid, diff. split; [reflexivity|]. split; [lra|].
      split; cbn [bis_best_val bis_best_diff]; [split; lra | exact Hdiff].
    - destruct best_diff as [b|]; cbn [improves] in Eimp; [|discriminate].
      apply flt_false in Eimp.
      exists best_val, b. split; [reflexivity|]. split; [exact Eimp|].
      split; cbn [bis_best_val bis_best_diff]; [split; assumption | exact Hb3]. }
  destruct Hnew as [bv [bd [-> [Hbd Hcons]]]].
  destruct (within_tolerance target tolerance diff) eqn:Etol.
  - apply (within_tolerance_iff target tolerance diff Htarget) in Etol.
    exists bd. cbn [bis_best_diff]. split; [reflexivity|]. split; [lra|].
    destruct Hcons as [Hc1 Hc2]. split; assumption.
  - assert (Hfar : (tolerance * Qabs target <= diff)%Q).
    { destruct (Qlt_le_dec diff (tolerance * Qabs target)) as [H | H]; [|exact H].
      apply (within_tolerance_iff target tolerance diff Htarget) in H. congruence. }
    rewrite <- halved_width in Hwide.
    set (half := ((high - low) * (1 # 2))%Q) in *.
    assert (Hnext : exists low' high',
               (if ascending
                then if PyFloat.flt (f mid) target then (mid, high) else (low, mid)
                else if PyFloat.flt target (f mid) then (mid, high) else (low, mid))
               = (low', high')
               /\ (lo <= low')%Q /\ (low' < high')%Q /\ (high' <= hi)%Q
               /\ (high' - low' == half)%Q
               /\ brackets f target ascending low' high').
    { unfold half. destruct ascending; cbn [brackets] in Hbr |- *; destruct Hbr as [Hl Hh].
      - destruct (PyFloat.flt (f mid) target) eqn:E.
        + apply flt_true in E. exists mid, high. repeat split; lra.
        + apply flt_false in E. exists low, mid. repeat split; lra.
      - destruct (PyFloat.flt target (f mid)) eqn:E.
        + apply flt_true in E. exists mid, high. repeat split; lra.
        + apply flt_false in E. exists low, mid. repeat split; lra. }
    destruct Hnext as [low' [high' [-> [Hlo' [Hlh' [Hhi' [Ew Hbr']]]]]]].
    destruct (PyFloat.flt (PyFloat.fabs (PyFloat.fsub high' low')) (1 # 10000)) eqn:Enarrow.
    + exfalso. apply flt_true in Enarrow. rewrite fabs_eq, fsub_eq, Ew in Enarrow.
      assert (Hhalf : (0 <= half)%Q) by (rewrite <- Ew; lra).
      rewrite Qabs_pos in Enarrow by exact Hhalf.
      specialize (Hdist (or_introl Enarrow)). lra.
    + destruct n as [|n'].
      * exfalso. change (inject_Z (2 ^ Z.of_nat 0)) with 1%Q in Hwide.
        assert (E1 : (half / 1 == half)%Q) by field. rewrite E1 in Hwide.
        specialize (Hdist (or_intror Hwide)). lra.
      * apply IH; cbn [bis_low bis_high]; try assumption; [lia|].
        rewrite Ew. exact Hwide.
Qed.

(** The bisection enters its loop body at most [n] times. *)
Lemma bisect_iterations (ascending : bool) (n : nat) :
  forall st : Bisect,
    (bis_iterations (bisect param unit target tolerance ascending n st)
     <= bis_iterations st + n)%nat.
Proof.
  induction n as [|n IH]; intros st; cbn [bisect]; [lia|].
  destruct (snd (read_display param unit _)) as [mid_num|]; cbn [bis_iterations]; [|lia].
  destruct (if improves _ _ then _ else _) as [bv bd].
  destruct (within_tolerance _ _ _); cbn [bis_iterations]; [lia|].
  destruct (if ascending then _ else _) as [low' high'].
  destruct (PyFloat.flt _ _); cbn [bis_iterations]; [lia|].
  etransitivity; [apply IH|]. cbn [bis_iterations]. lia.
Qed.

End BisectionInvariant.

Lemma clamp_inside (lo hi v : Q) :
  (lo < v)%Q -> (v < hi)%Q -> PyFloat.fmax lo (PyFloat.fmin hi v) = v.
Proof.
  intros H1 H2. unfold PyFloat.fmax, PyFloat.fmin.
  apply flt_true in H2. rewrite H2. apply flt_true in H1. now rewrite H1.
Qed.

Section BisectionConvergence.
Context {py : PyRuntime}.

Lemma read_display_with_value (param : Param) (unit : option string) (v x : Q) :
  read_display (with_value param v) unit x = read_display param unit x.
Proof. reflexivity. Qed.

(** C7, as amended.  For a continuous parameter whose writes the host
    accepts, a non-zero target and a display that is numeric over the
    range and shows numbers on either side of the target at its two ends;
    if any two backing values closer than a ten-thousandth, or than the
    range halved once per allowed iteration, whose displayed numbers lie
    on either side of the target, display numbers that differ by less
    than the tolerated distance: then the bisection enters its loop at
    most [max(1, max_iterations)] times, the value written displays a
    number within the relative tolerance of the target, and
    [exact_match] is true. *)
Theorem bisection_converges (param : Param) (tdv unit fallback : JSON)
  (max_iterations : Z) (tolerance target : Q) (f : Q -> Q) :
  let u := _normalize_unit_hint unit in
  let lo := scan_low param in
  let hi := scan_high param in
  let n := Z.to_nat (Z.max 1 max_iterations) in
  param_is_quantized param = false ->
  (forall v, param_refuses param v = None) ->
  py_float tdv = Some target ->
  ~ (target == 0)%Q ->
  (lo < hi)%Q ->
  (forall v, (lo <= v)%Q -> (v <= hi)%Q -> display_number param u v = Some (f v)) ->
  ((f lo <= target)%Q /\ (target <= f hi)%Q /\ (f lo < f hi)%Q)
  \/ ((f hi <= target)%Q /\ (target <= f lo)%Q) ->
  (forall x y, (lo <= x)%Q -> (x < y)%Q -> (y <= hi)%Q ->
               (y - x < 1 # 10000)%Q \/ (y - x <= (hi - lo) / inject_Z (2 ^ Z.of_nat n))%Q ->
               separates f target x y ->
               (Qabs (f y - f x) < tolerance * Qabs target)%Q) ->
  exists (param' : Param) (display : string) (shown : Q),
    _set_parameter_with_verify param tdv unit fallback max_iterations tolerance
    = Returns (param', ApplyOk ModeDisplayVerify (param_value param') (Some display) (Some true))
    /\ display_number param' u (param_value param') = Some shown
    /\ (Qabs (shown - target) < tolerance * Qabs target)%Q
    /\ (bis_iterations (run_bisect param u target tolerance max_iterations lo hi) <= n)%nat.
Proof.
  intros u lo hi n Hcont Hacc Hpy Htarget Hrange Hnumeric Hends Hclose.
  set (st := run_bisect param u target tolerance max_iterations lo hi).
  assert (Hst : exists d : Q,
             bis_best_diff st = Some d
             /\ (d < tolerance * Qabs target)%Q
             /\ best_is_consistent f target lo hi st).
  { unfold st, run_bisect.
    change (snd (read_display param u lo)) with (display_number param u lo).
    change (snd (read_display param u hi)) with (display_number param u hi).
    rewrite (Hnumeric lo), (Hnumeric hi) by lra.
    fold n.
    apply (bisect_reaches_tolerance param u target tolerance lo hi f
             ((hi - lo) / inject_Z (2 ^ Z.of_nat n)) Hnumeric Hclose Htarget);
      cbn [bis_low bis_high bis_best_val bis_best_diff]; try lra.
    - unfold n. lia.
    - destruct Hends as [[H1 [H2 H3]] | [H1 H2]].
      + apply flt_true in H3. rewrite H3. cbn [brackets]. split; assumption.
      + assert (H3 : PyFloat.flt (f lo) (f hi) = false) by (apply flt_false; lra).
        rewrite H3. cbn [brackets]. split; assumption.
    - split; [|exact I]. cbn [bis_best_val]. rewrite midpoint_eq. split; lra. }
  destruct Hst as [d [Hd [Hnear [[Hin1 Hin2] Hbest]]]]. rewrite Hd in Hbest.
  exists (with_value param (bis_best_val st)),
         (fst (read_display param u (bis_best_val st))), (f (bis_best_val st)).
  assert (Hshown : display_number param u (bis_best_val st) = Some (f (bis_best_val st))).
  { apply Hnumeric; lra. }
  repeat split.
  - unfold _set_parameter_with_verify. rewrite Hpy, Hcont.
    fold u. fold (scan_low param) (scan_high param). fold lo hi. fold st.
    rewrite (clamp_inside lo hi (bis_best_val st) Hin1 Hin2).
    unfold assign. rewrite Hacc. cbn [exc_bind].
    change (param_value (with_value param (bis_best_val st))) with (bis_best_val st).
    rewrite read_display_with_value.
    unfold display_number in Hshown.
    destruct (read_display param u (bis_best_val st)) as [display final_num].
    cbn [snd fst] in *. subst final_num.
    assert (Hexact : within_tolerance target tolerance
                       (PyFloat.fabs (PyFloat.fsub (f (bis_best_val st)) target)) = true).
    { apply (within_tolerance_iff _ _ _ Htarget). rewrite fabs_eq, fsub_eq, <- Hbest.
      exact Hnear. }
    rewrite Hexact. cbn [exc_bind]. unfold verify_fallback. cbn [negb andb]. reflexivity.
  - exact Hshown.
  - rewrite <- Hbest. exact Hnear.
  - unfold st, run_bisect. fold n.
    etransitivity; [apply bisect_iterations|]. cbn [bis_iterations]. lia.
Qed.

End BisectionConvergence.

(** ** Reading back a number printed in decimal digits *)

Lemma string_app_assoc (a b c : string) : (a ++ b) ++ c = a ++ (b ++ c).
Proof. induction a as [|x a IH]; cbn; [reflexivity | now rewrite IH]. Qed.

Lemma digit_char_is_digit (d : Z) :
  0 <= d <= 9 ->
  PyStr.is_digit (Fixture.digit_char d) = true /\ digit_value (Fixture.digit_char d) = d.
Proof.
  intros H.
  assert (E : d = 0 \/ d = 1 \/ d = 2 \/ d = 3 \/ d = 4 \/ d = 5 \/ d = 6 \/ d = 7
              \/ d = 8 \/ d = 9) by lia.
  repeat (destruct E as [-> | E]; [split; reflexivity|]). subst d. split; reflexivity.
Qed.

(** [read_digits] reads through the digits printed by [fixed_digits]. *)
Lemma read_fixed_digits (k : nat) :
  forall (n acc : Z) (m : nat) (rest : string),
    read_digits acc m (Fixture.fixed_digits k n ++ rest)
    = read_digits (acc * 10 ^ Z.of_nat k + n mod 10 ^ Z.of_nat k) (m + k) rest.
Proof.
  induction k as [|k IH]; intros n acc m rest.
  - cbn [Fixture.fixed_digits append]. change (10 ^ Z.of_nat 0) with 1.
    rewrite Z.mod_1_r, Z.mul_1_r, Z.add_0_r, Nat.add_0_r. reflexivity.
  - cbn [Fixture.fixed_digits]. rewrite string_app_assoc. cbn [append].
    rewrite IH. cbn [read_digits].
    destruct (digit_char_is_digit (n mod 10)) as [Hd Hv].
    { pose proof (Z.mod_pos_bound n 10). lia. }
    rewrite Hd, Hv. rewrite Nat2Z.inj_succ, Z.pow_succ_r by lia.
    rewrite (Z.rem_mul_r n 10 (10 ^ Z.of_nat k)) by (try apply Z.pow_pos_nonneg; lia).
    f_equal; [ring | lia].
Qed.

Lemma fixed_digits_head (k : nat) :
  forall (n : Z) (rest : string),
    exists (c : ascii) (s : string),
      Fixture.fixed_digits (Datatypes.S k) n ++ rest = String c s
      /\ PyStr.is_digit c = true.
Proof.
  induction k as [|k IH]; intros n rest.
  - exists (Fixture.digit_char (n mod 10)), rest. split; [reflexivity|].
    apply digit_char_is_digit. pose proof (Z.mod_pos_bound n 10). lia.
  - cbn [Fixture.fixed_digits] in *. rewrite string_app_assoc. apply IH.
Qed.

Lemma match_number_digit (c : ascii) (s : string) :
  PyStr.is_digit c = true -> match_number (String c s) = match_unsigned (String c s).
Proof.
  intros H.
  destruct c as [[] [] [] [] [] [] [] []]; try discriminate H; reflexivity.
Qed.

Lemma search_number_found (s : string) (q : Q) :
  match_number s = Some q -> search_number s = Some q.
Proof. intros H. destruct s; cbn [search_number]; rewrite H; reflexivity. Qed.

Lemma match_number_fixed_digits (k : nat) (n : Z) (rest : string) :
  match_number (Fixture.fixed_digits (Datatypes.S k) n ++ rest)
  = match_unsigned (Fixture.fixed_digits (Datatypes.S k) n ++ rest).
Proof.
  destruct (fixed_digits_head k n rest) as [c [s [-> Hc]]]. now apply match_number_digit.
Qed.

Lemma convert_hz (q : Q) (display : string) :
  _convert_display_number_for_unit (Some q) (Some display) (Some "hz") = Some q.
Proof. reflexivity. Qed.

Section LinearDisplay.
Context {py : PyRuntime}.

(** The floor display of [linear_param] reads back as the integer it
    shows. *)
Lemma linear_display_number (name : string) (scale : Z) (v : Q) :
  0 <= Qfloor (inject_Z scale * v) < 10 ^ 8 ->
  display_number (Fixture.linear_param name scale "Hz") (Some "hz") v
  = Some (inject_Z (Qfloor (inject_Z scale * v))).
Proof.
  intros Hrange. unfold display_number, read_display, _safe_str_for_value.
  cbn [Fixture.linear_param param_str_for_value snd _parse_display_number].
  set (shown := Qfloor (inject_Z scale * v)) in *.
  assert (Hparse : search_number (Fixture.fixed_digits 8 shown ++ " " ++ "Hz")
                   = Some (inject_Z shown)).
  { apply search_number_found. rewrite match_number_fixed_digits.
    unfold match_unsigned. rewrite read_fixed_digits.
    rewrite Z.mod_small by (change (Z.of_nat 8) with 8; lia).
    cbn [read_digits append PyStr.is_digit PyStr.in_range Ascii.leb Ascii.compare
         N.compare N_of_ascii N_of_digits andb Nat.add].
    reflexivity. }
  rewrite Hparse. apply convert_hz.
Qed.

Lemma linear_display_increment (scale : Z) (x y : Q) :
  (0 <= scale)%Z -> (x <= y)%Q ->
  (Qabs (inject_Z (Qfloor (inject_Z scale * y)) - inject_Z (Qfloor (inject_Z scale * x)))
   <= inject_Z scale * (y - x) + 1)%Q.
Proof.
  intros Hs Hxy.
  assert (Hs' : (0 <= inject_Z scale)%Q) by (change 0%Q with (inject_Z 0); now rewrite <- Zle_Qle).
  assert (Hmono : (inject_Z scale * x <= inject_Z scale * y)%Q).
  { rewrite !(Qmult_comm (inject_Z scale)). now apply Qmult_le_compat_r. }
  pose proof (Qfloor_resp_le _ _ Hmono) as Hfl. rewrite Zle_Qle in Hfl.
  pose proof (Qfloor_le (inject_Z scale * y)) as Hy.
  pose proof (Qlt_floor (inject_Z scale * x)) as Hx.
  rewrite inject_Z_plus in Hx. change (inject_Z 1) with 1%Q in Hx.
  set (a := inject_Z (Qfloor (inject_Z scale * x))) in *.
  set (b := inject_Z (Qfloor (inject_Z scale * y))) in *.
  apply Qabs_Qle_condition. split; lra.
Qed.

End LinearDisplay.

(** The frequency display of the Auto Filter double is numeric over the
    range, and two backing values closer than a ten-thousandth display
    numbers at most 3 apart. *)
Lemma frequency_display_numeric (v : Q) :
  (scan_low (Fixture.linear_param "Frequency" 20000 "Hz") <= v)%Q ->
  (v <= scan_high (Fixture.linear_param "Frequency" 20000 "Hz"))%Q ->
  @display_number Fixture.runtime (Fixture.linear_param "Frequency" 20000 "Hz")
    (@_normalize_unit_hint Fixture.runtime (JStr "hz")) v
  = Some (inject_Z (Qfloor (inject_Z 20000 * v))).
Proof.
  change (scan_low (Fixture.linear_param "Frequency" 20000 "Hz")) with 0%Q.
  change (scan_high (Fixture.linear_param "Frequency" 20000 "Hz")) with 1%Q.
  change (@_normalize_unit_hint Fixture.runtime (JStr "hz")) with (Some "hz").
  intros H0 H1. apply linear_display_number.
  assert (Hlo : (inject_Z 0 <= inject_Z 20000 * v)%Q).
  { change (inject_Z 0) with 0%Q. change (inject_Z 20000) with 20000%Q. lra. }
  assert (Hhi : (inject_Z 20000 * v <= inject_Z 20000)%Q).
  { change (inject_Z 20000) with 20000%Q. lra. }
  apply Qfloor_resp_le in Hlo, Hhi. rewrite Qfloor_Z in Hlo, Hhi. lia.
Qed.

Lemma frequency_display_close (x y : Q) :
  (scan_low (Fixture.linear_param "Frequency" 20000 "Hz") <= x)%Q ->
  (x < y)%Q ->
  (y <= scan_high (Fixture.linear_param "Frequency" 20000 "Hz"))%Q ->
  (y - x < 1 # 10000)%Q
  \/ (y - x <= (scan_high (Fixture.linear_param "Frequency" 20000 "Hz")
                - scan_low (Fixture.linear_param "Frequency" 20000 "Hz"))
               / inject_Z (2 ^ 15))%Q ->
  separates (fun v => inject_Z (Qfloor (inject_Z 20000 * v))) 8000 x y ->
  (Qabs (inject_Z (Qfloor (inject_Z 20000 * y)) - inject_Z (Qfloor (inject_Z 20000 * x)))
   < (1 # 1000) * Qabs 8000)%Q.
Proof.
  change (scan_low (Fixture.linear_param "Frequency" 20000 "Hz")) with 0%Q.
  change (scan_high (Fixture.linear_param "Frequency" 20000 "Hz")) with 1%Q.
  intros _ Hxy _ Hshort _.
  assert (E : ((1 - 0) / inject_Z (2 ^ 15) == 1 # 32768)%Q) by reflexivity.
  rewrite E in Hshort. clear E.
  pose proof (linear_display_increment 20000 x y ltac:(lia) (Qlt_le_weak _ _ Hxy)) as H.
  change (inject_Z 20000) with 20000%Q in *.
  change (Qabs 8000) with 8000%Q.
  eapply Qle_lt_trans; [exact H|]. destruct Hshort; lra.
Qed.

Lemma bisection_converges_witness :
  result_of (@_set_parameter_with_verify Fixture.runtime
               (Fixture.linear_param "Frequency" 20000 "Hz")
               (JInt 8000) (JStr "hz") JNull 15 (1 # 1000))
  = Some (ApplyOk ModeDisplayVerify (205 # 512) (Some "00008007 Hz") (Some true))
  /\ (bis_iterations (@run_bisect Fixture.runtime (Fixture.linear_param "Frequency" 20000 "Hz")
                        (Some "hz") 8000 (1 # 1000) 15 0 1) <= 15)%nat.
Proof.
  destruct (@bisection_converges Fixture.runtime
              (Fixture.linear_param "Frequency" 20000 "Hz")
              (JInt 8000) (JStr "hz") JNull 15 (1 # 1000) 8000
              (fun v => inject_Z (Qfloor (inject_Z 20000 * v))))
    as [param' [display [shown [H [Hshown [Hclose Hiter]]]]]].
  - reflexivity.
  - intros v. reflexivity.
  - reflexivity.
  - intros H. discriminate H.
  - reflexivity.
  - exact frequency_display_numeric.
  - left. vm_compute. repeat split; discriminate.
  - exact frequency_display_close.
  - split.
    + rewrite H. apply (f_equal result_of) in H. vm_compute in H. symmetry. exact H.
    + exact Hiter.
Defined.

(** ** A display too steep for fifteen halvings *)

Lemma string_app_nil_r (a : string) : a ++ "" = a.
Proof. induction a as [|x a IH]; cbn; [reflexivity | now rewrite IH]. Qed.

Lemma read_fixed_digits_end (k : nat) (n : Z) :
  read_digits 0 0 (Fixture.fixed_digits k n) = (n mod 10 ^ Z.of_nat k, k, "").
Proof.
  rewrite <- (string_app_nil_r (Fixture.fixed_digits k n)), read_fixed_digits.
  cbn [read_digits Nat.add]. reflexivity.
Qed.

Lemma exact_decimal (whole r j d : Z) :
  0 <= j -> d = 2 ^ j ->
  (inject_Z whole + inject_Z (r * 5 ^ j) / inject_Z (10 ^ j)
   == inject_Z (d * whole + r) / inject_Z d)%Q.
Proof.
  intros Hj ->. change 10 with (2 * 5). rewrite Z.pow_mul_l.
  rewrite !inject_Z_plus, !inject_Z_mult.
  assert (H2 : ~ (inject_Z (2 ^ j) == 0)%Q).
  { change 0%Q with (inject_Z 0). rewrite inject_Z_injective.
    pose proof (Z.pow_pos_nonneg 2 j). lia. }
  assert (H5 : ~ (inject_Z (5 ^ j) == 0)%Q).
  { change 0%Q with (inject_Z 0). rewrite inject_Z_injective.
    pose proof (Z.pow_pos_nonneg 5 j). lia. }
  field. split; assumption.
Qed.

Section SteepDisplay.
Context {py : PyRuntime}.

(** On a dyadic backing value of [[0, 1]] the steep display reads back
    as [16777216 * v]. *)
Lemma steep_display_number (v : Q) :
  dyadic v -> (0 <= v)%Q -> (v <= 1)%Q ->
  exists q : Q,
    display_number steep_param (Some "hz") v = Some q /\ (q == 16777216 * v)%Q.
Proof.
  intros Hdy H0 H1. destruct v as [num den]. unfold dyadic in Hdy. cbn [Qden] in Hdy.
  unfold display_number, read_display, _safe_str_for_value.
  cbn [steep_param param_str_for_value snd _parse_display_number].
  unfold steep_display. cbn [Qnum Qden].
  set (d := Z.pos den) in *. set (n := 16777216 * num).
  assert (Hd : 0 < d) by (unfold d; lia).
  assert (Hnum0 : 0 <= num). { unfold Qle in H0. cbn in H0. lia. }
  assert (Hnum1 : num <= d). { unfold Qle in H1. cbn in H1. unfold d. lia. }
  pose proof (Z.log2_nonneg d) as Hlog.
  rewrite Z2Nat.id by exact Hlog.
  set (j := Z.log2 d) in *.
  pose proof (Z.div_mod n d ltac:(lia)) as Hdm.
  pose proof (Z.mod_pos_bound n d Hd) as Hr.
  assert (Hwhole : 0 <= n / d < 10 ^ 8).
  { split; [apply Z.div_pos; unfold n; lia|].
    apply Z.div_lt_upper_bound; [exact Hd|]. unfold n. nia. }
  assert (Hfrac : 0 <= n mod d * 5 ^ j < 10 ^ j).
  { pose proof (Z.pow_pos_nonneg 5 j ltac:(lia) Hlog) as H5.
    change 10 with (2 * 5). rewrite Z.pow_mul_l, <- Hdy. nia. }
  eexists. split.
  - erewrite search_number_found; [apply convert_hz|].
    rewrite match_number_fixed_digits. unfold match_unsigned. rewrite read_fixed_digits.
    cbn [append read_digits]. change (PyStr.is_digit ".") with false. cbv iota.
    rewrite read_fixed_digits_end. rewrite Z2Nat.id by exact Hlog. reflexivity.
  - change (Z.of_nat 8) with 8. rewrite !Z.mod_small by lia.
    rewrite Qred_correct, Z.mul_0_l, Z.add_0_l.
    rewrite (exact_decimal (n / d) (n mod d) j d Hlog Hdy), <- Hdm.
    unfold n. rewrite inject_Z_mult, (Qmake_Qdiv num den). fold d.
    change (inject_Z 16777216) with 16777216%Q. field.
    change 0%Q with (inject_Z 0). rewrite inject_Z_injective. lia.
Qed.

(** On the dyadic backing values of [[0, 1]] the steep display is a
    strictly increasing number. *)
Lemma steep_display_increases (x y : Q) :
  dyadic x -> dyadic y -> (0 <= x)%Q -> (x < y)%Q -> (y <= 1)%Q ->
  exists a b : Q,
    display_number steep_param (Some "hz") x = Some a
    /\ display_number steep_param (Some "hz") y = Some b
    /\ (a < b)%Q.
Proof.
  intros Hx Hy H0 Hxy H1.
  destruct (steep_display_number x Hx) as [a [Ha Ea]]; try lra.
  destruct (steep_display_number y Hy) as [b [Hb Eb]]; try lra.
  exists a, b. repeat split; try assumption. rewrite Ea, Eb. lra.
Qed.


End SteepDisplay.

(** C7, as stated, fails on a steep display.  The display
    [16777216 * v] is numeric and strictly increasing over the dyadic
    backing values of [[0, 1]] and shows 0 and 16777216 at the ends, yet
    for the target 8000 the bisection stops after 14 iterations, when
    the interval is narrower than a ten-thousandth, and the value
    written, 1/2048, displays 8192, 2.4% away from the target:
    [exact_match] is false. *)
Lemma steep_display_defeats_bisection :
  (forall x y : Q,
      dyadic x -> dyadic y -> (0 <= x)%Q -> (x < y)%Q -> (y <= 1)%Q ->
      exists a b : Q,
        @display_number Fixture.runtime steep_param (Some "hz") x = Some a
        /\ @display_number Fixture.runtime steep_param (Some "hz") y = Some b
        /\ (a < b)%Q)
  /\ @display_number Fixture.runtime steep_param (Some "hz") 0 = Some 0%Q
  /\ @display_number Fixture.runtime steep_param (Some "hz") 1 = Some 16777216%Q
  /\ result_of (@_set_parameter_with_verify Fixture.runtime steep_param
                  (JInt 8000) (JStr "hz") JNull 15 (1 # 1000))
     = Some (ApplyOk ModeDisplayVerify (1 # 2048) (Some "00008192.00000000000") (Some false))
  /\ @display_number Fixture.runtime steep_param (Some "hz") (1 # 2048) = Some 8192%Q
  /\ bis_iterations (@run_bisect Fixture.runtime steep_param (Some "hz") 8000 (1 # 1000) 15 0 1)
     = 14%nat.
Proof.
  split; [exact (@steep_display_increases Fixture.runtime)|].
  vm_compute. repeat split.
Qed.


(* ================================================================== *)
(** * Part III: further properties of the engine                       *)
(* ================================================================== *)

(** ** Normalized names *)

Lemma join_empty_cons (p : string) (l : list string) :
  PyStr.join "" (p :: l) = p ++ PyStr.join "" l.
Proof.
  destruct l as [|x l]; cbn [PyStr.join append]; [now rewrite string_app_nil_r | reflexivity].
Qed.

Lemma join_flush (cur : string) (l : list string) :
  PyStr.join "" (PyStr.flush cur ++ l) = cur ++ PyStr.join "" l.
Proof.
  unfold PyStr.flush. destruct cur as [|c cur]; cbn [PyStr.is_empty app append]; [reflexivity|].
  apply join_empty_cons.
Qed.

(** Joining the runs of a class with nothing between them keeps the
    characters of the class. *)
Lemma join_runs_of (cls : ascii -> bool) (s : string) :
  forall cur, PyStr.join "" (PyStr.runs_of cls cur s) = cur ++ keep cls s.
Proof.
  induction s as [|c s IH]; intros cur; cbn [PyStr.runs_of keep].
  - rewrite <- (app_nil_r (PyStr.flush cur)), join_flush. reflexivity.
  - destruct (cls c).
    + rewrite IH, string_app_assoc. reflexivity.
    + rewrite join_flush, IH. reflexivity.
Qed.

Lemma normalize_name_keep (text : string) :
  _normalize_name text = keep PyStr.is_token_char (PyStr.lower text).
Proof. unfold _normalize_name, PyStr.TOKEN_RE_findall. now rewrite join_runs_of. Qed.

Lemma keep_all_chars (cls : ascii -> bool) (s : string) : all_chars cls (keep cls s).
Proof.
  induction s as [|c s IH]; cbn [keep]; [intros c []|].
  destruct (cls c) eqn:E; [|exact IH].
  intros x [<- | Hx]; [exact E | now apply IH].
Qed.

Lemma keep_fixed (cls : ascii -> bool) (s : string) : all_chars cls s -> keep cls s = s.
Proof.
  induction s as [|c s IH]; intros H; cbn [keep]; [reflexivity|].
  rewrite (H c (or_introl eq_refl)), IH; [reflexivity|].
  intros x Hx. apply H. now right.
Qed.

Lemma token_char_not_upper (c : ascii) :
  PyStr.is_token_char c = true -> PyStr.lower_char c = c.
Proof.
  destruct c as [[] [] [] [] [] [] [] []]; intros H; try discriminate H; reflexivity.
Qed.

Lemma lower_fixed (s : string) : all_chars PyStr.is_token_char s -> PyStr.lower s = s.
Proof.
  induction s as [|c s IH]; intros H; cbn [PyStr.lower]; [reflexivity|].
  rewrite (token_char_not_upper c (H c (or_introl eq_refl))), IH; [reflexivity|].
  intros x Hx. apply H. now right.
Qed.

(** X1.  A normalized name holds lower-case letters and digits only, and
    normalizing it again changes nothing; [normalize_query] of the
    resolver is the same function. *)
Theorem normalize_name_idempotent (text : string) :
  all_chars PyStr.is_token_char (_normalize_name text)
  /\ _normalize_name (_normalize_name text) = _normalize_name text
  /\ Resolver.normalize_string text = _normalize_name text.
Proof.
  assert (H : all_chars PyStr.is_token_char (_normalize_name text)).
  { rewrite normalize_name_keep. apply keep_all_chars. }
  split; [exact H|]. split; [|reflexivity].
  rewrite (normalize_name_keep (_normalize_name text)).
  rewrite (lower_fixed _ H). now apply keep_fixed.
Qed.

(** ** Numbers read off a display *)

Lemma read_digits_count (s : string) :
  forall (acc : Z) (n : nat), (n <= snd (fst (read_digits acc n s)))%nat.
Proof.
  induction s as [|c s IH]; intros acc n; cbn [read_digits]; [cbn; lia|].
  destruct (PyStr.is_digit c); [|cbn; lia].
  specialize (IH (10 * acc + digit_value c) (Datatypes.S n)). lia.
Qed.

Lemma match_unsigned_digit (c : ascii) (s : string) :
  PyStr.is_digit c = true -> match_unsigned (String c s) <> None.
Proof.
  intros Hc. unfold match_unsigned. cbn [read_digits]. rewrite Hc.
  pose proof (read_digits_count s (10 * 0 + digit_value c) 1) as Hn.
  destruct (read_digits (10 * 0 + digit_value c) 1 s) as [[v n] rest]. cbn [fst snd] in Hn.
  destruct n as [|n]; [lia|].
  destruct rest as [|[[] [] [] [] [] [] [] []] rest]; try discriminate.
  destruct (read_digits 0 0 rest) as [[f k] r]. discriminate.
Qed.

Lemma match_unsigned_no_digit (s : string) :
  match s with
  | EmptyString => True
  | String c _ => PyStr.is_digit c = false
  end ->
  match_unsigned s = None.
Proof.
  destruct s as [|c s]; intros H; unfold match_unsigned; cbn [read_digits]; [reflexivity|].
  now rewrite H.
Qed.

Lemma match_number_cases (s : string) :
  match_number s = match_unsigned s
  \/ (exists s', s = String "-" s'
                 /\ match_number s = match match_unsigned s' with
                                     | Some q => Some (Qred (- q))
                                     | None => None
                                     end)
  \/ (exists s', s = String "+" s' /\ match_number s = match_unsigned s').
Proof.
  destruct s as [|c s]; [left; reflexivity|].
  destruct c as [[] [] [] [] [] [] [] []];
    first [ left; reflexivity
          | right; left; eexists; split; reflexivity
          | right; right; eexists; split; reflexivity ].
Qed.

Lemma search_number_step (c : ascii) (s : string) :
  search_number (String c s)
  = match match_number (String c s) with
    | Some q => Some q
    | None => search_number s
    end.
Proof. reflexivity. Qed.

Lemma no_digit_no_number (s : string) :
  all_chars (fun c => negb (PyStr.is_digit c)) s -> search_number s = None.
Proof.
  induction s as [|c s IH]; intros H; [reflexivity|].
  assert (Hc : PyStr.is_digit c = false).
  { apply negb_true_iff. apply H. now left. }
  assert (Hs : all_chars (fun c => negb (PyStr.is_digit c)) s).
  { intros x Hx. apply H. now right. }
  assert (Hhead : match s with
                  | EmptyString => True
                  | String c' _ => PyStr.is_digit c' = false
                  end).
  { destruct s as [|c' s']; [exact I|]. apply negb_true_iff. apply Hs. now left. }
  rewrite search_number_step, (IH Hs).
  destruct (match_number_cases (String c s)) as [E | [[s' [Es E]] | [s' [Es E]]]]; rewrite E.
  - now rewrite (match_unsigned_no_digit (String c s) Hc).
  - injection Es as _ <-. now rewrite (match_unsigned_no_digit s Hhead).
  - injection Es as _ <-. now rewrite (match_unsigned_no_digit s Hhead).
Qed.

Lemma digit_gives_number (s : string) (c : ascii) :
  In c (list_ascii_of_string s) -> PyStr.is_digit c = true -> search_number s <> None.
Proof.
  induction s as [|x s IH]; intros Hin Hc; [destruct Hin|].
  rewrite search_number_step.
  destruct (match_number (String x s)) as [q|] eqn:E; [discriminate|].
  destruct Hin as [-> | Hin]; [|now apply IH].
  exfalso. rewrite (match_number_digit c s Hc) in E.
  now apply (match_unsigned_digit c s Hc).
Qed.

(** X2.  [_parse_display_number] reads a number off a display exactly
    when the display holds a digit: a display without any digit parses
    to nothing, and any digit is enough for the pattern to match. *)
Theorem parse_display_number_iff_digit (display : string) :
  _parse_display_number (Some display) = None
  <-> all_chars (fun c => negb (PyStr.is_digit c)) display.
Proof.
  cbn [_parse_display_number]. split.
  - intros H c Hc. destruct (PyStr.is_digit c) eqn:E; [|reflexivity].
    exfalso. now apply (digit_gives_number display c Hc E).
  - apply no_digit_no_number.
Qed.

(** ** Resolving the target track *)

Lemma nodup_enumerate_from {A : Type} (l : list A) :
  forall i, NoDup (enumerate_from i l).
Proof.
  induction l as [|a l IH]; intros i; cbn [enumerate_from]; constructor; [|apply IH].
  intros H. apply in_enumerate_from in H. lia.
Qed.

Lemma singleton_of_nodup {A : Type} (l : list A) (x : A) :
  NoDup l -> In x l -> (forall y, In y l -> y = x) -> l = [x].
Proof.
  intros Hnd Hin Hall. destruct l as [|a l]; [destruct Hin|].
  assert (Ha : a = x) by (apply Hall; now left). subst a.
  destruct l as [|b l]; [reflexivity|].
  assert (Hb : b = x) by (apply Hall; right; now left). subst b.
  inversion Hnd as [|? ? Hnot _]; subst. exfalso. apply Hnot. now left.
Qed.

Lemma index_of_from (l : list nat) :
  forall (x i k : nat),
    NoDup l -> nth_error l k = Some x -> index_of x l i = Some (i + k)%nat.
Proof.
  induction l as [|y l IH]; intros x i k Hnd Hk; [destruct k; discriminate|].
  cbn [index_of]. inversion Hnd as [|? ? Hnot Hnd']; subst.
  destruct k as [|k]; cbn [nth_error] in Hk.
  - injection Hk as ->. rewrite Nat.eqb_refl. f_equal. lia.
  - destruct (Nat.eqb x y) eqn:E.
    + apply Nat.eqb_eq in E. subst y. exfalso. apply Hnot. eapply nth_error_In; eauto.
    + rewrite (IH x (Datatypes.S i) k Hnd' Hk). f_equal. lia.
Qed.

Section TrackTargets.
Context {S : Type} {py : PyRuntime}.

Lemma track_index_of_position (w : World S) (t : TrackId) (k : nat) :
  NoDup (song_tracks w) -> nth_error (song_tracks w) k = Some t ->
  _track_index w t = Z.of_nat k.
Proof.
  intros Hnd Hk. unfold _track_index. now rewrite (index_of_from _ t 0%nat k Hnd Hk).
Qed.

(** A track returned by name stands at the index returned with it. *)
Lemma resolve_by_name_position (w : World S) (q : string) (t : TrackId) (i : nat) :
  _resolve_track_by_name w q = Some (t, i) -> nth_error (song_tracks w) i = Some t.
Proof.
  unfold _resolve_track_by_name.
  destruct (PyStr.is_empty _); [discriminate|].
  destruct (exact_matches w _) as [|[i1 t1] [|x2 l]] eqn:E.
  - set (qn := PyStr.join "" _).
    assert (Hin : forall s k tk, In (s, k, tk) (sort_scored (scored_candidates w qn)) ->
                                 nth_error (song_tracks w) k = Some tk).
    { intros s k tk H. apply (Permutation_in _ (sort_scored_perm _)) in H.
      now apply in_scored_candidates in H. }
    destruct (sort_scored (scored_candidates w qn)) as [|[[s0 i0] t0] [|[[s1 i1] t1] rest]].
    + discriminate.
    + intros H. injection H as <- <-. apply (Hin s0). now left.
    + destruct (PyFloat.flt _ _); [discriminate|].
      intros H. injection H as <- <-. apply (Hin s0). now left.
  - intros H. injection H as <- <-.
    assert (Hin : In (i1, t1) (exact_matches w (PyStr.lower (PyStr.strip q)))).
    { rewrite E. now left. }
    unfold exact_matches in Hin. apply filter_In in Hin. now apply in_enumerate.
  - discriminate.
Qed.

(** X3.  What selects the target track.  With no [track_index] and no
    usable [track_name] the selected track is the target, whatever
    [use_selected_track] says, also when there is no target at all; a
    [track_index] that is no integer or is out of range is an error,
    which neither a [track_name] nor the selected track makes up for. *)
Theorem track_target_selectors (w : World S) (fields : list (string * JSON)) :
  (dict_get fields "track_index" = JNull ->
   truthy (dict_get fields "track_name") = false ->
   _resolve_track_target w (JObj fields) = resolve_selected w)
  /\ (is_none (dict_get fields "track_index") = false ->
      (forall idx, py_int (dict_get fields "track_index") = Some idx ->
                   idx < 0 \/ Z.of_nat (List.length (song_tracks w)) <= idx) ->
      _resolve_track_target w (JObj fields) = inr MsgInvalidTrackIndex)
  /\ _resolve_track_target w JNull = resolve_selected w
  /\ (selected_track w = None -> resolve_selected w = inr MsgNoSelectedTrack).
Proof.
  split; [|split; [|split]].
  - intros Hidx Hname. unfold _resolve_track_target.
    destruct fields as [|kv fields'].
    + reflexivity.
    + change (truthy (JObj (kv :: fields'))) with true. cbv iota.
      rewrite Hidx, Hname. cbn [is_none negb andb].
      match goal with |- (if ?b then _ else _) = _ => destruct b end; reflexivity.
  - intros Hidx Hbad. unfold _resolve_track_target.
    destruct fields as [|kv fields']; [discriminate Hidx|].
    change (truthy (JObj (kv :: fields'))) with true. cbv iota.
    rewrite Hidx. cbn [negb]. rewrite andb_false_r. cbn [andb].
    destruct (py_int _) as [idx|]; [|reflexivity].
    destruct (Hbad idx eq_refl) as [H | H].
    + assert (E : (idx <? 0) = true) by (apply Z.ltb_lt; lia). now rewrite E.
    + assert (E : (idx >=? Z.of_nat (List.length (song_tracks w))) = true).
      { rewrite Z.geb_leb. apply Z.leb_le. lia. }
      rewrite E, orb_true_r. reflexivity.
  - reflexivity.
  - intros H. unfold resolve_selected. now rewrite H.
Qed.

(** X4.  When the song lists no track twice, the index returned with a
    resolved track is the index [_track_index] gives for it: its place
    in [song.tracks], by whichever selector it was found, and -1 only
    for a selected track that the song does not list. *)
Theorem resolved_track_index_is_position (w : World S) (target : JSON)
  (t : TrackId) (idx : Z) :
  NoDup (song_tracks w) ->
  _resolve_track_target w target = inl (t, idx) ->
  idx = _track_index w t.
Proof.
  intros Hnd. unfold _resolve_track_target.
  assert (Hsel : resolve_selected w = inl (t, idx) -> idx = _track_index w t).
  { unfold resolve_selected. destruct (selected_track w); [|discriminate].
    intros H. now injection H as <- <-. }
  destruct (if truthy target then target else JObj []) as [| | | | | |fields];
    try discriminate.
  destruct (_ && _ && _)%bool; [exact Hsel|].
  destruct (negb (is_none (dict_get fields "track_index"))).
  - destruct (py_int _) as [i|]; [|discriminate].
    destruct ((i <? 0) || (i >=? _))%bool eqn:E; [discriminate|].
    destruct (nth_error (song_tracks w) (Z.to_nat i)) as [t'|] eqn:Hn; [|discriminate].
    intros H. injection H as <- <-.
    apply orb_false_iff in E. destruct E as [E _]. apply Z.ltb_ge in E.
    rewrite (track_index_of_position w t' _ Hnd Hn). lia.
  - destruct (truthy (dict_get fields "track_name")); [|exact Hsel].
    destruct (_resolve_track_by_name w _) as [[t' i]|] eqn:Hr; [|discriminate].
    intros H. injection H as <- <-.
    apply resolve_by_name_position in Hr.
    now rewrite (track_index_of_position w t' i Hnd Hr).
Qed.

(** X5.  A track that is the only one whose name, stripped and
    lower-cased, is the query's is the track resolved, at its index,
    whatever the other tracks score. *)
Theorem unique_exact_name_wins (w : World S) (q : string) (i : nat) (t : TrackId) :
  name_key q <> EmptyString ->
  nth_error (song_tracks w) i = Some t ->
  name_key (name_of_track w t) = name_key q ->
  (forall j t', nth_error (song_tracks w) j = Some t' ->
                name_key (name_of_track w t') = name_key q -> j = i) ->
  _resolve_track_by_name w q = Some (t, i).
Proof.
  intros Hq Hi Hkey Huniq. unfold _resolve_track_by_name. fold (name_key q).
  rewrite (is_empty_false _ Hq).
  assert (E : exact_matches w (name_key q) = [(i, t)]).
  { unfold exact_matches. apply singleton_of_nodup.
    - apply NoDup_filter. apply nodup_enumerate_from.
    - apply filter_In. split; [now apply in_enumerate|].
      cbn [snd]. apply String.eqb_eq. exact Hkey.
    - intros [j t'] H. apply filter_In in H. destruct H as [Hin Hp].
      apply in_enumerate in Hin. cbn [snd] in Hp. apply String.eqb_eq in Hp.
      assert (j = i) by (apply (Huniq j t'); assumption). subst j. congruence. }
  now rewrite E.
Qed.

End TrackTargets.

Lemma resolved_track_index_witness :
  2 = @_track_index unit Fixture.three_tracks 2%nat.
Proof.
  apply (@resolved_track_index_is_position unit Fixture.runtime Fixture.three_tracks
           (JObj [("track_name", JStr " drums ")]) 2%nat 2).
  - repeat constructor; cbn; intuition discriminate.
  - reflexivity.
Defined.

Lemma unique_exact_name_witness :
  @_resolve_track_by_name unit Fixture.three_tracks " DRUMS " = Some (2%nat, 2%nat).
Proof.
  apply unique_exact_name_wins.
  - discriminate.
  - reflexivity.
  - reflexivity.
  - intros [|[|[|j]]] t' Hj Hk; try reflexivity.
    + injection Hj as <-. discriminate Hk.
    + injection Hj as <-. discriminate Hk.
    + destruct j; discriminate Hj.
Defined.


Section ClearBestMatch.
Context {S : Type} {py : PyRuntime}.

Lemma nodup_scored_from (w : World S) (qn : string) (l : list TrackId) :
  forall i,
    NoDup (flat_map (fun it =>
                       let score := _score_track_name_match qn (name_of_track w (snd it)) in
                       if PyFloat.flt 0 score then [(score, fst it, snd it)] else [])
                    (enumerate_from i l))
    /\ (forall s k t,
          In (s, k, t)
             (flat_map (fun it =>
                          let score := _score_track_name_match qn (name_of_track w (snd it)) in
                          if PyFloat.flt 0 score then [(score, fst it, snd it)] else [])
                       (enumerate_from i l)) -> (i <= k)%nat).
Proof.
  induction l as [|a l IH]; intros i; cbn [enumerate_from flat_map].
  - split; [constructor | intros s k t []].
  - destruct (IH (Datatypes.S i)) as [Hnd Hge]. cbn [fst snd].
    destruct (PyFloat.flt 0 _); cbn [app].
    + split.
      * constructor; [|exact Hnd]. intros H. apply Hge in H. lia.
      * intros s k t [H | H]; [injection H as _ <- _; lia | apply Hge in H; lia].
    + split; [exact Hnd|]. intros s k t H. apply Hge in H. lia.
Qed.

Lemma nodup_scored_candidates (w : World S) (qn : string) : NoDup (scored_candidates w qn).
Proof. apply (nodup_scored_from w qn (song_tracks w) 0%nat). Qed.

(** X6.  When no track has the query's name exactly, a track whose fuzzy
    score is positive and at least 0.25 above the score of every other
    track is the track resolved, at its index. *)
Theorem clear_best_fuzzy_match_wins (w : World S) (q : string) (i : nat) (ti : TrackId) :
  name_key q <> EmptyString ->
  exact_matches w (name_key q) = [] ->
  nth_error (song_tracks w) i = Some ti ->
  (0 < track_score w q ti)%Q ->
  (forall k tk, nth_error (song_tracks w) k = Some tk -> k <> i ->
                (track_score w q tk + (1 # 4) <= track_score w q ti)%Q) ->
  _resolve_track_by_name w q = Some (ti, i).
Proof.
  intros Hq Hex Hi Hpos Hclear. unfold _resolve_track_by_name. fold (name_key q).
  rewrite (is_empty_false _ Hq), Hex.
  unfold track_score in *. set (qn := PyStr.join "" (_normalize_track_tokens (name_key q))) in *.
  set (sc := fun t => _score_track_name_match qn (name_of_track w t)) in *.
  pose proof (sort_scored_perm (scored_candidates w qn)) as Hperm.
  assert (Hnd : NoDup (sort_scored (scored_candidates w qn))).
  { apply (Permutation_NoDup (Permutation_sym Hperm)). apply nodup_scored_candidates. }
  assert (Hmem : forall x, In x (sort_scored (scored_candidates w qn)) ->
                           exists k tk, x = (sc tk, k, tk) /\ nth_error (song_tracks w) k = Some tk).
  { intros [[s k] tk] Hx. apply (Permutation_in _ Hperm) in Hx.
    apply in_scored_candidates in Hx. destruct Hx as [Hk [-> _]]. now exists k, tk. }
  assert (HA : In (sc ti, i, ti) (sort_scored (scored_candidates w qn))).
  { apply (Permutation_in _ (Permutation_sym Hperm)).
    apply in_scored_candidates. repeat split; auto. now apply flt_true. }
  pose proof (sort_scored_descending (scored_candidates w qn)) as Hd.
  destruct (sort_scored (scored_candidates w qn)) as [|x0 rest]; [destruct HA|].
  inversion Hd as [|? ? Hle Hd']; subst.
  (* the head is the entry of the track [ti] *)
  assert (H0 : x0 = (sc ti, i, ti)).
  { destruct HA as [HA | HA]; [exact HA|].
    destruct (Hmem x0 (or_introl eq_refl)) as [k [tk [-> Hk]]].
    destruct (Nat.eq_dec k i) as [-> | Hne]; [congruence|].
    exfalso. rewrite Forall_forall in Hle. specialize (Hle _ HA).
    unfold score_of in Hle. cbn [fst] in Hle.
    specialize (Hclear k tk Hk Hne). unfold sc in Hle. lra. }
  subst x0.
  destruct rest as [|x1 rest']; [reflexivity|].
  destruct (Hmem x1 (or_intror (or_introl eq_refl))) as [k [tk [-> Hk]]].
  assert (Hne : k <> i).
  { intros ->. inversion Hnd as [|? ? Hnot _]; subst. apply Hnot. left. congruence. }
  specialize (Hclear k tk Hk Hne).
  assert (Hfar : PyFloat.flt (PyFloat.fabs (PyFloat.fsub (sc ti) (sc tk))) (1 # 4) = false).
  { apply flt_false. rewrite fabs_eq, fsub_eq. unfold sc. rewrite Qabs_pos; lra. }
  now rewrite Hfar.
Qed.

End ClearBestMatch.

Lemma clear_best_fuzzy_match_witness :
  @_resolve_track_by_name unit Fixture.three_tracks "dru" = Some (2%nat, 2%nat).
Proof.
  apply clear_best_fuzzy_match_wins.
  - discriminate.
  - reflexivity.
  - reflexivity.
  - reflexivity.
  - intros [|[|[|k]]] tk Hk Hne.
    + injection Hk as <-. vm_compute. discriminate.
    + injection Hk as <-. vm_compute. discriminate.
    + congruence.
    + destruct k; discriminate Hk.
Defined.

(** ** Matching a parameter by name *)

Lemma match_loop_exact (qn : string) (toks : list string) (ps : list Param) :
  forall (k i : nat) (best : option nat * Q) (p : Param),
    qn <> EmptyString ->
    nth_error ps i = Some p ->
    _normalize_name (param_name p) = qn ->
    (forall j pj, (j < i)%nat -> nth_error ps j = Some pj ->
                  _normalize_name (param_name pj) <> qn) ->
    match_loop qn toks ps k best = Some (k + i)%nat.
Proof.
  induction ps as [|a ps IH]; intros k i best p Hq Hi Hp Hbefore; [destruct i; discriminate|].
  cbn [match_loop]. destruct i as [|i]; cbn [nth_error] in Hi.
  - injection Hi as ->. rewrite Hp, (is_empty_false _ Hq), String.eqb_refl.
    f_equal. lia.
  - assert (Ha : _normalize_name (param_name a) <> qn).
    { apply (Hbefore 0%nat a); [lia | reflexivity]. }
    assert (Hrest : forall j pj, (j < i)%nat -> nth_error ps j = Some pj ->
                                 _normalize_name (param_name pj) <> qn).
    { intros j pj Hj Hpj. apply (Hbefore (Datatypes.S j) pj); [lia | exact Hpj]. }
    replace (k + Datatypes.S i)%nat with (Datatypes.S k + i)%nat by lia.
    destruct (PyStr.is_empty _); [now apply (IH _ _ _ p)|].
    destruct (String.eqb qn _) eqn:E; [apply String.eqb_eq in E; congruence|].
    destruct (PyFloat.flt _ _); now apply (IH _ _ _ p).
Qed.

(** X7.  In [_match_parameter_by_name] an exact match of the normalized
    names ends the search: the first parameter whose normalized name is
    the normalized query is returned, whatever the earlier parameters
    score. *)
Theorem exact_parameter_name_wins (parameters : list Param) (query : string)
  (i : nat) (p : Param) :
  _normalize_name query <> EmptyString ->
  nth_error parameters i = Some p ->
  _normalize_name (param_name p) = _normalize_name query ->
  (forall j pj, (j < i)%nat -> nth_error parameters j = Some pj ->
                _normalize_name (param_name pj) <> _normalize_name query) ->
  _match_parameter_by_name parameters query = Some i.
Proof.
  intros Hq Hi Hp Hbefore. unfold _match_parameter_by_name.
  rewrite (is_empty_false _ Hq).
  now rewrite (match_loop_exact _ _ parameters 0%nat i _ p Hq Hi Hp Hbefore).
Qed.

Lemma exact_parameter_name_witness :
  _match_parameter_by_name (device_parameters Fixture.limiter) " GAIN " = Some 1%nat.
Proof.
  apply (exact_parameter_name_wins _ _ 1%nat (Fixture.linear_param "Gain" 60 "dB")).
  - discriminate.
  - reflexivity.
  - reflexivity.
  - intros [|j] pj Hj Hpj; [|lia]. injection Hpj as <-. discriminate.
Defined.

Lemma positive_score_shares_text (qn pnorm : string) (b : Q) :
  (0 <= b)%Q ->
  PyFloat.flt b
    (PyFloat.fadd
       (if (PyStr.contains qn pnorm || PyStr.contains pnorm qn)%bool then 2%Q else 0%Q)
       (PyFloat.of_nat (PyStr.overlap_count (PyStr.TOKEN_RE_findall qn)
                                            (PyStr.TOKEN_RE_findall pnorm)))) = true ->
  shares_text qn pnorm = true
  /\ (0 <= PyFloat.fadd
             (if (PyStr.contains qn pnorm || PyStr.contains pnorm qn)%bool then 2%Q else 0%Q)
             (PyFloat.of_nat (PyStr.overlap_count (PyStr.TOKEN_RE_findall qn)
                                                  (PyStr.TOKEN_RE_findall pnorm))))%Q.
Proof.
  intros Hb H. apply flt_true in H. unfold shares_text.
  set (n := PyStr.overlap_count _ _) in *.
  split; [|apply Qle_trans with b; [exact Hb | now apply Qlt_le_weak]].
  rewrite fadd_eq in H.
  destruct (PyStr.contains qn pnorm); [now rewrite orb_true_r|].
  destruct (PyStr.contains pnorm qn); [now rewrite !orb_true_r|].
  cbn [orb] in *. rewrite orb_false_r.
  destruct n as [|n]; [|now rewrite orb_true_r].
  exfalso. change (PyFloat.of_nat 0) with 0%Q in H. lra.
Qed.


Lemma nth_error_middle {A : Type} (pre : list A) (a : A) (ps : list A) :
  nth_error (pre ++ a :: ps) (List.length pre) = Some a.
Proof. induction pre as [|x pre IH]; [reflexivity | exact IH]. Qed.

Lemma match_loop_sound (qn : string) (all : list Param) (ps : list Param) :
  forall (pre : list Param) (best : option nat * Q) (i : nat),
    all = (pre ++ ps)%list ->
    (0 <= snd best)%Q ->
    (forall j, fst best = Some j ->
               exists p, nth_error all j = Some p
                         /\ _normalize_name (param_name p) <> EmptyString
                         /\ shares_text qn (_normalize_name (param_name p)) = true) ->
    match_loop qn (PyStr.TOKEN_RE_findall qn) ps (List.length pre) best = Some i ->
    exists p, nth_error all i = Some p
              /\ _normalize_name (param_name p) <> EmptyString
              /\ shares_text qn (_normalize_name (param_name p)) = true.
Proof.
  induction ps as [|a ps IH]; intros pre best i Hall Hb Hbest; cbn [match_loop].
  - exact (Hbest i).
  - assert (Hall' : all = ((pre ++ [a]) ++ ps)%list) by (now rewrite <- app_assoc).
    assert (Hlen : Datatypes.S (List.length pre) = List.length (pre ++ [a])%list).
    { rewrite length_app. cbn. lia. }
    assert (Ha : nth_error all (List.length pre) = Some a).
    { rewrite Hall. apply nth_error_middle. }
    rewrite Hlen.
    destruct (PyStr.is_empty (_normalize_name (param_name a))) eqn:Ee.
    { now apply IH. }
    assert (Hne : _normalize_name (param_name a) <> EmptyString).
    { intros E. rewrite E in Ee. discriminate Ee. }
    destruct (String.eqb qn (_normalize_name (param_name a))) eqn:Eq.
    { intros H. injection H as <-. exists a. split; [exact Ha|]. split; [exact Hne|].
      unfold shares_text. now rewrite Eq. }
    destruct (PyFloat.flt (snd best) _) eqn:Ef.
    + destruct (positive_score_shares_text qn (_normalize_name (param_name a)) (snd best) Hb Ef)
        as [Hs Hpos].
      apply IH; [exact Hall' | exact Hpos|].
      cbn [fst]. intros j Hj. injection Hj as <-. now exists a.
    + now apply IH.
Qed.

(** X8.  A parameter that [_match_parameter_by_name] returns is a
    parameter of the list whose normalized name is not empty and shares
    text with the normalized query: the two are equal, one contains the
    other, or they have a token in common. *)
Theorem matched_parameter_shares_text (parameters : list Param) (query : string) (i : nat) :
  _match_parameter_by_name parameters query = Some i ->
  exists p, nth_error parameters i = Some p
            /\ _normalize_name (param_name p) <> EmptyString
            /\ shares_text (_normalize_name query) (_normalize_name (param_name p)) = true.
Proof.
  unfold _match_parameter_by_name. destruct (PyStr.is_empty _); [discriminate|].
  apply (match_loop_sound _ parameters parameters []); [reflexivity | cbn; lra|].
  cbn [fst]. discriminate.
Qed.

Lemma matched_parameter_witness :
  exists p, nth_error (device_parameters Fixture.eq_eight) 0 = Some p
            /\ _normalize_name (param_name p) <> EmptyString
            /\ shares_text (_normalize_name "frequency")
                           (_normalize_name (param_name p)) = true.
Proof.
  apply (matched_parameter_shares_text (device_parameters Fixture.eq_eight) "frequency" 0%nat).
  reflexivity.
Defined.

Section ResolvedParameter.
Context {py : PyRuntime}.

Lemma first_match_in_range (parameters : list Param) (queries : list string) (i : nat) :
  first_match parameters queries = Some i -> (i < List.length parameters)%nat.
Proof.
  induction queries as [|q queries IH]; cbn [first_match]; [discriminate|].
  destruct (_match_parameter_by_name parameters q) as [j|] eqn:E; [|exact IH].
  intros H. injection H as <-.
  unfold _match_parameter_by_name in E. destruct (PyStr.is_empty _); [discriminate|].
  destruct (match_loop_sound (_normalize_name q) parameters parameters [] (None, 0%Q) j eq_refl)
    as [p [Hp _]];
    [cbn; lra | cbn [fst]; discriminate | exact E|].
  apply nth_error_Some. congruence.
Qed.

(** X9.  [_resolve_parameter] returns a position inside
    [device.parameters]; when [param_index] is an integer in range that
    position is the index, whatever [param_name] says. *)
Theorem resolved_parameter_in_range (device : Device) (update : list (string * JSON))
  (i : nat) :
  _resolve_parameter device update = Some i ->
  (i < List.length (device_parameters device))%nat
  /\ (forall idx,
        is_none (dict_get update "param_index") = false ->
        py_int (dict_get update "param_index") = Some idx ->
        0 <= idx < Z.of_nat (List.length (device_parameters device)) ->
        i = Z.to_nat idx).
Proof.
  unfold _resolve_parameter.
  destruct (device_parameters device) as [|p ps] eqn:Eps; [discriminate|].
  set (by_name := first_match _ _).
  assert (Hname : by_name = Some i -> (i < List.length (p :: ps))%nat).
  { apply first_match_in_range. }
  destruct (is_none (dict_get update "param_index")) eqn:En; cbn [negb].
  - intros H. split; [now apply Hname | discriminate].
  - destruct (py_int _) as [idx|]; [|discriminate].
    destruct ((0 <=? idx) && (idx <? _))%bool eqn:Er.
    + intros H. injection H as <-.
      apply andb_true_iff in Er. destruct Er as [E1 E2].
      apply Z.leb_le in E1. apply Z.ltb_lt in E2.
      split; [lia|]. intros idx' _ H' _. now injection H' as <-.
    + intros H. split; [now apply Hname|].
      intros idx' _ H' Hr. injection H' as <-.
      exfalso. apply andb_false_iff in Er.
      destruct Er as [E | E]; [apply Z.leb_gt in E | apply Z.ltb_ge in E]; lia.
Qed.

End ResolvedParameter.

Lemma resolved_parameter_witness :
  (1 < List.length (device_parameters Fixture.limiter))%nat
  /\ (forall idx,
        is_none (dict_get [("param_name", JStr "Ceiling"); ("param_index", JInt 1)]
                          "param_index") = false ->
        @py_int Fixture.runtime
                (dict_get [("param_name", JStr "Ceiling"); ("param_index", JInt 1)]
                          "param_index") = Some idx ->
        0 <= idx < Z.of_nat (List.length (device_parameters Fixture.limiter)) ->
        1%nat = Z.to_nat idx).
Proof.
  apply (@resolved_parameter_in_range Fixture.runtime Fixture.limiter
           [("param_name", JStr "Ceiling"); ("param_index", JInt 1)] 1%nat).
  reflexivity.
Defined.


(** ** Values written to a parameter *)

Lemma fmax_spec (a b : Q) :
  (a <= PyFloat.fmax a b)%Q /\ (b <= PyFloat.fmax a b)%Q
  /\ (PyFloat.fmax a b = a \/ PyFloat.fmax a b = b).
Proof.
  unfold PyFloat.fmax. destruct (PyFloat.flt a b) eqn:E.
  - apply flt_true in E. repeat split; [lra | lra | now right].
  - apply flt_false in E. repeat split; [lra | lra | now left].
Qed.

Lemma fmin_spec (a b : Q) :
  (PyFloat.fmin a b <= a)%Q /\ (PyFloat.fmin a b <= b)%Q
  /\ (PyFloat.fmin a b = a \/ PyFloat.fmin a b = b).
Proof.
  unfold PyFloat.fmin. destruct (PyFloat.flt b a) eqn:E.
  - apply flt_true in E. repeat split; [lra | lra | now right].
  - apply flt_false in E. repeat split; [lra | lra | now left].
Qed.

Section AbsoluteMode.
Context {py : PyRuntime}.

(** X10.  Absolute mode clamps before it writes.  On a parameter with
    [min <= max] whose host accepts the write: a value that [float]
    rejects (a value that is no number, or an [int] beyond the range of
    a float) gives the error "value must be numeric" and leaves the
    parameter as it was; for a value [float] accepts the call succeeds
    in the mode [absolute], the value written and reported lies in
    [[min, max]], it is the converted value when that lies in the range,
    [min] when it is below and [max] when it is above. *)
Theorem absolute_mode_clamps (param : Param) (value : JSON) :
  (param_min param <= param_max param)%Q ->
  (forall x, param_refuses param x = None) ->
  (py_float value = None ->
   _set_parameter_absolute param value = (param, ApplyError MsgValueMustBeNumeric))
  /\ (forall v : Q,
        py_float value = Some v ->
        exists (param' : Param) (display : string),
          _set_parameter_absolute param value
          = (param', ApplyOk ModeAbsolute (param_value param') (Some display) None)
          /\ (param_min param <= param_value param')%Q
          /\ (param_value param' <= param_max param)%Q
          /\ ((param_min param <= v)%Q -> (v <= param_max param)%Q ->
              (param_value param' == v)%Q)
          /\ ((v < param_min param)%Q -> (param_value param' == param_min param)%Q)
          /\ ((param_max param < v)%Q -> (param_value param' == param_max param)%Q)).
Proof.
  intros Hrange Hacc. split.
  { intros Hv. unfold _set_parameter_absolute. now rewrite Hv. }
  intros v Hv. unfold _set_parameter_absolute. rewrite Hv, Hacc.
  eexists. eexists. split; [reflexivity|].
  cbn [with_value param_value].
  destruct (fmax_spec (param_min param) v) as [Ha [Hb Hc]].
  destruct (fmin_spec (param_max param) (PyFloat.fmax (param_min param) v)) as [Hd [He Hf]].
  set (m := PyFloat.fmax (param_min param) v) in *.
  set (r := PyFloat.fmin (param_max param) m) in *.
  assert (Hr : (r == param_max param /\ param_max param <= m)%Q \/ (r == m /\ m <= param_max param)%Q).
  { unfold r, PyFloat.fmin. destruct (PyFloat.flt m (param_max param)) eqn:E.
    - apply flt_true in E. right. split; [reflexivity | lra].
    - apply flt_false in E. left. split; [reflexivity | exact E]. }
  assert (Hm : (m == v /\ param_min param <= v)%Q \/ (m == param_min param /\ v <= param_min param)%Q).
  { unfold m, PyFloat.fmax. destruct (PyFloat.flt (param_min param) v) eqn:E.
    - apply flt_true in E. left. split; [reflexivity | lra].
    - apply flt_false in E. right. split; [reflexivity | exact E]. }
  repeat split.
  - destruct Hr as [[Hr _] | [Hr _]]; rewrite Hr; lra.
  - exact Hd.
  - intros H1 H2. destruct Hr as [[Hr Hr'] | [Hr _]], Hm as [[Hm _] | [Hm Hm']]; lra.
  - intros H1. destruct Hr as [[Hr Hr'] | [Hr _]], Hm as [[Hm Hm'] | [Hm Hm']]; lra.
  - intros H1. destruct Hr as [[Hr Hr'] | [Hr Hr']], Hm as [[Hm Hm'] | [Hm Hm']]; lra.
Qed.

End AbsoluteMode.

Lemma absolute_mode_clamps_witness :
  snd (@_set_parameter_absolute Fixture.runtime (Fixture.linear_param "Gain" 60 "dB")
         (JFloat (3 # 2)))
  = ApplyOk ModeAbsolute 1 (Some "00000060 dB") None
  /\ snd (@_set_parameter_absolute Fixture.runtime (Fixture.linear_param "Gain" 60 "dB")
            (JInt (10 ^ 400)))
     = ApplyError MsgValueMustBeNumeric.
Proof.
  split.
  - destruct (@absolute_mode_clamps Fixture.runtime (Fixture.linear_param "Gain" 60 "dB")
                (JFloat (3 # 2))) as [_ H].
    + discriminate.
    + intros x. reflexivity.
    + destruct (H (3 # 2) eq_refl) as [param' [display [E _]]].
      rewrite E. apply (f_equal snd) in E. vm_compute in E. symmetry. exact E.
  - destruct (@absolute_mode_clamps Fixture.runtime (Fixture.linear_param "Gain" 60 "dB")
                (JInt (10 ^ 400))) as [H _].
    + discriminate.
    + intros x. reflexivity.
    + rewrite H; [reflexivity | vm_compute; reflexivity].
Defined.

Lemma exact_score_is_equality (target_norm candidate_norm : string) :
  snd (_score_display_text_match target_norm candidate_norm) = true ->
  target_norm = candidate_norm.
Proof.
  unfold _score_display_text_match.
  destruct (_ || _)%bool; [discriminate|].
  destruct (String.eqb target_norm candidate_norm) eqn:E; [intros _; now apply String.eqb_eq|].
  destruct (_ || _)%bool; discriminate.
Qed.

Section DisplayTextSound.
Context {py : PyRuntime}.

(** What the scan of [_set_parameter_by_display_text] keeps as its best:
    a step met so far, with its score and whether it is exact. *)
Lemma text_scan_keeps_a_step (param : Param) (target_norm : string) (p_min : Q) (n : nat) :
  forall (i : nat) (st : TextScan),
    (0 <= snd (fst st))%Q ->
    (forall c, fst (fst st) = Some c ->
               exists j, (j < i)%nat
                         /\ c = PyFloat.fadd p_min (PyFloat.of_nat j)
                         /\ (0 < snd (fst st))%Q
                         /\ (snd (fst st), snd st)
                            = _score_display_text_match target_norm
                                (normalize_display_string (_safe_str_for_value param c))) ->
    (0 <= snd (fst (text_scan param target_norm p_min n i st)))%Q
    /\ (forall c, fst (fst (text_scan param target_norm p_min n i st)) = Some c ->
                  exists j, (j < i + n)%nat
                            /\ c = PyFloat.fadd p_min (PyFloat.of_nat j)
                            /\ (0 < snd (fst (text_scan param target_norm p_min n i st)))%Q
                            /\ (snd (fst (text_scan param target_norm p_min n i st)),
                                snd (text_scan param target_norm p_min n i st))
                               = _score_display_text_match target_norm
                                   (normalize_display_string (_safe_str_for_value param c))).
Proof.
  induction n as [|n IH]; intros i st Hpos Hbest.
  - cbn [text_scan]. split; [exact Hpos|].
    intros c Hc. destruct (Hbest c Hc) as [j [Hj H]]. exists j. split; [lia | exact H].
  - cbn [text_scan]. destruct st as [[bv bs] be]. cbn [fst snd] in *.
    set (cand := PyFloat.fadd p_min (PyFloat.of_nat i)).
    destruct (_score_display_text_match target_norm
                (normalize_display_string (_safe_str_for_value param cand)))
      as [score exact] eqn:Es.
    assert (Hweak : forall c, bv = Some c ->
              exists j, (j < Datatypes.S i)%nat
                        /\ c = PyFloat.fadd p_min (PyFloat.of_nat j)
                        /\ (0 < bs)%Q
                        /\ (bs, be) = _score_display_text_match target_norm
                                        (normalize_display_string (_safe_str_for_value param c))).
    { intros c Hc. destruct (Hbest c Hc) as [j [Hj H]]. exists j. split; [lia | exact H]. }
    destruct (PyFloat.flt bs score) eqn:Ef.
    + apply flt_true in Ef.
      assert (Hnew : forall c, Some cand = Some c ->
                exists j, (j < Datatypes.S i)%nat
                          /\ c = PyFloat.fadd p_min (PyFloat.of_nat j)
                          /\ (0 < score)%Q
                          /\ (score, exact) = _score_display_text_match target_norm
                                                (normalize_display_string
                                                   (_safe_str_for_value param c))).
      { intros c Hc. injection Hc as <-. exists i. repeat split; [lia | lra | now rewrite Es]. }
      destruct exact.
      * cbn [fst snd]. split; [lra|]. intros c Hc.
        destruct (Hnew c Hc) as [j [Hj H]]. exists j. split; [lia | exact H].
      * specialize (IH (Datatypes.S i) (Some cand, score, false)). cbn [fst snd] in IH.
        replace (i + Datatypes.S n)%nat with (Datatypes.S i + n)%nat by lia.
        apply IH; [lra | exact Hnew].
    + specialize (IH (Datatypes.S i) (bv, bs, be)). cbn [fst snd] in IH.
      replace (i + Datatypes.S n)%nat with (Datatypes.S i + n)%nat by lia.
      apply IH; [exact Hpos | exact Hweak].
Qed.

(** X11.  What a result in the mode [display_text] stands for.  The
    value written is one of the integer steps of the parameter, the
    display of that step scored above zero against the target text, and
    when [exact_match] is true the normalized display of the step is the
    normalized target text. *)
Theorem display_text_result_is_a_matching_step (param param' : Param)
  (text fallback : JSON) (v : Q) (display : option string) (exact : bool) :
  _set_parameter_by_display_text param text fallback
  = (param', ApplyOk ModeDisplayText v display (Some exact)) ->
  param_value param' = v
  /\ display = Some (_safe_str_for_value param v)
  /\ exists i : nat,
       (i < step_count (scan_low param) (scan_high param))%nat
       /\ v = PyFloat.fadd (scan_low param) (PyFloat.of_nat i)
       /\ (0 < step_score param (_normalize_display_text text) i)%Q
       /\ (exact = true ->
           normalize_display_string (_safe_str_for_value param v)
           = _normalize_display_text text).
Proof.
  unfold _set_parameter_by_display_text.
  destruct (PyStr.is_empty _); [discriminate|].
  destruct (negb _); [discriminate|].
  fold (scan_low param) (scan_high param).
  set (steps := step_count (scan_low param) (scan_high param)).
  set (target_norm := _normalize_display_text text).
  destruct (text_scan_keeps_a_step param target_norm (scan_low param) steps 0%nat
              (None, 0%Q, false)) as [Hpos Hbest].
  { cbn. lra. }
  { cbn [fst]. discriminate. }
  destruct (text_scan param target_norm (scan_low param) steps 0 (None, 0%Q, false))
    as [[bv bs] be]. cbn [fst snd] in *.
  assert (Hfallback :
            (if negb (is_none fallback)
             then match _set_parameter_absolute param fallback with
                  | (p2, ApplyOk _ value d _) =>
                      (p2, ApplyOk ModeDisplayTextFallback value d (Some false))
                  | (p2, ApplyError e) => (p2, ApplyError e)
                  end
             else (param, ApplyError MsgNoDisplayMatch))
            <> (param', ApplyOk ModeDisplayText v display (Some exact))).
  { destruct (negb _); [|discriminate].
    destruct (_set_parameter_absolute param fallback) as [p2 [m val d e | e]]; discriminate. }
  destruct bv as [c|]; [|intros H; now elim Hfallback].
  destruct (PyFloat.flt 0 bs); [|intros H; now elim Hfallback].
  destruct (param_refuses param c); [discriminate|].
  intros H. injection H as <- <- <- <-.
  destruct (Hbest c eq_refl) as [j [Hj [Hc [Hs Hm]]]].
  cbn [with_value param_value]. split; [reflexivity|]. split; [reflexivity|].
  exists j. split; [exact Hj|]. split; [exact Hc|].
  unfold step_score. rewrite <- Hc, <- Hm. cbn [fst]. split; [exact Hs|].
  intros ->. symmetry. apply exact_score_is_equality. now rewrite <- Hm.
Qed.

End DisplayTextSound.

Lemma display_text_result_witness :
  param_value (fst (@_set_parameter_by_display_text Fixture.runtime filter_type
                      (JStr "High Pass") JNull)) = 1%Q
  /\ normalize_display_string (@_safe_str_for_value Fixture.runtime filter_type 1)
     = @_normalize_display_text Fixture.runtime (JStr "High Pass").
Proof.
  destruct (@display_text_result_is_a_matching_step Fixture.runtime filter_type
              (fst (@_set_parameter_by_display_text Fixture.runtime filter_type
                      (JStr "High Pass") JNull))
              (JStr "High Pass") JNull 1 (Some "High Pass") true)
    as [Hv [_ [i [_ [_ [_ Hexact]]]]]].
  - apply injective_projections; [reflexivity | vm_compute; reflexivity].
  - split; [exact Hv | now apply Hexact].
Defined.

Lemma clamp_in_range (lo hi v : Q) :
  (lo <= hi)%Q ->
  (lo <= PyFloat.fmax lo (PyFloat.fmin hi v))%Q /\ (PyFloat.fmax lo (PyFloat.fmin hi v) <= hi)%Q.
Proof.
  intros H. destruct (fmax_spec lo (PyFloat.fmin hi v)) as [Ha [Hb Hc]].
  destruct (fmin_spec hi v) as [Hd [He _]].
  split; [exact Ha|]. destruct Hc as [-> | ->]; lra.
Qed.

(** The integer steps of a scan stay inside the range. *)
Lemma step_in_range (lo hi : Q) (j : nat) :
  (lo <= hi)%Q -> (j < step_count lo hi)%nat ->
  (lo <= PyFloat.fadd lo (PyFloat.of_nat j))%Q /\ (PyFloat.fadd lo (PyFloat.of_nat j) <= hi)%Q.
Proof.
  intros Hrange Hj. unfold step_count in Hj.
  set (x := PyFloat.fadd (PyFloat.fsub hi lo) 1) in Hj.
  assert (Hx : (x == hi - lo + 1)%Q) by (unfold x; rewrite fadd_eq, fsub_eq; reflexivity).
  destruct (fmax_spec 1 x) as [H1 [H2 Hm]].
  set (m := PyFloat.fmax 1 x) in *.
  assert (Hmx : (m <= hi - lo + 1)%Q).
  { destruct Hm as [-> | ->]; lra. }
  assert (Hint : PyFloat.to_int m = Qfloor m).
  { unfold PyFloat.to_int. assert (E : PyFloat.flt m 0 = false) by (apply flt_false; lra).
    now rewrite E. }
  rewrite Hint in Hj.
  assert (Hz : (Z.of_nat j + 1 <= Qfloor m)%Z) by lia.
  rewrite Zle_Qle in Hz. rewrite inject_Z_plus in Hz.
  pose proof (Qfloor_le m) as Hfl.
  assert (H0 : (0 <= inject_Z (Z.of_nat j))%Q).
  { change 0%Q with (inject_Z 0). rewrite <- Zle_Qle. lia. }
  rewrite fadd_eq. unfold PyFloat.of_nat.
  change (inject_Z 1) with 1%Q in Hz. split; lra.
Qed.

Section VerifyRange.
Context {py : PyRuntime}.

Lemma verify_scan_in_range (param : Param) (unit : option string) (target lo hi : Q)
  (n : nat) :
  forall (i : nat) (st : Best),
    (lo <= hi)%Q ->
    (i + n <= step_count lo hi)%nat ->
    (lo <= fst st)%Q /\ (fst st <= hi)%Q ->
    (lo <= fst (verify_scan param unit target lo n i st))%Q
    /\ (fst (verify_scan param unit target lo n i st) <= hi)%Q.
Proof.
  induction n as [|n IH]; intros i st Hrange Hn Hst; cbn [verify_scan]; [exact Hst|].
  assert (Hc := step_in_range lo hi i Hrange ltac:(lia)).
  destruct (snd (read_display param unit _)) as [num|].
  - destruct (improves _ _).
    + destruct (PyFloat.flt _ _); [exact Hc|].
      apply IH; [exact Hrange | lia | exact Hc].
    + apply IH; [exact Hrange | lia | exact Hst].
  - apply IH; [exact Hrange | lia | exact Hst].
Qed.

Lemma verify_fallback_in_range (param : Param) (unit : option string) (lo hi : Q)
  (exact : bool) (fallback : JSON) (display : string) :
  (lo <= hi)%Q ->
  (lo <= param_value param)%Q /\ (param_value param <= hi)%Q ->
  (lo <= param_value (fst (fst (verify_fallback param unit lo hi exact fallback display))))%Q
  /\ (param_value (fst (fst (verify_fallback param unit lo hi exact fallback display))) <= hi)%Q.
Proof.
  intros Hrange Hp. unfold verify_fallback.
  destruct (_ && _)%bool; [|exact Hp].
  destruct (py_float fallback) as [f|]; [|exact Hp].
  destruct (param_refuses param _); [exact Hp|].
  cbn [fst with_value param_value]. now apply clamp_in_range.
Qed.

(** X12.  Display-value mode never writes outside the range it searches.
    When [float(min or 0.0) <= float(max or 1.0)], a call that returns a
    success reports the mode [display_verify], reports the value the
    parameter then holds, and that value lies between the two bounds,
    whether it comes from the scan, the bisection or the fallback. *)
Theorem verify_value_in_range (param : Param) (tdv unit fallback : JSON)
  (max_iterations : Z) (tolerance : Q)
  (mode : Mode) (v : Q) (display : option string) (exact : option bool) :
  (scan_low param <= scan_high param)%Q ->
  result_of (_set_parameter_with_verify param tdv unit fallback max_iterations tolerance)
  = Some (ApplyOk mode v display exact) ->
  mode = ModeDisplayVerify
  /\ value_after (_set_parameter_with_verify param tdv unit fallback max_iterations tolerance)
     = Some v
  /\ (scan_low param <= v)%Q /\ (v <= scan_high param)%Q.
Proof.
  intros Hrange. unfold _set_parameter_with_verify.
  destruct (py_float tdv) as [target|]; [|discriminate].
  fold (scan_low param) (scan_high param).
  set (lo := scan_low param) in *. set (hi := scan_high param) in *.
  set (u := _normalize_unit_hint unit).
  assert (Hend : forall (param1 : Param) (d1 : string) (e1 : bool),
            (lo <= param_value param1)%Q /\ (param_value param1 <= hi)%Q ->
            result_of
              (let '(param2, display2, used_fallback) :=
                 verify_fallback param1 u lo hi e1 fallback d1 in
               Returns (param2,
                        ApplyOk ModeDisplayVerify (param_value param2) (Some display2)
                                (Some (e1 && negb used_fallback)%bool)))
            = Some (ApplyOk mode v display exact) ->
            mode = ModeDisplayVerify
            /\ value_after
                 (let '(param2, display2, used_fallback) :=
                    verify_fallback param1 u lo hi e1 fallback d1 in
                  Returns (param2,
                           ApplyOk ModeDisplayVerify (param_value param2) (Some display2)
                                   (Some (e1 && negb used_fallback)%bool)))
               = Some v
            /\ (lo <= v)%Q /\ (v <= hi)%Q).
  { intros param1 d1 e1 Hp1.
    pose proof (verify_fallback_in_range param1 u lo hi e1 fallback d1 Hrange Hp1) as Hfb.
    destruct (verify_fallback param1 u lo hi e1 fallback d1) as [[p2 d2] used].
    cbn [fst result_of value_after] in *. intros H. injection H as <- <- <- <-.
    split; [reflexivity|]. split; [reflexivity | exact Hfb]. }
  destruct (param_is_quantized param).
  - pose proof (verify_scan_in_range param u target lo hi (step_count lo hi) 0%nat (lo, None)
                  Hrange ltac:(lia) ltac:(cbn [fst]; split; lra)) as Hscan.
    destruct (verify_scan param u target lo (step_count lo hi) 0 (lo, None)) as [bv bd].
    cbn [fst] in Hscan. unfold assign.
    destruct (param_refuses param bv); [discriminate|]. cbn [exc_bind].
    destruct (read_display (with_value param bv) u _) as [d1 fnum]. cbn [exc_bind].
    apply Hend. exact Hscan.
  - unfold assign.
    destruct (param_refuses param _); [discriminate|]. cbn [exc_bind].
    destruct (read_display (with_value param _) u _) as [d1 fnum]. cbn [exc_bind].
    apply Hend. cbn [with_value param_value]. now apply clamp_in_range.
Qed.

End VerifyRange.

Lemma verify_value_in_range_witness :
  ModeDisplayVerify = ModeDisplayVerify
  /\ value_after (@_set_parameter_with_verify Fixture.runtime
                    (Fixture.linear_param "Frequency" 2000 "Hz")
                    (JInt 8000) (JStr "hz") (JInt 5) 15 (1 # 1000))
     = Some 1%Q
  /\ (scan_low (Fixture.linear_param "Frequency" 2000 "Hz") <= 1)%Q
  /\ (1 <= scan_high (Fixture.linear_param "Frequency" 2000 "Hz"))%Q.
Proof.
  apply (@verify_value_in_range Fixture.runtime (Fixture.linear_param "Frequency" 2000 "Hz")
           (JInt 8000) (JStr "hz") (JInt 5) 15 (1 # 1000)
           ModeDisplayVerify 1 (Some "00002000 Hz") (Some false)).
  - discriminate.
  - vm_compute. reflexivity.
Defined.


(** ** Searching the catalog *)

Lemma search_stack_sound (t : string) (fuel : nat) :
  forall (stack : list BrowserItem) (visited : list Z) (found : BrowserItem),
    search_stack fuel stack visited t = Some found ->
    answers_to t found = true /\ exists s, In s stack /\ occurs found s.
Proof.
  induction fuel as [|fuel IH]; intros stack visited found; cbn [search_stack]; [discriminate|].
  destruct stack as [|current rest]; [discriminate|].
  destruct (is_visited (item_id current) visited).
  { intros H. destruct (IH _ _ _ H) as [Ha [s [Hin Hocc]]]. split; [exact Ha|].
    exists s. split; [now right | exact Hocc]. }
  fold (answers_to t current). destruct (answers_to t current) eqn:E.
  - intros H. injection H as <-. split; [exact E|].
    exists current. split; [now left | constructor].
  - intros H. destruct (IH _ _ _ H) as [Ha [s [Hin Hocc]]]. split; [exact Ha|].
    apply in_app_or in Hin. destruct Hin as [Hin | Hin].
    + exists current. split; [now left|].
      apply (occurs_below found current s); [now apply in_rev | exact Hocc].
    + exists s. split; [now right | exact Hocc].
Qed.

Lemma search_roots_sound (t : string) (roots : list (option BrowserItem)) (found : BrowserItem) :
  search_roots roots t = Some found ->
  answers_to t found = true /\ exists root, In (Some root) roots /\ occurs found root.
Proof.
  induction roots as [|[root|] roots IH]; cbn [search_roots]; [discriminate| |].
  - destruct (_search_browser_node root t) as [f|] eqn:E.
    + intros H. injection H as <-. unfold _search_browser_node in E.
      destruct (search_stack_sound _ _ _ _ _ E) as [Ha [s [[<- | []] Hocc]]].
      split; [exact Ha|]. exists root. split; [now left | exact Hocc].
    + intros H. destruct (IH H) as [Ha [r [Hin Hocc]]]. split; [exact Ha|].
      exists r. split; [now right | exact Hocc].
  - intros H. destruct (IH H) as [Ha [r [Hin Hocc]]]. split; [exact Ha|].
    exists r. split; [now right | exact Hocc].
Qed.

(** X13.  An item that [_find_browser_device] returns stands in the
    catalog under one of the five roots, is loadable, and its normalized
    name is, or contains, the normalized device name, which is not
    empty. *)
Theorem found_browser_item_answers (browser : Browser) (device_name : string)
  (found : BrowserItem) :
  _find_browser_device browser device_name = Some found ->
  answers_to (_normalize_name device_name) found = true
  /\ item_is_loadable found = true
  /\ _normalize_name device_name <> EmptyString
  /\ exists root, In (Some root) (browser_roots browser) /\ occurs found root.
Proof.
  intros H. apply search_roots_sound in H. destruct H as [Ha Hroot].
  split; [exact Ha|]. unfold answers_to in Ha.
  apply andb_true_iff in Ha. destruct Ha as [Ha Hl]. apply andb_true_iff in Ha.
  destruct Ha as [Hne _]. split; [exact Hl|]. split; [|exact Hroot].
  intros E. rewrite E in Hne. discriminate Hne.
Qed.

Lemma found_browser_item_witness :
  answers_to (_normalize_name "auto filter") (Item "Auto Filter" true [] [] 2 103) = true
  /\ item_is_loadable (Item "Auto Filter" true [] [] 2 103) = true
  /\ _normalize_name "auto filter" <> EmptyString
  /\ exists root, In (Some root) (browser_roots Fixture.catalog)
                  /\ occurs (Item "Auto Filter" true [] [] 2 103) root.
Proof.
  apply (found_browser_item_answers Fixture.catalog "auto filter"). reflexivity.
Defined.

Lemma list_sum_cons (x : nat) (l : list nat) : list_sum (x :: l) = (x + list_sum l)%nat.
Proof. reflexivity. Qed.

Lemma list_sum_rev (l : list nat) : list_sum (rev l) = list_sum l.
Proof.
  induction l as [|x l IH]; [reflexivity|].
  cbn [rev]. rewrite list_sum_app, IH.
  change (list_sum [x]) with (x + 0)%nat. change (list_sum (x :: l)) with (x + list_sum l)%nat.
  lia.
Qed.

Lemma item_size_successors (it : BrowserItem) :
  item_size it = Datatypes.S (list_sum (map item_size (item_successors it))).
Proof.
  destruct it as [name loadable children items handle m].
  cbn [item_size item_successors]. now rewrite map_app, list_sum_app.
Qed.

Lemma nodes_of_successors (it : BrowserItem) :
  nodes_of it = it :: flat_map nodes_of (item_successors it).
Proof.
  destruct it as [name loadable children items handle m].
  cbn [nodes_of item_successors]. now rewrite flat_map_app.
Qed.

Lemma occurs_in_nodes (x root : BrowserItem) : occurs x root -> In x (nodes_of root).
Proof.
  induction 1 as [|node child Hchild _ IH].
  - rewrite nodes_of_successors. now left.
  - rewrite nodes_of_successors. right. apply in_flat_map. now exists child.
Qed.

Lemma is_visited_In (m : Z) (visited : list Z) : is_visited m visited = true <-> In m visited.
Proof.
  unfold is_visited. rewrite existsb_exists. split.
  - intros [y [Hy E]]. apply Z.eqb_eq in E. now subst.
  - intros H. exists m. split; [exact H | apply Z.eqb_refl].
Qed.

Lemma all_distinct_NoDup (l : list Z) : all_distinct l = true -> NoDup l.
Proof.
  induction l as [|x l IH]; cbn [all_distinct]; [constructor|].
  intros H. apply andb_true_iff in H. destruct H as [Hx Hl].
  constructor; [|now apply IH].
  intros Hin. apply is_visited_In in Hin. rewrite Hin in Hx. discriminate Hx.
Qed.

(** The nodes below the stack once its top was looked at and replaced by
    its successors, up to their order. *)
Lemma nodes_after_a_step (current : BrowserItem) (rest : list BrowserItem) :
  Permutation (flat_map nodes_of (rev (item_successors current) ++ rest))
              (flat_map nodes_of (item_successors current) ++ flat_map nodes_of rest).
Proof.
  rewrite flat_map_app. apply Permutation_app_tail.
  apply Permutation_flat_map. apply Permutation_sym, Permutation_rev.
Qed.

(** While the markers of the nodes still to be met are distinct and
    none of them was seen, no node is skipped, so an item that answers
    is reached. *)
Lemma search_stack_complete (t : string) (fuel : nat) :
  forall (stack : list BrowserItem) (visited : list Z),
    (list_sum (map item_size stack) <= fuel)%nat ->
    NoDup (map item_id (flat_map nodes_of stack)) ->
    (forall m, In m visited -> ~ In m (map item_id (flat_map nodes_of stack))) ->
    (exists x, In x (flat_map nodes_of stack) /\ answers_to t x = true) ->
    exists found, search_stack fuel stack visited t = Some found.
Proof.
  induction fuel as [|fuel IH]; intros stack visited Hfuel Hnodup Hfresh [x [Hin Hx]].
  - destruct stack as [|current rest]; [destruct Hin|].
    cbn [map] in Hfuel. rewrite list_sum_cons, item_size_successors in Hfuel. lia.
  - destruct stack as [|current rest]; [destruct Hin|]. cbn [search_stack].
    cbn [flat_map] in Hnodup, Hfresh, Hin.
    rewrite nodes_of_successors in Hnodup, Hfresh, Hin.
    cbn [app map] in Hnodup, Hfresh, Hin.
    destruct (is_visited (item_id current) visited) eqn:Ev.
    { apply is_visited_In in Ev. exfalso. apply (Hfresh _ Ev). now left. }
    fold (answers_to t current). destruct (answers_to t current) eqn:E; [now exists current|].
    pose proof (nodes_after_a_step current rest) as Hperm.
    inversion Hnodup as [|? ? Hhead Htail]; subst.
    apply IH.
    + cbn [map] in Hfuel. rewrite list_sum_cons, item_size_successors in Hfuel.
      rewrite map_app, list_sum_app, map_rev, list_sum_rev. lia.
    + apply (Permutation_NoDup (l := map item_id (flat_map nodes_of (item_successors current)
                                                   ++ flat_map nodes_of rest))); [|exact Htail].
      apply Permutation_map, Permutation_sym, Hperm.
    + intros m Hm Hin'.
      apply (Permutation_in _ (Permutation_map item_id Hperm)) in Hin'.
      destruct Hm as [<- | Hm]; [now apply Hhead|].
      apply (Hfresh _ Hm). now right.
    + exists x. split; [|exact Hx].
      destruct Hin as [<- | Hin]; [congruence|].
      apply (Permutation_in _ (Permutation_sym Hperm)). exact Hin.
Qed.

(** X14.  The search misses nothing when [id()] tells the nodes apart.
    If, under one of the five roots, the catalog holds a loadable item
    whose normalized name is, or contains, the normalized device name
    (not empty), and no two nodes under that root have the same marker,
    then [_find_browser_device] returns an item. *)
Theorem browser_search_is_complete (browser : Browser) (device_name : string)
  (root x : BrowserItem) :
  In (Some root) (browser_roots browser) ->
  occurs x root ->
  answers_to (_normalize_name device_name) x = true ->
  distinct_markers root = true ->
  exists found, _find_browser_device browser device_name = Some found.
Proof.
  intros Hroot Hocc Hx Hd. unfold _find_browser_device. fold (browser_roots browser).
  set (t := _normalize_name device_name) in *.
  induction (browser_roots browser) as [|r roots IH]; [destruct Hroot|].
  cbn [search_roots]. destruct Hroot as [-> | Hroot].
  - destruct (search_stack_complete t (item_size root) [root] []) as [found Hf].
    + cbn [map]. rewrite list_sum_cons. cbn [list_sum fold_right]. lia.
    + cbn [flat_map]. rewrite app_nil_r. now apply all_distinct_NoDup.
    + intros m [].
    + exists x. split; [|exact Hx]. cbn [flat_map]. rewrite app_nil_r.
      now apply occurs_in_nodes.
    + unfold _search_browser_node. rewrite Hf. now exists found.
  - destruct r as [r|]; [|now apply IH].
    destruct (_search_browser_node r t) as [f|]; [now exists f | now apply IH].
Qed.

Lemma browser_search_witness :
  exists found, _find_browser_device Fixture.catalog " LIMITER " = Some found.
Proof.
  apply (browser_search_is_complete Fixture.catalog " LIMITER "
           (Item "" true
              [Item "EQ Eight" true [] [] 0 101; Item "Limiter" true [] [] 1 102;
               Item "Auto Filter" true [] [] 2 103; Item "Ghost Device" true [] [] 3 104]
              [] 99 100)
           (Item "Limiter" true [] [] 1 102)).
  - left. reflexivity.
  - apply (occurs_below _ _ (Item "Limiter" true [] [] 1 102)).
    + right. left. reflexivity.
    + constructor.
  - reflexivity.
  - reflexivity.
Defined.

(** A marker used twice hides a node.  The second child is looked at
    first; the first child has its marker and is skipped, so the search
    for the first child's name finds nothing. *)
Example reused_marker_hides_an_item :
  In (Item "Compressor" true [] [] 1 7) (nodes_of reused_marker_catalog)
  /\ answers_to "compressor" (Item "Compressor" true [] [] 1 7) = true
  /\ distinct_markers reused_marker_catalog = false
  /\ _search_browser_node reused_marker_catalog "compressor" = None.
Proof. split; [right; left; reflexivity | vm_compute; repeat split]. Qed.

(** ** Device aliases *)

Lemma lstrip_head (s : string) :
  PyStr.lstrip s = EmptyString
  \/ exists c r, PyStr.lstrip s = String c r /\ PyStr.is_space c = false.
Proof.
  induction s as [|c s IH]; cbn [PyStr.lstrip]; [now left|].
  destruct (PyStr.is_space c) eqn:E; [exact IH|]. right. now exists c, s.
Qed.

Lemma rstrip_head (c : ascii) (r : string) :
  PyStr.is_space c = false -> exists r', PyStr.rstrip (String c r) = String c r'.
Proof.
  intros Hc. cbn [PyStr.rstrip]. destruct (PyStr.rstrip r) as [|d r'].
  - rewrite Hc. now exists EmptyString.
  - now exists (String d r').
Qed.

Lemma rstrip_idempotent (s : string) : PyStr.rstrip (PyStr.rstrip s) = PyStr.rstrip s.
Proof.
  induction s as [|c s IH]; [reflexivity|]. cbn [PyStr.rstrip].
  destruct (PyStr.rstrip s) as [|d r'] eqn:E.
  - destruct (PyStr.is_space c) eqn:Ec; [reflexivity|].
    cbn [PyStr.rstrip]. now rewrite Ec.
  - change (PyStr.rstrip (String c (String d r')))
      with (match PyStr.rstrip (String d r') with
            | EmptyString => if PyStr.is_space c then EmptyString else String c EmptyString
            | r => String c r
            end).
    now rewrite IH.
Qed.

Lemma strip_idempotent (s : string) : PyStr.strip (PyStr.strip s) = PyStr.strip s.
Proof.
  unfold PyStr.strip. destruct (lstrip_head s) as [-> | [c [r [-> Hc]]]]; [reflexivity|].
  destruct (rstrip_head c r Hc) as [r' E].
  rewrite E at 1. cbn [PyStr.lstrip]. rewrite Hc, <- E. apply rstrip_idempotent.
Qed.

Lemma device_alias_values (key canonical : string) :
  assoc_get _DEVICE_ALIASES key = Some canonical ->
  In canonical ["EQ Eight"; "Compressor"; "Glue Compressor"; "Limiter"; "Auto Filter";
                "Utility"; "Reverb"; "Delay"].
Proof.
  unfold _DEVICE_ALIASES. cbn [assoc_get].
  repeat match goal with
         | |- context [String.eqb ?a key] => destruct (String.eqb a key)
         end;
    intros H; try discriminate H; injection H as <-; cbn; tauto.
Qed.

(** X15.  [_resolve_device_alias] gives a name that it maps to itself: a
    canonical name of the alias table is its own alias, and a name that
    is no alias comes back stripped, which stripping again leaves as it
    is.  Resolving twice is resolving once. *)
Theorem device_alias_is_idempotent (device_name : string) :
  _resolve_device_alias (_resolve_device_alias device_name)
  = _resolve_device_alias device_name.
Proof.
  set (r := _resolve_device_alias device_name).
  assert (Hr : (exists key, assoc_get _DEVICE_ALIASES key = Some r)
               \/ (r = PyStr.strip device_name
                   /\ assoc_get _DEVICE_ALIASES (PyStr.lower (PyStr.strip device_name)) = None)).
  { unfold r, _resolve_device_alias.
    destruct (assoc_get _DEVICE_ALIASES (PyStr.lower (PyStr.strip device_name))) eqn:E.
    - left. eexists. exact E.
    - now right. }
  destruct Hr as [[key E] | [Hr E]].
  - apply device_alias_values in E. cbn [In] in E.
    repeat (destruct E as [<- | E]; [reflexivity|]). destruct E.
  - rewrite Hr. unfold _resolve_device_alias. rewrite strip_idempotent, E. reflexivity.
Qed.

(** ** Seconds and milliseconds *)

(** X16.  How the two time hints read a display.  The lower-cased
    display decides: when it holds "ms", the hint "ms" returns the
    number as it is and the hint "s" divides it by 1000; when it holds
    "sec" and no "ms", the hint "s" returns the number as it is and the
    hint "ms" multiplies it by 1000; when it holds neither, as "2.5 s"
    does, both hints return the number as it is.  So one conversion at
    most scales the number, by one operation. *)
Theorem time_hints_follow_the_display (n : Q) (display : string) :
  (PyStr.contains "ms" (PyStr.lower display) = true ->
   _convert_display_number_for_unit (Some n) (Some display) (Some "ms") = Some n
   /\ _convert_display_number_for_unit (Some n) (Some display) (Some "s")
      = Some (PyFloat.fdiv n 1000))
  /\ (PyStr.contains "ms" (PyStr.lower display) = false ->
      PyStr.contains "sec" (PyStr.lower display) = true ->
      _convert_display_number_for_unit (Some n) (Some display) (Some "ms")
      = Some (PyFloat.fmul n 1000)
      /\ _convert_display_number_for_unit (Some n) (Some display) (Some "s") = Some n)
  /\ (PyStr.contains "ms" (PyStr.lower display) = false ->
      PyStr.contains "sec" (PyStr.lower display) = false ->
      _convert_display_number_for_unit (Some n) (Some display) (Some "ms") = Some n
      /\ _convert_display_number_for_unit (Some n) (Some display) (Some "s") = Some n).
Proof.
  unfold _convert_display_number_for_unit.
  cbn [PyStr.is_empty String.eqb Ascii.eqb Bool.eqb andb].
  split; [|split].
  - intros ->. now split.
  - intros -> ->. now split.
  - intros -> Hsec. rewrite Hsec. cbn [orb].
    destruct (PyStr.contains "seconds" (PyStr.lower display)) eqn:E; [|now split].
    exfalso. clear - Hsec E.
    induction (PyStr.lower display) as [|c s IH]; [discriminate E|].
    cbn [PyStr.contains] in Hsec, E.
    apply orb_false_iff in Hsec. destruct Hsec as [Hhere Hrest].
    apply orb_true_iff in E. destruct E as [E | E]; [|now apply IH].
    cbn [PyStr.starts_with] in Hhere, E.
    destruct (Ascii.eqb "s" c); [|discriminate E]. cbn [andb] in Hhere, E.
    destruct s as [|c1 s]; [discriminate E|].
    destruct (Ascii.eqb "e" c1); [|discriminate E]. cbn [andb] in Hhere, E.
    destruct s as [|c2 s]; [discriminate E|].
    destruct (Ascii.eqb "c" c2); [|discriminate E]. cbn [andb] in Hhere, E.
    destruct s; discriminate Hhere.
Qed.

Lemma time_hints_witness :
  (_convert_display_number_for_unit (Some (250 # 1)) (Some "250 ms") (Some "ms") = Some (250 # 1)
   /\ _convert_display_number_for_unit (Some (250 # 1)) (Some "250 ms") (Some "s")
      = Some (PyFloat.fdiv (250 # 1) 1000))
  /\ (_convert_display_number_for_unit (Some (5 # 2)) (Some "2.50 s") (Some "ms") = Some (5 # 2)
      /\ _convert_display_number_for_unit (Some (5 # 2)) (Some "2.50 s") (Some "s")
         = Some (5 # 2)).
Proof.
  destruct (time_hints_follow_the_display (250 # 1) "250 ms") as [H1 _].
  destruct (time_hints_follow_the_display (5 # 2) "2.50 s") as [_ [_ H3]].
  split; [apply H1 | apply H3]; reflexivity.
Defined.


(** ** Applying a list of updates *)

Section UpdateAccounting.
Context {py : PyRuntime}.

Lemma apply_loop_counts (updates : list JSON) :
  forall (device device' : Device) (applied : list Applied) (unmatched : list string)
         (warnings : list Msg) (r : UpdatesResult),
    apply_loop device updates applied unmatched warnings = Returns (device', r) ->
    exists applied' unmatched' warnings',
      r = UpdatesOk applied' unmatched' warnings'
      /\ (List.length applied' + List.length unmatched'
          = List.length applied + List.length unmatched + List.length updates)%nat
      /\ (List.length warnings' + List.length unmatched
          <= List.length unmatched' + List.length warnings)%nat.
Proof.
  induction updates as [|update rest IH]; intros device device' applied unmatched warnings r;
    cbn [apply_loop].
  - intros H. injection H as _ <-. exists applied, unmatched, warnings.
    split; [reflexivity|]. cbn [List.length]. lia.
  - destruct (apply_one device update) as [[d1 outcome]|exc]; cbn [exc_bind]; [|discriminate].
    destruct outcome as [entry | name warning]; intros H; apply IH in H;
      destruct H as [a' [u' [w' [-> [H1 H2]]]]]; exists a', u', w';
      (split; [reflexivity|]); rewrite ?length_app in *; cbn [List.length] in *.
    + lia.
    + destruct warning; rewrite ?length_app in *; cbn [List.length] in *; lia.
Qed.

(** X17.  Every update of a list is accounted for once.  When
    [_apply_parameter_updates] returns on a list, the result is a
    success whose [parameters_applied] and [unmatched_parameters]
    together have as many entries as the list has updates, with at most
    one warning per unmatched entry; no update aborts the others. *)
Theorem every_update_is_accounted_for (device device' : Device) (updates : list JSON)
  (r : UpdatesResult) :
  _apply_parameter_updates device (JArr updates) = Returns (device', r) ->
  exists applied unmatched warnings,
    r = UpdatesOk applied unmatched warnings
    /\ (List.length applied + List.length unmatched = List.length updates)%nat
    /\ (List.length warnings <= List.length unmatched)%nat.
Proof.
  cbn [_apply_parameter_updates]. intros H. apply apply_loop_counts in H.
  destruct H as [a [u [w [-> [H1 H2]]]]]. exists a, u, w. cbn [List.length] in *.
  split; [reflexivity|]. lia.
Qed.

End UpdateAccounting.

Lemma every_update_witness :
  exists applied unmatched warnings,
    snd (match @_apply_parameter_updates Fixture.runtime Fixture.limiter
                 (dict_get limiter_step "parameter_updates") with
         | Returns x => x
         | Raises _ => (Fixture.limiter, UpdatesError MsgParameterUpdateFailed)
         end)
    = UpdatesOk applied unmatched warnings
    /\ (List.length applied + List.length unmatched = 2)%nat
    /\ (List.length warnings <= List.length unmatched)%nat.
Proof.
  apply (@every_update_is_accounted_for Fixture.runtime Fixture.limiter
           (fst (match @_apply_parameter_updates Fixture.runtime Fixture.limiter
                         (dict_get limiter_step "parameter_updates") with
                 | Returns x => x
                 | Raises _ => (Fixture.limiter, UpdatesError MsgParameterUpdateFailed)
                 end))
           [JObj [("param_name", JStr "Gain"); ("value", JFloat (2 # 5))];
            JObj [("param_name", JStr "DoesNotExist"); ("value", JFloat (1 # 5))]]).
  reflexivity.
Defined.

Lemma same_but_value_refl (p : Param) : same_but_value p p.
Proof. destruct p. reflexivity. Qed.

Lemma same_but_value_write (p : Param) (v : Q) : same_but_value p (with_value p v).
Proof. reflexivity. Qed.

Lemma same_but_value_trans (p q r : Param) :
  same_but_value p q -> same_but_value q r -> same_but_value p r.
Proof. unfold same_but_value. intros -> ->. reflexivity. Qed.

Lemma same_but_values_refl (d : Device) : same_but_values d d.
Proof.
  repeat split. induction (device_parameters d) as [|p ps IH]; constructor;
    [apply same_but_value_refl | exact IH].
Qed.

Lemma same_but_values_trans (a b c : Device) :
  same_but_values a b -> same_but_values b c -> same_but_values a c.
Proof.
  intros [H1 [H2 [H3 H4]]] [G1 [G2 [G3 G4]]]. repeat split; try congruence.
  revert G4. generalize (device_parameters c). induction H4 as [|p q ps qs Hpq _ IH];
    intros rs G4; inversion G4; subst; constructor.
  - eapply same_but_value_trans; eauto.
  - now apply IH.
Qed.

Lemma same_but_values_replace (d : Device) (i : nat) (p p' : Param) :
  nth_error (device_parameters d) i = Some p ->
  same_but_value p p' ->
  same_but_values d (replace_param d i p').
Proof.
  intros Hi Hp. repeat split. cbn [replace_param device_parameters].
  revert i Hi. induction (device_parameters d) as [|q ps IH]; intros i Hi;
    [destruct i; discriminate|].
  destruct i as [|i]; cbn [nth_error list_set] in *.
  - injection Hi as ->. constructor; [exact Hp|].
    clear. induction ps; constructor; [apply same_but_value_refl | assumption].
  - constructor; [apply same_but_value_refl | now apply IH].
Qed.

Section OnlyValuesChange.
Context {py : PyRuntime}.

Lemma absolute_writes_a_value (param param' : Param) (value : JSON) (r : ApplyResult) :
  _set_parameter_absolute param value = (param', r) -> same_but_value param param'.
Proof.
  unfold _set_parameter_absolute. destruct (py_float value).
  - destruct (param_refuses param _); intros H; injection H as <- _;
      [apply same_but_value_refl | apply same_but_value_write].
  - intros H. injection H as <- _. apply same_but_value_refl.
Qed.

Lemma display_text_writes_a_value (param param' : Param) (text fallback : JSON)
  (r : ApplyResult) :
  _set_parameter_by_display_text param text fallback = (param', r) ->
  same_but_value param param'.
Proof.
  unfold _set_parameter_by_display_text.
  destruct (PyStr.is_empty _); [intros H; injection H as <- _; apply same_but_value_refl|].
  destruct (negb _); [intros H; injection H as <- _; apply same_but_value_refl|].
  destruct (text_scan _ _ _ _ _ _) as [[bv bs] be].
  assert (Hfb : (if negb (is_none fallback)
                 then match _set_parameter_absolute param fallback with
                      | (p2, ApplyOk _ value d _) =>
                          (p2, ApplyOk ModeDisplayTextFallback value d (Some false))
                      | (p2, ApplyError e) => (p2, ApplyError e)
                      end
                 else (param, ApplyError MsgNoDisplayMatch)) = (param', r) ->
                same_but_value param param').
  { destruct (negb _); [|intros H; injection H as <- _; apply same_but_value_refl].
    destruct (_set_parameter_absolute param fallback) as [p2 r2] eqn:E.
    apply absolute_writes_a_value in E.
    destruct r2; intros H; injection H as <- _; exact E. }
  destruct bv as [c|]; [|exact Hfb].
  destruct (PyFloat.flt 0 bs); [|exact Hfb].
  destruct (param_refuses param c); intros H; injection H as <- _;
    [apply same_but_value_refl | apply same_but_value_write].
Qed.

Lemma verify_fallback_writes_a_value (param : Param) unit lo hi exact fallback display :
  same_but_value param (fst (fst (verify_fallback param unit lo hi exact fallback display))).
Proof.
  unfold verify_fallback. destruct (_ && _)%bool; [|apply same_but_value_refl].
  destruct (py_float fallback); [|apply same_but_value_refl].
  destruct (param_refuses param _); [apply same_but_value_refl | apply same_but_value_write].
Qed.

Lemma verify_writes_a_value (param param' : Param) (tdv unit fallback : JSON)
  (max_iterations : Z) (tolerance : Q) (r : ApplyResult) :
  _set_parameter_with_verify param tdv unit fallback max_iterations tolerance
  = Returns (param', r) ->
  same_but_value param param'.
Proof.
  unfold _set_parameter_with_verify.
  destruct (py_float tdv); [|intros H; injection H as <- _; apply same_but_value_refl].
  assert (Hend : forall (param1 : Param) (d1 : string) (e1 : bool) lo hi u,
            same_but_value param param1 ->
            (let '(param2, display2, used_fallback) :=
               verify_fallback param1 u lo hi e1 fallback d1 in
             Returns (param2,
                      ApplyOk ModeDisplayVerify (param_value param2) (Some display2)
                              (Some (e1 && negb used_fallback)%bool)))
            = Returns (param', r) ->
            same_but_value param param').
  { intros param1 d1 e1 lo hi u H1.
    pose proof (verify_fallback_writes_a_value param1 u lo hi e1 fallback d1) as H2.
    destruct (verify_fallback param1 u lo hi e1 fallback d1) as [[p2 d2] used].
    cbn [fst] in H2. intros H. injection H as <- _.
    eapply same_but_value_trans; eauto. }
  destruct (param_is_quantized param).
  - destruct (verify_scan _ _ _ _ _ _ _) as [bv bd]. unfold assign.
    destruct (param_refuses param bv); [discriminate|]. cbn [exc_bind].
    destruct (read_display _ _ _) as [d1 fnum]. cbn [exc_bind].
    apply Hend. apply same_but_value_write.
  - unfold assign. destruct (param_refuses param _); [discriminate|]. cbn [exc_bind].
    destruct (read_display _ _ _) as [d1 fnum]. cbn [exc_bind].
    apply Hend. apply same_but_value_write.
Qed.

Lemma apply_one_writes_values (device device' : Device) (update : JSON)
  (outcome : UpdateOutcome) :
  apply_one device update = Returns (device', outcome) -> same_but_values device device'.
Proof.
  unfold apply_one.
  destruct update as [| | | | | |fields];
    try (intros H; injection H as <- _; apply same_but_values_refl).
  destruct (_resolve_parameter device fields) as [i|];
    [|intros H; injection H as <- _; apply same_but_values_refl].
  destruct (nth_error (device_parameters device) i) as [target|] eqn:Hi;
    [|intros H; injection H as <- _; apply same_but_values_refl].
  unfold apply_mode.
  assert (Hrun : forall (run : Exc (Param * ApplyResult)),
            (forall p' r', run = Returns (p', r') -> same_but_value target p') ->
            ('(param', apply_res) <- run ;;
             let device1 := replace_param device i param' in
             match apply_res with
             | ApplyError e =>
                 Returns (device1, OutUnmatched (param_name param') (Some (error_or_default e)))
             | ApplyOk mode value display exact =>
                 Returns (device1,
                          OutApplied (mkApplied (param_name param') value display mode exact))
             end) = Returns (device', outcome) ->
            same_but_values device device').
  { intros run Hr. destruct run as [[p' r']|exc]; cbn [exc_bind]; [|discriminate].
    specialize (Hr p' r' eq_refl).
    destruct r'; intros H; injection H as <- _; now apply (same_but_values_replace _ _ target). }
  destruct (dict_has fields "target_display_text").
  { apply Hrun. intros p' r' H. injection H as H. now apply display_text_writes_a_value in H. }
  destruct (dict_has fields "target_display_value").
  { apply Hrun. intros p' r' H. now apply verify_writes_a_value in H. }
  destruct (dict_has fields "value").
  { apply Hrun. intros p' r' H. injection H as H. now apply absolute_writes_a_value in H. }
  intros H. injection H as <- _. apply same_but_values_refl.
Qed.

Lemma apply_loop_writes_values (updates : list JSON) :
  forall (device device' : Device) applied unmatched warnings (r : UpdatesResult),
    apply_loop device updates applied unmatched warnings = Returns (device', r) ->
    same_but_values device device'.
Proof.
  induction updates as [|update rest IH]; intros device device' applied unmatched warnings r;
    cbn [apply_loop].
  - intros H. injection H as <- _. apply same_but_values_refl.
  - destruct (apply_one device update) as [[d1 outcome]|exc] eqn:E; cbn [exc_bind];
      [|discriminate].
    apply apply_one_writes_values in E.
    destruct outcome; intros H; apply IH in H; eapply same_but_values_trans; eauto.
Qed.

(** X18.  Applying updates only ever writes values.  The device that
    [_apply_parameter_updates] leaves has the name, the class and the
    parameters of the device it was given, parameter by parameter the
    same but for the value held: no parameter is added, removed,
    renamed or given other bounds. *)
Theorem updates_only_write_values (device device' : Device) (parameter_updates : JSON)
  (r : UpdatesResult) :
  _apply_parameter_updates device parameter_updates = Returns (device', r) ->
  same_but_values device device'
  /\ map param_name (device_parameters device') = map param_name (device_parameters device)
  /\ List.length (device_parameters device') = List.length (device_parameters device).
Proof.
  intros H.
  assert (Hs : same_but_values device device').
  { unfold _apply_parameter_updates in H.
    destruct parameter_updates; try (injection H as <- _; apply same_but_values_refl);
      now apply apply_loop_writes_values in H. }
  split; [exact Hs|]. destruct Hs as [_ [_ [_ Hps]]].
  induction Hps as [|p q ps qs Hpq _ [IH1 IH2]]; [split; reflexivity|].
  cbn [map List.length]. rewrite IH1, IH2. rewrite Hpq. split; reflexivity.
Qed.

End OnlyValuesChange.

Lemma updates_only_write_values_witness :
  map param_name
      (device_parameters
         (fst (match @_apply_parameter_updates Fixture.runtime Fixture.limiter
                       (dict_get limiter_step "parameter_updates") with
               | Returns x => x
               | Raises _ => (Fixture.limiter, UpdatesError MsgParameterUpdateFailed)
               end)))
  = ["Ceiling"; "Gain"].
Proof.
  destruct (@updates_only_write_values Fixture.runtime Fixture.limiter
              (fst (match @_apply_parameter_updates Fixture.runtime Fixture.limiter
                            (dict_get limiter_step "parameter_updates") with
                    | Returns x => x
                    | Raises _ => (Fixture.limiter, UpdatesError MsgParameterUpdateFailed)
                    end))
              (dict_get limiter_step "parameter_updates")
              (snd (match @_apply_parameter_updates Fixture.runtime Fixture.limiter
                            (dict_get limiter_step "parameter_updates") with
                    | Returns x => x
                    | Raises _ => (Fixture.limiter, UpdatesError MsgParameterUpdateFailed)
                    end)))
    as [_ [H _]].
  - reflexivity.
  - exact H.
Defined.


(** ** Updating the devices of a track *)

Section ExistingDeviceSound.
Context {S : Type} {py : PyRuntime}.

(** X19.  The device that [_resolve_existing_device] returns is the
    device of the track at the index returned with it; when it was
    selected by name, its normalized name equals, contains or is
    contained in the normalized [device_name]. *)
Theorem existing_device_is_on_the_track (w : World S) (track : TrackId)
  (item : list (string * JSON)) (d : DeviceId) (i : nat) :
  _resolve_existing_device w track item = inl (d, i) ->
  nth_error (devices_of_track w track) i = Some d
  /\ (is_none (dict_get item "device_index") = true ->
      In (i, d) (existing_matches w (devices_of_track w track)
                   (_normalize_name (str_or_empty (dict_get item "device_name"))))).
Proof.
  unfold _resolve_existing_device.
  destruct (devices_of_track w track) as [|d0 ds] eqn:Ed; [discriminate|].
  destruct (_ && _)%bool; [discriminate|].
  destruct (negb (negb (is_none (dict_get item "device_name"))) && _)%bool; [discriminate|].
  destruct (is_none (dict_get item "device_index")) eqn:Ei; cbn [negb].
  - set (query := _normalize_name _).
    destruct (PyStr.is_empty query); [discriminate|].
    destruct (existing_matches w (d0 :: ds) query) as [|first rest] eqn:Em; [discriminate|].
    destruct (py_int _) as [occ|]; [|discriminate].
    destruct (_ || _)%bool; [discriminate|].
    assert (Hin : In (nth (Z.to_nat occ) (first :: rest) first) (first :: rest)).
    { destruct (Nat.lt_ge_cases (Z.to_nat occ) (List.length (first :: rest))) as [H | H].
      - now apply nth_In.
      - rewrite nth_overflow by exact H. now left. }
    destruct (nth (Z.to_nat occ) (first :: rest) first) as [index device].
    intros H. injection H as <- <-.
    split; [|intros _; exact Hin].
    rewrite <- Em in Hin. unfold existing_matches in Hin. apply filter_In in Hin. now apply in_enumerate.
  - destruct (py_int _) as [idx|]; [|discriminate].
    destruct (_ || _)%bool; [discriminate|].
    destruct (nth_error (d0 :: ds) (Z.to_nat idx)) as [d'|] eqn:En; [|discriminate].
    intros H. injection H as <- <-. split; [exact En | discriminate].
Qed.

End ExistingDeviceSound.

Lemma existing_device_witness :
  nth_error (@devices_of_track unit two_devices 0%nat) 1 = Some 1%nat
  /\ (is_none (dict_get [("device_name", JStr "limit")] "device_index") = true ->
      In (1%nat, 1%nat)
         (@existing_matches unit two_devices (@devices_of_track unit two_devices 0%nat)
            (_normalize_name
               (@str_or_empty Fixture.runtime
                  (dict_get [("device_name", JStr "limit")] "device_name"))))).
Proof.
  apply (@existing_device_is_on_the_track unit Fixture.runtime two_devices 0%nat
           [("device_name", JStr "limit")] 1%nat 1%nat).
  reflexivity.
Defined.

Lemma forall2_list_set {A : Type} (R : A -> A -> Prop) (l : list A) (i : nat) (x : A) :
  (forall a, R a a) ->
  (forall y, nth_error l i = Some y -> R y x) ->
  Forall2 R l (list_set l i x).
Proof.
  intros Hrefl. revert i. induction l as [|a l IH]; intros i Hi; [constructor|].
  destruct i as [|i]; cbn [list_set].
  - constructor; [now apply Hi|]. clear - Hrefl. induction l; constructor; auto.
  - constructor; [apply Hrefl | apply IH; intros y Hy; now apply Hi].
Qed.

Lemma same_chain_refl {S : Type} (w : World S) : same_chain w w.
Proof.
  repeat split. induction (device_objects w); constructor;
    [apply same_but_values_refl | assumption].
Qed.

Lemma same_chain_trans {S : Type} (a b c : World S) :
  same_chain a b -> same_chain b c -> same_chain a c.
Proof.
  intros [H1 [H2 [H3 [H4 [H5 H6]]]]] [G1 [G2 [G3 [G4 [G5 G6]]]]].
  repeat split; try congruence.
  revert G6. generalize (device_objects c). induction H6 as [|p q ps qs Hpq _ IH];
    intros rs G6; inversion G6; subst; constructor.
  - eapply same_but_values_trans; eauto.
  - now apply IH.
Qed.

Lemma same_chain_put_device {S : Type} (w : World S) (d : DeviceId) (device' : Device) :
  same_but_values (device_of w d) device' -> same_chain w (put_device w d device').
Proof.
  intros H. repeat split. cbn [put_device device_objects].
  apply forall2_list_set; [apply same_but_values_refl|].
  intros y Hy. unfold device_of, get_device in H. now rewrite Hy in H.
Qed.

Section DeviceUpdateProperties.
Context {S : Type} {py : PyRuntime}.

Lemma run_update_frame (w w' : World S) (track : TrackId) (idx : nat) (item : JSON)
  (outcome : UpdateResult * list Msg + UpdateError) :
  run_update w track idx item = Returns (w', outcome) ->
  same_chain w w'
  /\ match outcome with
     | inl (r, _) => ur_update_index r = idx
     | inr e => failed_update e = Some idx
     end.
Proof.
  unfold run_update.
  destruct item as [| | | | | |fields];
    try (intros H; injection H as <- <-; split; [apply same_chain_refl | reflexivity]).
  destruct (_resolve_existing_device w track fields) as [[d di]|e];
    [|intros H; injection H as <- <-; split; [apply same_chain_refl | reflexivity]].
  destruct (_apply_parameter_updates (device_of w d) _) as [[device' r]|exc] eqn:E;
    cbn [exc_bind]; [|discriminate].
  assert (Hs : same_but_values (device_of w d) device').
  { unfold _apply_parameter_updates in E.
    destruct (dict_get fields "parameter_updates");
      try (injection E as <- _; apply same_but_values_refl);
      now apply apply_loop_writes_values in E. }
  destruct r; intros H; injection H as <- <-;
    (split; [now apply same_chain_put_device | reflexivity]).
Qed.

Lemma run_updates_shape (track : TrackId) (track_index : Z) (items : list JSON) :
  forall (w w' : World S) (idx : nat) (results : list UpdateResult) (warnings : list Msg)
         (payload : UpdatePayload),
    List.length results = idx ->
    (forall k r, nth_error results k = Some r -> ur_update_index r = k) ->
    run_updates w track track_index items idx results warnings = Returns (w', payload) ->
    same_chain w w'
    /\ match payload with
       | UpdateDone _ results' _ =>
           List.length results' = (idx + List.length items)%nat
           /\ (forall k r, nth_error results' k = Some r -> ur_update_index r = k)
       | UpdateFailed e (Some (_, results')) =>
           failed_update e = Some (List.length results')
           /\ (List.length results' < idx + List.length items)%nat
           /\ (forall k r, nth_error results' k = Some r -> ur_update_index r = k)
       | UpdateFailed _ None => False
       end.
Proof.
  induction items as [|item rest IH]; intros w w' idx results warnings payload Hlen Hidx;
    cbn [run_updates].
  - intros H. injection H as <- <-. split; [apply same_chain_refl|].
    cbn [List.length]. split; [lia | exact Hidx].
  - destruct (run_update w track idx item) as [[w1 outcome]|exc] eqn:E; cbn [exc_bind];
      [|discriminate].
    apply run_update_frame in E. destruct E as [Hf Ho].
    destruct outcome as [[r ws]|e].
    + intros H. apply IH in H.
      * destruct H as [Hf' Hp]. split; [eapply same_chain_trans; eauto|].
        cbn [List.length]. replace (idx + Datatypes.S (List.length rest))%nat
          with (Datatypes.S idx + List.length rest)%nat by lia. exact Hp.
      * rewrite length_app. cbn [List.length]. lia.
      * intros k r' Hk. destruct (Nat.lt_ge_cases k (List.length results)) as [Hlt | Hge].
        -- rewrite nth_error_app1 in Hk by exact Hlt. now apply Hidx.
        -- rewrite nth_error_app2 in Hk by exact Hge.
           destruct (k - List.length results)%nat as [|m] eqn:Em; cbn [nth_error] in Hk.
           ++ injection Hk as <-. lia.
           ++ destruct m; discriminate Hk.
    + intros H. injection H as <- <-. split; [exact Hf|].
      split; [congruence|]. split; [cbn [List.length]; lia | exact Hidx].
Qed.

(** X20.  [update_device_parameters] leaves the chain as it is.  In the
    world a returned call leaves, the tracks and their device lists, the
    song's track list, the selection and the browser are those of
    before, and every device is the same but for the values of its
    parameters: no device is loaded, moved or renamed, no track is
    selected. *)
Theorem updates_leave_the_chain (w w' : World S) (updates target : JSON)
  (payload : UpdatePayload) :
  update_device_parameters w updates target = Returns (w', payload) ->
  same_chain w w'.
Proof.
  unfold update_device_parameters.
  destruct updates as [| | | | |[|item items]|];
    try (intros H; injection H as <- _; apply same_chain_refl).
  destruct (_resolve_track_target w target) as [[track track_index]|e];
    [|intros H; injection H as <- _; apply same_chain_refl].
  intros H. apply run_updates_shape in H; [now destruct H | reflexivity|].
  intros [|k] r Hk; discriminate Hk.
Qed.

(** X21.  The shape of what [update_device_parameters] returns.  On
    success [updates_executed] has one entry per update; on a failure
    inside the loop it holds the entries of the updates before the one
    the error names, which is the first not executed; a failure before
    the loop leaves the world untouched.  In every case the entry at
    position [k] has [update_index = k]. *)
Theorem update_results_are_in_order (w w' : World S) (items : list JSON) (target : JSON)
  (payload : UpdatePayload) :
  update_device_parameters w (JArr items) target = Returns (w', payload) ->
  match payload with
  | UpdateDone _ results _ =>
      List.length results = List.length items
      /\ (forall k r, nth_error results k = Some r -> ur_update_index r = k)
  | UpdateFailed e (Some (_, results)) =>
      failed_update e = Some (List.length results)
      /\ (List.length results < List.length items)%nat
      /\ (forall k r, nth_error results k = Some r -> ur_update_index r = k)
  | UpdateFailed e None => failed_update e = None /\ w' = w
  end.
Proof.
  unfold update_device_parameters.
  destruct items as [|item items]; [intros H; injection H as <- <-; now split|].
  destruct (_resolve_track_target w target) as [[track track_index]|e];
    [|intros H; injection H as <- <-; now split].
  intros H. apply run_updates_shape in H; [|reflexivity|intros [|k] r Hk; discriminate Hk].
  destruct H as [_ H]. destruct payload as [tp results ws | e [[tp results]|]];
    [exact H | exact H | destruct H].
Qed.

End DeviceUpdateProperties.

Lemma updates_leave_the_chain_witness : same_chain two_devices world_after_update.
Proof.
  apply (@updates_leave_the_chain unit Fixture.runtime two_devices world_after_update
           (JArr limiter_update) JNull payload_after_update).
  reflexivity.
Defined.

Lemma update_results_witness :
  List.length (updates_of limiter_update_run) = List.length limiter_update.
Proof.
  pose proof (@update_results_are_in_order unit Fixture.runtime two_devices world_after_update
                limiter_update JNull payload_after_update eq_refl) as H.
  exact (proj1 H).
Defined.

Section InspectionAfterUpdates.
Context {S : Type} {py : PyRuntime}.
Variable default_value : Param -> option Q.

Lemma same_chain_device_names (w w' : World S) (d : DeviceId) :
  same_chain w w' ->
  device_name (device_of w' d) = device_name (device_of w d)
  /\ _device_class_name (device_of w' d) = _device_class_name (device_of w d).
Proof.
  intros [_ [_ [_ [_ [_ H]]]]]. unfold device_of, get_device.
  revert d. induction H as [|a b l l' Hab _ IH]; intros d.
  - destruct d; split; reflexivity.
  - destruct d as [|d]; cbn [nth_error]; [|apply IH].
    destruct Hab as [H1 [H2 [H3 _]]]. unfold _device_class_name.
    rewrite H1, H2, H3. split; reflexivity.
Qed.

Lemma same_chain_targets (w w' : World S) (target : JSON) :
  same_chain w w' -> _resolve_track_target w' target = _resolve_track_target w target.
Proof.
  intros [H1 [H2 [H3 _]]].
  destruct w as [t d s sel b h], w' as [t' d' s' sel' b' h'].
  cbn [track_objects song_tracks selected_track] in *. subst t' s' sel'. reflexivity.
Qed.

Lemma same_chain_devices_of_track (w w' : World S) (track : TrackId) :
  same_chain w w' ->
  devices_of_track w' track = devices_of_track w track
  /\ name_of_track w' track = name_of_track w track.
Proof.
  intros [H1 _]. unfold devices_of_track, name_of_track, get_track. now rewrite H1.
Qed.

(** X22.  Updating parameters does not change what an inspection
    without parameters reports: after a returned call of
    [update_device_parameters], [inspect_track_chain] with
    [include_parameters] false gives, for every target, the track and
    the devices (index, name, class) it gave before. *)
Theorem inspection_survives_updates (w w' : World S) (updates target : JSON)
  (payload : UpdatePayload) :
  update_device_parameters w updates target = Returns (w', payload) ->
  forall inspected : JSON,
    inspect_track_chain default_value w' inspected (JBool false)
    = inspect_track_chain default_value w inspected (JBool false).
Proof.
  intros H inspected.
  assert (Hs : same_chain w w').
  { revert H. unfold update_device_parameters.
    destruct updates as [| | | | |[|item items]|];
      try (intros H; injection H as <- _; apply same_chain_refl).
    destruct (_resolve_track_target w target) as [[track track_index]|e];
      [|intros H; injection H as <- _; apply same_chain_refl].
    intros H. apply run_updates_shape in H; [now destruct H | reflexivity|].
    intros [|k] r Hk; discriminate Hk. }
  unfold inspect_track_chain. rewrite (same_chain_targets w w' inspected Hs).
  destruct (_resolve_track_target w inspected) as [[track track_index]|e]; [|reflexivity].
  destruct (same_chain_devices_of_track w w' track Hs) as [-> ->].
  f_equal. f_equal. apply map_ext. intros [k d]. cbn [fst snd truthy].
  destruct (same_chain_device_names w w' d Hs) as [-> ->]. reflexivity.
Qed.

End InspectionAfterUpdates.

Lemma inspection_survives_updates_witness :
  @inspect_track_chain unit Fixture.runtime (fun _ => None) world_after_update
    (JObj [("track_name", JStr "bass")]) (JBool false)
  = @inspect_track_chain unit Fixture.runtime (fun _ => None) two_devices
      (JObj [("track_name", JStr "bass")]) (JBool false).
Proof.
  apply (@inspection_survives_updates unit Fixture.runtime (fun _ => None)
           two_devices world_after_update (JArr limiter_update) JNull payload_after_update).
  reflexivity.
Defined.

(** ** The results of a build *)

Section BuildShape.
Context {S : Type} {host : Host S} {py : PyRuntime}.

Lemma run_step_index (w w' : World S) (track : TrackId) (idx : nat) (step : JSON)
  (outcome : DeviceResult * list Msg + Msg) :
  run_step w track idx step = Returns (w', outcome) ->
  match outcome with
  | inl (r, _) => dr_step_index r = idx
  | inr e => failed_step e = Some idx
  end.
Proof.
  unfold run_step.
  destruct step as [| | | | | |fields]; try (intros H; injection H as _ <-; reflexivity).
  destruct (PyStr.is_empty _); [intros H; injection H as _ <-; reflexivity|].
  destruct (_insert_device w track fields) as [w1 [inserted|e]].
  - destruct (_apply_parameter_updates _ _) as [[device' r]|exc]; cbn [exc_bind];
      [|discriminate].
    destruct r; intros H; injection H as _ <-; reflexivity.
  - destruct (msg_is_empty e); [discriminate|]. intros H. injection H as _ <-. reflexivity.
Qed.

Lemma run_steps_shape (track : TrackId) (track_index : Z) (items : list JSON) :
  forall (w w' : World S) (idx : nat) (results : list DeviceResult) (warnings : list Msg)
         (payload : BuildResult),
    List.length results = idx ->
    (forall k r, nth_error results k = Some r -> dr_step_index r = k) ->
    run_steps w track track_index items idx results warnings = Returns (w', payload) ->
    match payload with
    | BuildOk _ results' _ =>
        List.length results' = (idx + List.length items)%nat
        /\ (forall k r, nth_error results' k = Some r -> dr_step_index r = k)
    | BuildError e (Some (_, results')) =>
        failed_step e = Some (List.length results')
        /\ (List.length results' < idx + List.length items)%nat
        /\ (forall k r, nth_error results' k = Some r -> dr_step_index r = k)
    | BuildError _ None => False
    end.
Proof.
  induction items as [|item rest IH]; intros w w' idx results warnings payload Hlen Hidx;
    cbn [run_steps].
  - intros H. injection H as _ <-. cbn [List.length]. split; [lia | exact Hidx].
  - destruct (run_step w track idx item) as [[w1 outcome]|exc] eqn:E; cbn [exc_bind];
      [|discriminate].
    apply run_step_index in E.
    destruct outcome as [[r ws]|e].
    + intros H. apply IH in H.
      * cbn [List.length]. replace (idx + Datatypes.S (List.length rest))%nat
          with (Datatypes.S idx + List.length rest)%nat by lia. exact H.
      * rewrite length_app. cbn [List.length]. lia.
      * intros k r' Hk. destruct (Nat.lt_ge_cases k (List.length results)) as [Hlt | Hge].
        -- rewrite nth_error_app1 in Hk by exact Hlt. now apply Hidx.
        -- rewrite nth_error_app2 in Hk by exact Hge.
           destruct (k - List.length results)%nat as [|m] eqn:Em; cbn [nth_error] in Hk.
           ++ injection Hk as <-. lia.
           ++ destruct m; discriminate Hk.
    + intros H. injection H as _ <-.
      split; [congruence|]. split; [cbn [List.length]; lia | exact Hidx].
Qed.

(** X23.  The shape of what [build_device_chain] returns.  On success
    [steps_executed] has one entry per step; on a failure inside the
    loop it holds the entries of the steps before the one the error
    names; a failure before the loop names no step and leaves the world
    untouched.  In every case the entry at position [k] has
    [step_index = k]. *)
Theorem build_results_are_in_order (w w' : World S) (items : list JSON) (target : JSON)
  (payload : BuildResult) :
  build_device_chain w (JArr items) target = Returns (w', payload) ->
  match payload with
  | BuildOk _ results _ =>
      List.length results = List.length items
      /\ (forall k r, nth_error results k = Some r -> dr_step_index r = k)
  | BuildError e (Some (_, results)) =>
      failed_step e = Some (List.length results)
      /\ (List.length results < List.length items)%nat
      /\ (forall k r, nth_error results k = Some r -> dr_step_index r = k)
  | BuildError e None => failed_step e = None /\ w' = w
  end.
Proof.
  unfold build_device_chain.
  destruct items as [|item items]; [intros H; injection H as <- <-; now split|].
  destruct (_resolve_track_target w target) as [[track track_index]|e] eqn:Et.
  - intros H. apply run_steps_shape in H; [|reflexivity|intros [|k] r Hk; discriminate Hk].
    destruct payload as [tp results ws | e [[tp results]|]];
      [exact H | exact H | destruct H].
  - intros H. injection H as <- <-. split; [|reflexivity].
    unfold _resolve_track_target, resolve_selected in Et.
    repeat match type of Et with
           | context [match ?x with _ => _ end] => destruct x
           | context [if ?b then _ else _] => destruct b
           end; try discriminate Et; injection Et as <-; reflexivity.
Qed.

End BuildShape.

Lemma build_results_witness :
  failed_step
    match error_of (@build_device_chain unit Fixture.fake_host Fixture.runtime
                      Fixture.one_track (JArr failing_chain) JNull) with
    | Some e => e
    | None => MsgStepsMustBeArray
    end
  = Some (List.length
            (steps_of (@build_device_chain unit Fixture.fake_host Fixture.runtime
                         Fixture.one_track (JArr failing_chain) JNull))).
Proof.
  pose proof (@build_results_are_in_order unit Fixture.fake_host Fixture.runtime
                Fixture.one_track
                (world_of Fixture.one_track
                   (@build_device_chain unit Fixture.fake_host Fixture.runtime
                      Fixture.one_track (JArr failing_chain) JNull))
                failing_chain JNull
                match @build_device_chain unit Fixture.fake_host Fixture.runtime
                        Fixture.one_track (JArr failing_chain) JNull with
                | Returns (_, payload) => payload
                | Raises _ => BuildError MsgStepsMustBeArray None
                end eq_refl) as H.
  exact (proj1 H).
Defined.


(** ** The gateway's envelope *)

Lemma in_insert_sorted (x y : string) (l : list string) :
  In y (insert_sorted x l) <-> y = x \/ In y l.
Proof.
  induction l as [|a l IH]; cbn [insert_sorted].
  - cbn. intuition.
  - destruct (String.leb x a); cbn [In]; [intuition|]. rewrite IH. intuition.
Qed.

Lemma in_sorted (y : string) (l : list string) : In y (sorted l) <-> In y l.
Proof.
  induction l as [|a l IH]; cbn [sorted]; [reflexivity|].
  rewrite in_insert_sorted, IH. cbn. intuition.
Qed.

Lemma in_dict_keys (fields : list (string * JSON)) (k : string) :
  In k (dict_keys fields) <-> dict_has fields k = true.
Proof.
  unfold dict_keys, dict_has. rewrite nodup_In, in_map_iff, existsb_exists. split.
  - intros [kv [<- Hin]]. exists kv. split; [exact Hin | apply String.eqb_refl].
  - intros [kv [Hin He]]. apply String.eqb_eq in He. now exists kv.
Qed.

Lemma mem_in (k : string) (l : list string) : PyStr.mem k l = true <-> In k l.
Proof.
  unfold PyStr.mem. rewrite existsb_exists. split.
  - intros [x [Hin He]]. apply String.eqb_eq in He. now subst.
  - intros H. exists k. split; [exact H | apply String.eqb_refl].
Qed.

Lemma sorted_nil (l : list string) : sorted l = [] <-> l = [].
Proof.
  split; [|now intros ->]. intros H. destruct l as [|a l]; [reflexivity|].
  exfalso. assert (Hin : In a (sorted (a :: l))) by (apply in_sorted; now left).
  rewrite H in Hin. destruct Hin.
Qed.

Lemma filter_nil {A : Type} (f : A -> bool) (l : list A) :
  filter f l = [] <-> forall x, In x l -> f x = false.
Proof.
  induction l as [|a l IH]; cbn [filter]; [split; [intros _ x [] | reflexivity]|].
  destruct (f a) eqn:E.
  - split; [discriminate|]. intros H. specialize (H a (or_introl eq_refl)). congruence.
  - rewrite IH. split.
    + intros H x [<- | Hx]; [exact E | now apply H].
    + intros H x Hx. apply H. now right.
Qed.

(** X24.  [validate_payload] accepts a payload exactly when it is an
    object that holds every required field and, unless the contract
    allows extra fields, no key besides the required ones, the optional
    ones and "action".  Missing fields are reported before unexpected
    ones, and the list reported holds exactly the required names that
    are absent. *)
Theorem validate_payload_accepts (spec : ActionSpec) (payload : JSON) :
  (validate_payload spec payload = None
   <-> exists fields,
         payload = JObj fields
         /\ (forall k, In k (spec_required spec) -> dict_has fields k = true)
         /\ (spec_allow_extra spec = true
             \/ forall k, dict_has fields k = true ->
                          In k (spec_required spec) \/ In k (spec_optional spec)
                          \/ k = "action"))
  /\ (forall fields k,
        payload = JObj fields ->
        In k (spec_required spec) -> dict_has fields k = false ->
        exists missing,
          validate_payload spec payload = Some (MissingRequired missing)
          /\ forall x, In x missing
                       <-> In x (spec_required spec) /\ dict_has fields x = false).
Proof.
  split.
  - split.
    + destruct payload as [| | | | | |fields]; try discriminate.
      cbn [validate_payload].
      destruct (sorted (filter _ (spec_required spec))) as [|m ms] eqn:Em; [|discriminate].
      apply (proj1 (sorted_nil _)) in Em. pose proof (proj1 (filter_nil _ _) Em) as Em'.
      clear Em; rename Em' into Em.
      intros H. exists fields. split; [reflexivity|]. split.
      { intros k Hk. specialize (Em k Hk). now apply negb_false_iff in Em. }
      destruct (spec_allow_extra spec); [now left|]. right. cbn [negb] in H.
      destruct (sorted (filter _ (dict_keys fields))) as [|e es] eqn:Ee; [|discriminate].
      apply (proj1 (sorted_nil _)) in Ee. pose proof (proj1 (filter_nil _ _) Ee) as Ee'.
      clear Ee; rename Ee' into Ee.
      intros k Hk. apply in_dict_keys in Hk. specialize (Ee k Hk).
      apply negb_false_iff in Ee. apply mem_in in Ee.
      apply in_app_or in Ee. destruct Ee as [Ee | Ee]; [now left|].
      apply in_app_or in Ee. destruct Ee as [Ee | [Ee | []]]; [right; now left|].
      right. right. now symmetry.
    + intros [fields [-> [Hreq Hextra]]]. cbn [validate_payload].
      assert (Em : sorted (filter (fun k => negb (dict_has fields k)) (spec_required spec)) = []).
      { apply sorted_nil. apply filter_nil. intros k Hk. now rewrite (Hreq k Hk). }
      rewrite Em. destruct (spec_allow_extra spec); [reflexivity|]. cbn [negb].
      destruct Hextra as [H | H]; [discriminate|].
      assert (Ee : sorted (filter (fun k => negb (PyStr.mem k (spec_required spec
                                                    ++ spec_optional spec ++ ["action"])%list))
                                  (dict_keys fields)) = []).
      { apply sorted_nil. apply filter_nil. intros k Hk. apply in_dict_keys in Hk.
        apply negb_false_iff. apply mem_in.
        destruct (H k Hk) as [H1 | [H1 | ->]]; apply in_or_app;
          [now left | right; apply in_or_app; now left | right; apply in_or_app; right; now left]. }
      now rewrite Ee.
  - intros fields k -> Hk Hmiss. cbn [validate_payload].
    set (missing := sorted (filter (fun k => negb (dict_has fields k)) (spec_required spec))).
    assert (Hin : forall x, In x missing
                            <-> In x (spec_required spec) /\ dict_has fields x = false).
    { intros x. unfold missing. rewrite in_sorted, filter_In, negb_true_iff. reflexivity. }
    destruct missing as [|m ms] eqn:Em.
    + exfalso. apply (proj2 (Hin k)). now split.
    + exists (m :: ms). split; [reflexivity | exact Hin].
Qed.

Lemma dict_has_set (fields : list (string * JSON)) (key key' : string) (v : JSON) :
  dict_has (dict_set fields key v) key' = (dict_has fields key' || String.eqb key key')%bool.
Proof.
  unfold dict_has. induction fields as [|[k x] rest IH]; cbn [dict_set existsb fst].
  - now rewrite orb_false_r.
  - destruct (String.eqb k key) eqn:E; cbn [existsb fst].
    + apply String.eqb_eq in E. subst k.
      destruct (String.eqb key key'); [reflexivity|]. cbn [orb]. now rewrite orb_false_r.
    + rewrite IH. now rewrite orb_assoc.
Qed.

Lemma dict_get_set_same (fields : list (string * JSON)) (key : string) (v : JSON) :
  dict_get (dict_set fields key v) key = v.
Proof.
  induction fields as [|[k x] rest IH]; cbn [dict_set dict_get].
  - now rewrite String.eqb_refl.
  - destruct (String.eqb k key) eqn:E; cbn [dict_get]; now rewrite E.
Qed.

Lemma dict_get_set_other (fields : list (string * JSON)) (key key' : string) (v : JSON) :
  String.eqb key key' = false ->
  dict_get (dict_set fields key v) key' = dict_get fields key'.
Proof.
  intros Hne. induction fields as [|[k x] rest IH]; cbn [dict_set dict_get].
  - now rewrite Hne.
  - destruct (String.eqb k key) eqn:E; cbn [dict_get].
    + apply String.eqb_eq in E. subst k. now rewrite Hne.
    + now rewrite IH.
Qed.

Lemma dict_set_idle (fields : list (string * JSON)) (key : string) (v : JSON) :
  dict_has fields key = true -> dict_get fields key = v -> dict_set fields key v = fields.
Proof.
  unfold dict_has. induction fields as [|[k x] rest IH]; cbn [existsb fst dict_get dict_set];
    [discriminate|].
  destruct (String.eqb k key); [intros _ ->; reflexivity|].
  cbn [orb]. intros H1 H2. now rewrite IH.
Qed.

Lemma dict_get_absent (fields : list (string * JSON)) (key : string) :
  dict_has fields key = false -> dict_get fields key = JNull.
Proof.
  unfold dict_has. induction fields as [|[k x] rest IH]; [reflexivity|].
  cbn [existsb fst dict_get]. intros H. apply orb_false_iff in H. destruct H as [-> H].
  now apply IH.
Qed.

(** Setting a key leaves the other keys as they are. *)
Lemma dict_set_frame (fields : list (string * JSON)) (key key' : string) (v : JSON) :
  String.eqb key key' = false ->
  dict_has (dict_set fields key v) key' = dict_has fields key'
  /\ dict_get (dict_set fields key v) key' = dict_get fields key'.
Proof.
  intros H. rewrite dict_has_set, H, orb_false_r. split; [reflexivity|].
  now apply dict_get_set_other.
Qed.

(** The stages of [_normalize_action_response] on a dictionary that
    holds [ok: False]: [error] is filled in, then [error_code]. *)
Lemma failed_response_stages (action : string) (n1 : list (string * JSON)) :
  dict_has n1 "ok" = true ->
  dict_get n1 "ok" = JBool false ->
  let n := _normalize_action_response action (JObj n1) in
  dict_has n "ok" = true
  /\ dict_get n "ok" = JBool false
  /\ dict_has n "error" = true
  /\ dict_has n "error_code" = true
  /\ dict_has n "message" = dict_has n1 "message"
  /\ dict_get n "message" = dict_get n1 "message"
  /\ (truthy (dict_get n1 "error") = true -> dict_get n "error" = dict_get n1 "error")
  /\ (truthy (dict_get n1 "error") = false ->
      dict_get n "error" = if dict_has n1 "message" then dict_get n1 "message"
                           else JStr ("Action '" ++ action ++ "' failed")).
Proof.
  intros H1 G1. unfold _normalize_action_response. rewrite H1, G1.
  set (msg := if dict_has n1 "message" then dict_get n1 "message"
              else JStr ("Action '" ++ action ++ "' failed")).
  set (n2 := if negb (truthy (dict_get n1 "error")) then dict_set n1 "error" msg else n1).
  assert (F2 : forall key, String.eqb "error" key = false ->
                           dict_has n2 key = dict_has n1 key
                           /\ dict_get n2 key = dict_get n1 key).
  { intros key Hk. unfold n2. destruct (negb _); [now apply dict_set_frame | now split]. }
  assert (E2 : dict_has n2 "error" = true
               /\ (truthy (dict_get n1 "error") = true -> dict_get n2 "error" = dict_get n1 "error")
               /\ (truthy (dict_get n1 "error") = false -> dict_get n2 "error" = msg)).
  { unfold n2. destruct (truthy (dict_get n1 "error")) eqn:Et; cbn [negb].
    - split; [|split; [reflexivity | discriminate]].
      destruct (dict_has n1 "error") eqn:Eh; [reflexivity|].
      rewrite (dict_get_absent _ _ Eh) in Et. discriminate Et.
    - rewrite dict_has_set, dict_get_set_same, String.eqb_refl, orb_true_r.
      split; [reflexivity|]. split; [discriminate | reflexivity]. }
  destruct E2 as [E2h [E2t E2f]].
  destruct (F2 "ok" eq_refl) as [Fok Gok]. destruct (F2 "message" eq_refl) as [Fm Gm].
  cbv zeta. destruct (dict_has n2 "error_code") eqn:Ec.
  - rewrite Fok, Gok, Fm, Gm. repeat split; auto.
  - destruct (dict_set_frame n2 "error_code" "ok" (JStr ERROR_EXECUTION_FAILED) eq_refl)
      as [-> ->].
    destruct (dict_set_frame n2 "error_code" "message" (JStr ERROR_EXECUTION_FAILED) eq_refl)
      as [-> ->].
    destruct (dict_set_frame n2 "error_code" "error" (JStr ERROR_EXECUTION_FAILED) eq_refl)
      as [-> ->].
    rewrite dict_has_set, String.eqb_refl, orb_true_r.
    rewrite Fok, Gok, Fm, Gm. repeat split; auto.
Qed.

Lemma settled_response_is_fixed (action : string) (n : list (string * JSON)) :
  dict_has n "ok" = true ->
  (dict_get n "ok" = JBool false ->
   dict_has n "error" = true /\ dict_has n "error_code" = true
   /\ (truthy (dict_get n "error") = false ->
       dict_get n "error" = if dict_has n "message" then dict_get n "message"
                            else JStr ("Action '" ++ action ++ "' failed"))) ->
  _normalize_action_response action (JObj n) = n.
Proof.
  intros H1 Hfail. unfold _normalize_action_response. rewrite H1.
  destruct (dict_get n "ok") as [|[|]| | | | |]; try reflexivity.
  destruct (Hfail eq_refl) as [He [Hc Hm]].
  destruct (truthy (dict_get n "error")) eqn:Et; cbn [negb].
  - now rewrite Hc.
  - rewrite (dict_set_idle n "error" _ He (Hm eq_refl)). now rewrite Hc.
Qed.

(** X25.  [_normalize_action_response] gives every response the
    envelope of the gateway: the dictionary returned always holds [ok];
    when [ok] is [False] it also holds [error] and [error_code]; a
    dictionary that says [ok: True] comes back as it is; and
    normalizing a normalized response changes nothing. *)
Theorem normalized_response_envelope (action : string) (response : JSON) :
  dict_has (_normalize_action_response action response) "ok" = true
  /\ (dict_get (_normalize_action_response action response) "ok" = JBool false ->
      dict_has (_normalize_action_response action response) "error" = true
      /\ dict_has (_normalize_action_response action response) "error_code" = true)
  /\ (forall fields, response = JObj fields -> dict_get fields "ok" = JBool true ->
                     _normalize_action_response action response = fields)
  /\ _normalize_action_response action (JObj (_normalize_action_response action response))
     = _normalize_action_response action response.
Proof.
  set (n0 := match response with
             | JObj fields => fields
             | _ => [("ok", JBool true); ("result", response)]
             end).
  set (n1 := if dict_has n0 "ok" then n0 else dict_set n0 "ok" (JBool true)).
  assert (H1 : dict_has n1 "ok" = true).
  { unfold n1. destruct (dict_has n0 "ok") eqn:E; [exact E|].
    rewrite dict_has_set. now rewrite orb_true_r. }
  assert (Hn1 : _normalize_action_response action (JObj n1) = n1
                \/ dict_get n1 "ok" = JBool false).
  { destruct (dict_get n1 "ok") as [|[|]| | | | |] eqn:Eok; try (now right);
      left; unfold _normalize_action_response; rewrite H1, Eok; reflexivity. }
  assert (Hsame : _normalize_action_response action response
                  = _normalize_action_response action (JObj n1)).
  { unfold _normalize_action_response at 2. rewrite H1.
    unfold _normalize_action_response. fold n0. fold n1. reflexivity. }
  rewrite Hsame.
  assert (Hok : dict_get (_normalize_action_response action (JObj n1)) "ok" = dict_get n1 "ok").
  { destruct Hn1 as [-> | Hf]; [reflexivity|].
    destruct (failed_response_stages action n1 H1 Hf) as [_ [G _]]. now rewrite G, Hf. }
  split; [|split; [|split]].
  - destruct Hn1 as [-> | Hf]; [exact H1|].
    now destruct (failed_response_stages action n1 H1 Hf) as [H _].
  - rewrite Hok. intros Hf.
    destruct (failed_response_stages action n1 H1 Hf) as [_ [_ [He [Hc _]]]]. now split.
  - intros fields Hr Hok'. destruct Hn1 as [E | Hf].
    + rewrite E. unfold n1, n0. rewrite Hr.
      destruct (dict_has fields "ok") eqn:Eh; [reflexivity|].
      rewrite (dict_get_absent _ _ Eh) in Hok'. discriminate Hok'.
    + exfalso. unfold n1, n0 in Hf. rewrite Hr in Hf.
      destruct (dict_has fields "ok") eqn:Eh; [congruence|].
      rewrite (dict_get_absent _ _ Eh) in Hok'. discriminate Hok'.
  - destruct Hn1 as [E | Hf]; [now rewrite E, E|].
    destruct (failed_response_stages action n1 H1 Hf)
      as [Ho [Go [He [Hc [Mh [Mg [Et Ef]]]]]]].
    apply settled_response_is_fixed; [exact Ho|].
    intros _. split; [exact He|]. split; [exact Hc|].
    intros Hfalsy. rewrite Mh, Mg.
    destruct (truthy (dict_get n1 "error")) eqn:E1.
    + rewrite (Et eq_refl) in Hfalsy. congruence.
    + now apply Ef.
Qed.

(** ** Anchors *)

Section AnchorSound.
Context {S : Type} {host : Host S} {py : PyRuntime}.

Lemma in_anchor_matches (w : World S) (devices : list DeviceId) (target : string) (i : nat) :
  In i (anchor_matches w devices target) ->
  exists d, nth_error devices i = Some d
            /\ target <> EmptyString
            /\ (String.eqb target (_normalize_name (device_name (device_of w d)))
                || PyStr.contains target (_normalize_name (device_name (device_of w d)))
                || PyStr.contains (_normalize_name (device_name (device_of w d))) target)%bool
               = true.
Proof.
  unfold anchor_matches. rewrite in_flat_map. intros [[k d] [Hin H]].
  apply in_enumerate in Hin. cbn [fst snd] in H.
  destruct (negb (PyStr.is_empty target) && _)%bool eqn:E; [|destruct H].
  destruct H as [<- | []]. exists d. split; [exact Hin|].
  apply andb_true_iff in E. destruct E as [E1 E2]. split; [|exact E2].
  intros ->. discriminate E1.
Qed.

(** X26.  The index that [_find_anchor_device_index] returns is the
    index of a device of the list whose normalized name equals, contains
    or is contained in the normalized anchor name, which is not empty.
    It is the match numbered by [relative_device_index] when that is an
    integer within the matches, and the first match otherwise. *)
Theorem anchor_is_a_matching_device (w : World S) (devices : list DeviceId)
  (anchor_name occurrence : JSON) (i : nat) :
  _find_anchor_device_index w devices anchor_name occurrence = Some i ->
  (exists d, nth_error devices i = Some d
             /\ (String.eqb (_normalize_name (str_or_empty anchor_name))
                            (_normalize_name (device_name (device_of w d)))
                 || PyStr.contains (_normalize_name (str_or_empty anchor_name))
                                   (_normalize_name (device_name (device_of w d)))
                 || PyStr.contains (_normalize_name (device_name (device_of w d)))
                                   (_normalize_name (str_or_empty anchor_name)))%bool = true)
  /\ _normalize_name (str_or_empty anchor_name) <> EmptyString
  /\ (forall pick,
        is_none occurrence = false -> py_int occurrence = Some pick ->
        0 <= pick < Z.of_nat (List.length
                                (anchor_matches w devices
                                   (_normalize_name (str_or_empty anchor_name)))) ->
        nth_error (anchor_matches w devices (_normalize_name (str_or_empty anchor_name)))
                  (Z.to_nat pick) = Some i)
  /\ (is_none occurrence = true \/ py_int occurrence = None ->
      hd_error (anchor_matches w devices (_normalize_name (str_or_empty anchor_name)))
      = Some i).
Proof.
  unfold _find_anchor_device_index. destruct (negb (truthy anchor_name)); [discriminate|].
  set (target := _normalize_name (str_or_empty anchor_name)).
  destruct (anchor_matches w devices target) as [|first rest] eqn:Em; [discriminate|].
  intros H.
  assert (Hin : In i (first :: rest)).
  { destruct (negb (is_none occurrence)); [|injection H as <-; now left].
    destruct (py_int occurrence) as [pick|]; [|injection H as <-; now left].
    destruct (_ && _)%bool; injection H as <-; [|now left].
    change (In (nth (Z.to_nat pick) (first :: rest) first) (first :: rest)).
    destruct (Nat.lt_ge_cases (Z.to_nat pick) (List.length (first :: rest))) as [Hl | Hl].
    - exact (nth_In (first :: rest) first Hl).
    - rewrite (nth_overflow (first :: rest) first Hl). now left. }
  rewrite <- Em in Hin. apply in_anchor_matches in Hin. destruct Hin as [d [Hd [Hne Hm]]].
  split; [now exists d|]. split; [exact Hne|]. split.
  - intros pick Hn Hp Hr. rewrite Hn, Hp in H. cbn [negb] in H.
    assert (E : ((0 <=? pick) && (pick <? Z.of_nat (List.length (first :: rest))))%bool = true).
    { apply andb_true_iff. split; [apply Z.leb_le | apply Z.ltb_lt]; lia. }
    rewrite E in H. injection H as <-.
    apply (nth_error_nth' (first :: rest) first). lia.
  - intros [Hn | Hp].
    + rewrite Hn in H. cbn [negb] in H. exact H.
    + rewrite Hp in H. destruct (negb (is_none occurrence)); exact H.
Qed.

End AnchorSound.

Lemma anchor_witness :
  (exists d, nth_error [0%nat; 1%nat] 1 = Some d
             /\ (String.eqb (_normalize_name (@str_or_empty Fixture.runtime (JStr "Limiter")))
                            (_normalize_name (device_name (device_of two_devices d)))
                 || PyStr.contains (_normalize_name (@str_or_empty Fixture.runtime (JStr "Limiter")))
                                   (_normalize_name (device_name (device_of two_devices d)))
                 || PyStr.contains (_normalize_name (device_name (device_of two_devices d)))
                                   (_normalize_name (@str_or_empty Fixture.runtime (JStr "Limiter"))))%bool
                = true)
  /\ _normalize_name (@str_or_empty Fixture.runtime (JStr "Limiter")) <> EmptyString.
Proof.
  destruct (@anchor_is_a_matching_device unit Fixture.runtime two_devices [0%nat; 1%nat]
              (JStr "Limiter") JNull 1%nat eq_refl) as [H1 [H2 _]].
  split; assumption.
Defined.

(** ** The trace of the resolver *)

Lemma assoc_get_app_cases {A : Type} (l : list (string * A)) (k key : string) (v n : A) :
  assoc_get (l ++ [(k, v)])%list key = Some n ->
  assoc_get l key = Some n \/ (k = key /\ v = n).
Proof.
  induction l as [|[k0 v0] l IH]; cbn [app assoc_get].
  - destruct (String.eqb k key) eqn:E; [|discriminate].
    apply String.eqb_eq in E. intros H. injection H as <-. now right.
  - destruct (String.eqb k0 key); [now left | exact IH].
Qed.

(** An entry of the index stands for a parameter of the list whose
    normalized name is the key. *)
Lemma index_loop_sound (key : string) (params : list Param) :
  forall (i : nat) (index : list (string * nat)) (n : nat),
    assoc_get (Resolver.index_loop params i index) key = Some n ->
    assoc_get index key = Some n
    \/ exists p, (i <= n)%nat /\ nth_error params (n - i) = Some p
                 /\ Resolver.normalize_string (param_name p) = key
                 /\ key <> EmptyString.
Proof.
  induction params as [|a params IH]; intros i index n; cbn [Resolver.index_loop];
    [now left|].
  assert (Hlater : (exists p, (Datatypes.S i <= n)%nat
                              /\ nth_error params (n - Datatypes.S i) = Some p
                              /\ Resolver.normalize_string (param_name p) = key
                              /\ key <> EmptyString) ->
                   exists p, (i <= n)%nat /\ nth_error (a :: params) (n - i) = Some p
                             /\ Resolver.normalize_string (param_name p) = key
                             /\ key <> EmptyString).
  { intros [p [Hn [Hp Hk]]]. exists p. split; [lia|]. split; [|exact Hk].
    replace (n - i)%nat with (Datatypes.S (n - Datatypes.S i)) by lia. exact Hp. }
  destruct (negb (PyStr.is_empty _) && _)%bool eqn:E.
  - intros H. apply IH in H. destruct H as [H | H]; [|right; now apply Hlater].
    apply assoc_get_app_cases in H. destruct H as [H | [Hk <-]]; [now left|].
    right. exists a. split; [lia|]. rewrite Nat.sub_diag. split; [reflexivity|].
    split; [exact Hk|]. apply andb_true_iff in E. destruct E as [E _].
    intros Hempty. rewrite Hk, Hempty in E. discriminate E.
  - intros H. apply IH in H. destruct H as [H | H]; [now left | right; now apply Hlater].
Qed.

Lemma index_sound (params : list Param) (key : string) (n : nat) :
  assoc_get (Resolver.build_parameter_index params) key = Some n ->
  exists p, nth_error params n = Some p
            /\ Resolver.normalize_string (param_name p) = key
            /\ key <> EmptyString.
Proof.
  intros H. apply index_loop_sound in H. destruct H as [H | [p [_ [Hp Hk]]]]; [discriminate|].
  rewrite Nat.sub_0_r in Hp. now exists p.
Qed.

Lemma try_candidates_sound (index : list (string * nat)) (candidates : list string) :
  forall (chain chain' : list string) (i : nat),
    Resolver.try_candidates index candidates chain = (Some i, chain') ->
    exists c, last chain' EmptyString = c
              /\ assoc_get index (Resolver.normalize_string c) = Some i.
Proof.
  induction candidates as [|c rest IH]; intros chain chain' i; cbn [Resolver.try_candidates];
    [discriminate|].
  destruct (assoc_get index (Resolver.normalize_string c)) as [j|] eqn:E; [|apply IH].
  intros H. injection H as <- <-. exists c. split; [apply last_last | exact E].
Qed.

Section ResolverTrace.
Context {py : PyRuntime}.

(** X27.  The trace of [resolve_parameter] tells what happened.  It
    carries the query and its normalized form.  When a parameter is
    returned, [matched_by] is set, [resolved_param_name] is the name of
    that parameter of the list, and the last entry of [candidate_chain]
    is the candidate that matched: its normalized form, not empty, is
    the normalized name of the parameter.  When nothing is returned,
    [matched_by] and [resolved_param_name] are both [None]. *)
Theorem resolver_trace_tells_the_match (parameters : list Param) (device : Device)
  (query : JSON) (curated_aliases : list (string * list string)) :
  Resolver.query (snd (Resolver.resolve_parameter parameters device query curated_aliases))
  = str_or_empty query
  /\ Resolver.normalized_query
       (snd (Resolver.resolve_parameter parameters device query curated_aliases))
     = Resolver.normalize_string (str_or_empty query)
  /\ match fst (Resolver.resolve_parameter parameters device query curated_aliases) with
     | Some i =>
         exists (p : Param) (by_what : Resolver.MatchedBy),
           nth_error parameters i = Some p
           /\ Resolver.matched_by
                (snd (Resolver.resolve_parameter parameters device query curated_aliases))
              = Some by_what
           /\ Resolver.resolved_param_name
                (snd (Resolver.resolve_parameter parameters device query curated_aliases))
              = Some (param_name p)
           /\ Resolver.normalize_string
                (last (Resolver.candidate_chain
                         (snd (Resolver.resolve_parameter parameters device query
                                 curated_aliases)))
                      EmptyString)
              = Resolver.normalize_string (param_name p)
           /\ Resolver.normalize_string (param_name p) <> EmptyString
     | None =>
         Resolver.matched_by
           (snd (Resolver.resolve_parameter parameters device query curated_aliases)) = None
         /\ Resolver.resolved_param_name
              (snd (Resolver.resolve_parameter parameters device query curated_aliases)) = None
     end.
Proof.
  unfold Resolver.resolve_parameter.
  set (query_text := str_or_empty query).
  set (nq := Resolver.normalize_string query_text).
  set (index := Resolver.build_parameter_index parameters).
  assert (Hfound : forall i c, assoc_get index (Resolver.normalize_string c) = Some i ->
            exists p, nth_error parameters i = Some p
                      /\ Resolver.name_at parameters i = Some (param_name p)
                      /\ Resolver.normalize_string c = Resolver.normalize_string (param_name p)
                      /\ Resolver.normalize_string (param_name p) <> EmptyString).
  { intros i c H. apply index_sound in H. destruct H as [p [Hp [Hk Hne]]].
    exists p. unfold Resolver.name_at. rewrite Hp. repeat split; congruence. }
  destruct (PyStr.is_empty nq); [cbn; auto|].
  destruct (assoc_get index nq) as [i|] eqn:Eexact.
  { cbn [fst snd Resolver.query Resolver.normalized_query Resolver.matched_by
         Resolver.resolved_param_name Resolver.candidate_chain last].
    split; [reflexivity|]. split; [reflexivity|].
    destruct (Hfound i query_text Eexact) as [p [Hp [Hn [Hc Hne]]]].
    exists p, Resolver.Exact. repeat split; assumption. }
  destruct (if _is_eq8_device device
            then Resolver.try_candidates index (Resolver.eq_band_rule_candidates nq) [query_text]
            else (None, [query_text])) as [by_rule chain1] eqn:Erule.
  destruct by_rule as [i|].
  { cbn [fst snd Resolver.query Resolver.normalized_query Resolver.matched_by
         Resolver.resolved_param_name Resolver.candidate_chain].
    split; [reflexivity|]. split; [reflexivity|].
    destruct (_is_eq8_device device); [|discriminate].
    apply try_candidates_sound in Erule. destruct Erule as [c [Hlast Hc]].
    destruct (Hfound i c Hc) as [p [Hp [Hn [Hk Hne]]]].
    exists p, Resolver.Rule. rewrite Hlast. repeat split; assumption. }
  destruct (Resolver.try_candidates index _ chain1) as [[i|] chain2] eqn:Ealias.
  - cbn [fst snd Resolver.query Resolver.normalized_query Resolver.matched_by
         Resolver.resolved_param_name Resolver.candidate_chain].
    split; [reflexivity|]. split; [reflexivity|].
    apply try_candidates_sound in Ealias. destruct Ealias as [c [Hlast Hc]].
    destruct (Hfound i c Hc) as [p [Hp [Hn [Hk Hne]]]].
    exists p, Resolver.Alias. rewrite Hlast. repeat split; assumption.
  - cbn. auto.
Qed.

End ResolverTrace.


(** ** The fuzzy score of a track *)

Lemma runs_of_all_in_class (cls : ascii -> bool) (s : string) :
  all_chars cls s -> forall cur, PyStr.runs_of cls cur s = PyStr.flush (cur ++ s).
Proof.
  induction s as [|c s IH]; intros H cur; cbn [PyStr.runs_of].
  - now rewrite string_app_nil_r.
  - rewrite (H c (or_introl eq_refl)). rewrite IH.
    + now rewrite string_app_assoc.
    + intros x Hx. apply H. now right.
Qed.

Lemma all_chars_app (cls : ascii -> bool) (a b : string) :
  all_chars cls a -> all_chars cls b -> all_chars cls (a ++ b).
Proof.
  intros Ha Hb. induction a as [|c a IH]; [exact Hb|].
  intros x [<- | Hx]; [apply Ha; now left|]. apply IH; [|exact Hx].
  intros y Hy. apply Ha. now right.
Qed.

Lemma runs_of_tokens (s : string) :
  forall cur, all_chars PyStr.is_token_char cur ->
              Forall (all_chars PyStr.is_token_char) (PyStr.runs_of PyStr.is_token_char cur s).
Proof.
  induction s as [|c s IH]; intros cur Hcur; cbn [PyStr.runs_of].
  - unfold PyStr.flush. destruct (PyStr.is_empty cur); repeat constructor. exact Hcur.
  - destruct (PyStr.is_token_char c) eqn:E.
    + apply IH. apply all_chars_app; [exact Hcur|]. intros x [<- | []]. exact E.
    + apply Forall_app. split.
      * unfold PyStr.flush. destruct (PyStr.is_empty cur); repeat constructor. exact Hcur.
      * apply IH. intros x [].
Qed.

Lemma join_tokens_all_token_chars (l : list string) :
  Forall (all_chars PyStr.is_token_char) l -> all_chars PyStr.is_token_char (PyStr.join "" l).
Proof.
  induction 1 as [|x l Hx _ IH]; [intros c []|].
  rewrite join_empty_cons. now apply all_chars_app.
Qed.

Lemma track_tokens_are_tokens (text : string) :
  Forall (all_chars PyStr.is_token_char) (_normalize_track_tokens text).
Proof.
  assert (H : Forall (all_chars PyStr.is_token_char)
                     (PyStr.TOKEN_RE_findall (PyStr.lower text))).
  { apply runs_of_tokens. intros c []. }
  destruct (normalize_track_tokens_cases text) as [[_ ->] | [_ ->]]; [exact H|].
  apply Forall_forall. intros t Ht. apply filter_In in Ht. destruct Ht as [Ht _].
  revert t Ht. now apply Forall_forall.
Qed.

Lemma overlap_of_one_token (s : string) (l : list string) :
  (PyStr.overlap_count (PyStr.flush s) l <= 1)%nat.
Proof.
  unfold PyStr.overlap_count, PyStr.flush. destruct (PyStr.is_empty s); cbn; [lia|].
  destruct (PyStr.mem s l); cbn; lia.
Qed.

(** X28.  The fuzzy score that [_resolve_track_by_name] gives a track is
    one of 0, 1, 2, 2.5 and 5.  The query is scored as its tokens joined
    without a separator, which is a single token, so the token overlap
    counts at most one token however many words the query has. *)
Theorem track_score_values (S : Type) (w : World S) (query : string) (t : TrackId) :
  In (track_score w query t) [0%Q; 1%Q; 2%Q; 5 # 2; 5%Q].
Proof.
  unfold track_score, _score_track_name_match.
  set (qn := PyStr.join "" (_normalize_track_tokens (name_key query))).
  set (tokens := _normalize_track_tokens (name_of_track w t)).
  destruct (PyStr.is_empty _); [now left|].
  destruct (String.eqb qn _); [cbn; tauto|].
  destruct (PyStr.contains qn _); [cbn; tauto|].
  destruct (PyStr.contains _ qn); [cbn; tauto|].
  assert (Hq : PyStr.TOKEN_RE_findall qn = PyStr.flush qn).
  { unfold PyStr.TOKEN_RE_findall. rewrite runs_of_all_in_class; [reflexivity|].
    apply join_tokens_all_token_chars. apply track_tokens_are_tokens. }
  rewrite Hq. pose proof (overlap_of_one_token qn tokens) as Hle.
  destruct (PyStr.flush qn) as [|q0 qs]; [now left|].
  destruct tokens as [|t0 ts]; [now left|].
  destruct (PyStr.overlap_count (q0 :: qs) (t0 :: ts)) as [|[|n]]; [now left | | lia].
  right. now left.
Qed.


(** ** The scan of a quantized parameter *)

Section QuantizedScan.
Context {py : PyRuntime}.

Lemma verify_scan_is_closest (param : Param) (unit : option string) (target lo : Q)
  (n : nat) :
  forall (i : nat) (st : Best),
    (forall d, snd st = Some d ->
               exists shown, display_number param unit (fst st) = Some shown
                             /\ d = PyFloat.fabs (PyFloat.fsub shown target)) ->
    (forall j num, (j < i)%nat ->
                   display_number param unit (PyFloat.fadd lo (PyFloat.of_nat j)) = Some num ->
                   exists d, snd st = Some d
                             /\ ((d <= PyFloat.fabs (PyFloat.fsub num target))%Q
                                 \/ (d < 1 # 1000)%Q)) ->
    (forall d, snd (verify_scan param unit target lo n i st) = Some d ->
               exists shown,
                 display_number param unit (fst (verify_scan param unit target lo n i st))
                 = Some shown
                 /\ d = PyFloat.fabs (PyFloat.fsub shown target))
    /\ (forall j num, (j < i + n)%nat ->
                      display_number param unit (PyFloat.fadd lo (PyFloat.of_nat j)) = Some num ->
                      exists d, snd (verify_scan param unit target lo n i st) = Some d
                                /\ ((d <= PyFloat.fabs (PyFloat.fsub num target))%Q
                                    \/ (d < 1 # 1000)%Q)).
Proof.
  induction n as [|n IH]; intros i st Hcons Hbest; cbn [verify_scan].
  - split; [exact Hcons|]. intros j num Hj. apply Hbest. lia.
  - set (cand := PyFloat.fadd lo (PyFloat.of_nat i)).
    change (snd (read_display param unit cand)) with (display_number param unit cand).
    replace (i + Datatypes.S n)%nat with (Datatypes.S i + n)%nat by lia.
    destruct (display_number param unit cand) as [num_i|] eqn:Ed.
    + set (diff := PyFloat.fabs (PyFloat.fsub num_i target)).
      destruct (improves diff (snd st)) eqn:Ei.
      * assert (Hcons1 : forall d, Some diff = Some d ->
                  exists shown, display_number param unit cand = Some shown
                                /\ d = PyFloat.fabs (PyFloat.fsub shown target)).
        { intros d Hd. injection Hd as <-. now exists num_i. }
        assert (Hlt : forall b, snd st = Some b -> (diff < b)%Q).
        { intros b Hb. rewrite Hb in Ei. cbn [improves] in Ei. now apply flt_true. }
        destruct (PyFloat.flt diff (1 # 1000)) eqn:Ee.
        -- apply flt_true in Ee. cbn [fst snd]. split; [exact Hcons1|].
           intros j num _ _. exists diff. split; [reflexivity | now right].
        -- apply IH; cbn [fst snd]; [exact Hcons1|].
           intros j num Hj Hnum. exists diff. split; [reflexivity|].
           destruct (Nat.eq_dec j i) as [-> | Hne].
           ++ fold cand in Hnum. rewrite Ed in Hnum. injection Hnum as <-.
              left. apply Qle_refl.
           ++ destruct (Hbest j num ltac:(lia) Hnum) as [b [Hb Hor]].
              specialize (Hlt b Hb). destruct Hor as [Hor | Hor]; [left | right]; lra.
      * assert (Hb : exists b, snd st = Some b /\ (b <= diff)%Q).
        { destruct (snd st) as [b|]; cbn [improves] in Ei; [|discriminate].
          exists b. split; [reflexivity | now apply flt_false]. }
        destruct Hb as [b [Eb Hle]].
        apply IH; [exact Hcons|].
        intros j num Hj Hnum. destruct (Nat.eq_dec j i) as [-> | Hne].
        -- fold cand in Hnum. rewrite Ed in Hnum. injection Hnum as <-.
           exists b. split; [exact Eb | now left].
        -- apply (Hbest j num); [lia | exact Hnum].
    + apply IH; [exact Hcons|].
      intros j num Hj Hnum. destruct (Nat.eq_dec j i) as [-> | Hne].
      * fold cand in Hnum. congruence.
      * apply (Hbest j num); [lia | exact Hnum].
Qed.

(** X29.  The scan of a quantized parameter finds the closest step.
    For a numeric target, no fallback and a host that accepts the write,
    if some integer step displays a number, the call returns [ok] and
    the value it leaves on the parameter displays a number too, which is
    at least as close to the target as the number of every step, unless
    it is within 0.001 of the target, at which the scan stops.  The
    distance is [abs(num - target)], as the scan computes it. *)
Theorem quantized_scan_is_closest (param : Param) (tdv unit : JSON)
  (max_iterations : Z) (tolerance target : Q) (j : nat) (num : Q) :
  param_is_quantized param = true ->
  py_float tdv = Some target ->
  param_refuses param
    (best_found param (_normalize_unit_hint unit) target tolerance max_iterations) = None ->
  (j < step_count (scan_low param) (scan_high param))%nat ->
  display_number param (_normalize_unit_hint unit)
    (PyFloat.fadd (scan_low param) (PyFloat.of_nat j)) = Some num ->
  exists (param' : Param) (result : ApplyResult) (shown : Q),
    _set_parameter_with_verify param tdv unit JNull max_iterations tolerance
    = Returns (param', result)
    /\ apply_ok result = true
    /\ display_number param' (_normalize_unit_hint unit) (param_value param') = Some shown
    /\ ((PyFloat.fabs (PyFloat.fsub shown target)
         <= PyFloat.fabs (PyFloat.fsub num target))%Q
        \/ (PyFloat.fabs (PyFloat.fsub shown target) < 1 # 1000)%Q).
Proof.
  intros Hq Htarget Hacc Hj Hnum.
  rewrite (verify_without_fallback _ _ _ _ _ _ Htarget Hacc).
  set (u := _normalize_unit_hint unit) in *.
  unfold best_found. rewrite Hq.
  set (lo := scan_low param) in *. set (steps := step_count lo (scan_high param)) in *.
  destruct (verify_scan_is_closest param u target lo steps 0%nat (lo, None))
    as [Hcons Hbest].
  { cbn [snd]. discriminate. }
  { intros k n Hk. lia. }
  destruct (Hbest j num Hj Hnum) as [d [Hd Hor]].
  destruct (Hcons d Hd) as [shown [Hs ->]].
  eexists. eexists. exists shown. split; [reflexivity|]. split; [reflexivity|].
  split; [exact Hs | exact Hor].
Qed.

End QuantizedScan.

Lemma quantized_scan_witness :
  exists (param' : Param) (result : ApplyResult) (shown : Q),
    @_set_parameter_with_verify Fixture.runtime ratio_param (JInt 3) JNull JNull 15 (1 # 1000)
    = Returns (param', result)
    /\ apply_ok result = true
    /\ @display_number Fixture.runtime param' (@_normalize_unit_hint Fixture.runtime JNull)
         (param_value param') = Some shown
    /\ ((PyFloat.fabs (PyFloat.fsub shown 3) <= PyFloat.fabs (PyFloat.fsub 8 3))%Q
        \/ (PyFloat.fabs (PyFloat.fsub shown 3) < 1 # 1000)%Q).
Proof.
  apply (@quantized_scan_is_closest Fixture.runtime ratio_param (JInt 3) JNull 15 (1 # 1000)
           3 3%nat 8).
  - reflexivity.
  - reflexivity.
  - reflexivity.
  - vm_compute. lia.
  - reflexivity.
Defined.

(** ** Display-value mode on a host that accepts the write *)

Section VerifyAccepted.
Context {py : PyRuntime}.

(** X30.  Display-value mode never answers with an error once its
    target is a number and the host accepts the value found.  The call
    returns [ok] in the mode [display_verify]; [exact_match] is true only
    if the parameter holds the value found and the number displayed
    there is within the tolerance; and with no fallback the parameter
    holds the value found, the display returned is the one at that
    value, and [exact_match] tells whether the search converged. *)
Theorem verify_succeeds_when_host_accepts (param : Param) (tdv unit fallback : JSON)
  (max_iterations : Z) (tolerance target : Q) :
  py_float tdv = Some target ->
  param_refuses param
    (best_found param (_normalize_unit_hint unit) target tolerance max_iterations) = None ->
  exists (param' : Param) (display : string) (exact : bool),
    _set_parameter_with_verify param tdv unit fallback max_iterations tolerance
    = Returns (param', ApplyOk ModeDisplayVerify (param_value param') (Some display) (Some exact))
    /\ (exact = true ->
        param' = with_value param
                   (best_found param (_normalize_unit_hint unit) target tolerance max_iterations)
        /\ found_exact param (_normalize_unit_hint unit) target tolerance
                       (best_found param (_normalize_unit_hint unit) target tolerance
                                   max_iterations) = true)
    /\ (fallback = JNull ->
        param' = with_value param
                   (best_found param (_normalize_unit_hint unit) target tolerance max_iterations)
        /\ display = fst (read_display param (_normalize_unit_hint unit) (param_value param'))
        /\ exact = found_exact param (_normalize_unit_hint unit) target tolerance
                               (param_value param')).
Proof.
  intros Htarget Hacc.
  rewrite (verify_after_an_accepted_write _ _ _ _ _ _ _ Htarget Hacc). cbv zeta.
  set (u := _normalize_unit_hint unit) in *.
  set (best := best_found param u target tolerance max_iterations) in *.
  destruct (verify_fallback (with_value param best) u (scan_low param) (scan_high param)
              (found_exact param u target tolerance best) fallback
              (fst (read_display param u best))) as [[param2 display2] used] eqn:E.
  exists param2, display2, (found_exact param u target tolerance best && negb used)%bool.
  split; [reflexivity|].
  unfold verify_fallback in E. split.
  - intros Hex. apply andb_true_iff in Hex. destruct Hex as [Hex Hused].
    rewrite Hex in E. cbn [negb andb] in E. injection E as <- _ _. now split.
  - intros ->. cbn [is_none negb] in E. rewrite andb_false_r in E.
    injection E as <- <- <-. cbn [with_value param_value negb].
    rewrite andb_true_r. repeat split.
Qed.

End VerifyAccepted.

Lemma verify_succeeds_witness :
  result_of (@_set_parameter_with_verify Fixture.runtime filter_type
               (JInt 8000) (JStr "hz") JNull 15 (1 # 1000))
  = Some (ApplyOk ModeDisplayVerify 0 (Some "Low Pass") (Some false))
  /\ result_of (@_set_parameter_with_verify Fixture.runtime
                  (Fixture.linear_param "Frequency" 2000 "Hz")
                  (JInt 8000) (JStr "hz") JNull 15 (1 # 1000))
     = Some (ApplyOk ModeDisplayVerify (2047 # 2048) (Some "00001999 Hz") (Some false)).
Proof.
  split.
  - destruct (@verify_succeeds_when_host_accepts Fixture.runtime filter_type
                (JInt 8000) (JStr "hz") JNull 15 (1 # 1000) 8000 eq_refl eq_refl)
      as [param' [display [exact [H _]]]].
    rewrite H. apply (f_equal result_of) in H. vm_compute in H. symmetry. exact H.
  - destruct (@verify_succeeds_when_host_accepts Fixture.runtime
                (Fixture.linear_param "Frequency" 2000 "Hz")
                (JInt 8000) (JStr "hz") JNull 15 (1 # 1000) 8000 eq_refl eq_refl)
      as [param' [display [exact [H _]]]].
    rewrite H. apply (f_equal result_of) in H. vm_compute in H. symmetry. exact H.
Defined.
